(** * MushroomEmpire front end: ingestion and resilient chat

    A shallow embedding of the client-side core of the repository:

    - [Csv]      : [tryParseCSV] and its nested [parseLine]
                   (frontend/components/try/CenterPanel.tsx);
    - [Double]   : the double-precision arithmetic of the progress
                   percentage;
    - [Progress] : the progress reports of [processFile], one handler per
                   callback of the three reading strategies;
    - [Intake]   : the upload state of [CenterPanel] with [processFile],
                   its late callbacks and the Clear button (the copy of the
                   component that sends files without a .csv name to the
                   server first agrees with it on every .csv file);
    - [ChatApi]  : [chatWithCopilot] (frontend/lib/api.ts);
    - [Chatbot]  : the state of [ChatbotPanel] and [handleSubmit];
    - [Workbench]: the analysis actions of [CenterPanel] and the upload
                   wrappers of frontend/lib/api.ts;
    - [ChatRoute]: the route handler [POST] of the chat endpoint.

    JavaScript strings are modelled as [string]: a character is a UTF-16
    code unit below 256 (message constants of the source are kept as
    they are written; nothing depends on their characters).  Numbers
    that the code only uses as integers are [Z] (or [N] where the
    platform type is unsigned); where the code divides, the doubles are
    modelled ([Double]).  Asynchronous code is modelled by the
    events that resume it: a state holds the work in flight, and a step
    runs one handler or continuation to its next suspension. *)

From Stdlib Require Import String Ascii List ZArith Bool Lia.
From Stdlib Require Import DecimalString Sorted.
From Stdlib Require QArith Qround Qpower Lqa.
From Corelib Require SpecFloat.
Import ListNotations.
Local Open Scope string_scope.
Local Open Scope Z_scope.

(* ===================================================================== *)
(** ** JavaScript string and array primitives used by the code *)
(* ===================================================================== *)

Module Js.

Definition LF : ascii := "010"%char.
Definition CR : ascii := "013"%char.
Definition QUOTE : ascii := "034"%char.
Definition COMMA : ascii := ","%char.

(** WhiteSpace and LineTerminator code units below 256, the ones
    [String.prototype.trim] strips: TAB, LF, VT, FF, CR, SP, NBSP. *)
Definition is_ws (c : ascii) : bool :=
  match N_of_ascii c with
  | 9%N | 10%N | 11%N | 12%N | 13%N | 32%N | 160%N => true
  | _ => false
  end.

Definition is_empty (s : string) : bool :=
  match s with EmptyString => true | String _ _ => false end.

Fixpoint trimStart (s : string) : string :=
  match s with
  | EmptyString => EmptyString
  | String c r => if is_ws c then trimStart r else s
  end.

Fixpoint trimEnd (s : string) : string :=
  match s with
  | EmptyString => EmptyString
  | String c r =>
      let r' := trimEnd r in
      if is_ws c && is_empty r' then EmptyString else String c r'
  end.

(** [s.trim()] *)
Definition trim (s : string) : string := trimEnd (trimStart s).

(** [s.includes(c)] for a one-character needle. *)
Fixpoint includes (c : ascii) (s : string) : bool :=
  match s with
  | EmptyString => false
  | String d r => Ascii.eqb d c || includes c r
  end.

(** JavaScript truthiness of a string: only the empty string is falsy. *)
Definition truthy (s : string) : bool := negb (is_empty s).

(** [a || b] on strings. *)
Definition or_else (a b : string) : string := if truthy a then a else b.

(** [arr.slice(0, e)]: a negative [e] counts from the end. *)
Definition slice0 {A} (l : list A) (e : Z) : list A :=
  let len := Z.of_nat (length l) in
  let k := if e <? 0 then Z.max (len + e) 0 else Z.min e len in
  firstn (Z.to_nat k) l.

(** [s.slice(0, n)] for a literal [n >= 0]. *)
Fixpoint str_take (n : nat) (s : string) {struct s} : string :=
  match s, n with
  | EmptyString, _ => EmptyString
  | String _ _, O => EmptyString
  | String c r, S k => String c (str_take k r)
  end.

Definition push_char (c : ascii) (ls : list string) : list string :=
  match ls with
  | [] => [String c EmptyString]
  | l :: rest => String c l :: rest
  end.

(** [text.split(/\r?\n/)]: a separator is LF or CR immediately followed
    by LF; a CR that is not followed by LF stays in its line. *)
Fixpoint split_lines (s : string) : list string :=
  match s with
  | EmptyString => [EmptyString]
  | String c r =>
      if Ascii.eqb c LF then EmptyString :: split_lines r
      else if Ascii.eqb c CR then
        match r with
        | String c2 r2 =>
            if Ascii.eqb c2 LF then EmptyString :: split_lines r2
            else push_char c (split_lines r)
        | EmptyString => push_char c (split_lines r)
        end
      else push_char c (split_lines r)
  end.

(** The one-character strings of a line feed and of a double quote. *)
Definition nl : string := String LF EmptyString.
Definition dq : string := String QUOTE EmptyString.

(** A string made of white space only (the empty string included). *)
Fixpoint all_ws (s : string) : bool :=
  match s with
  | EmptyString => true
  | String c r => is_ws c && all_ws r
  end.

(** Template-literal rendering of an integer. *)
Definition number_to_string (z : Z) : string :=
  NilZero.string_of_int (Z.to_int z).

End Js.

(* ===================================================================== *)
(** ** Tabular preview parser: [tryParseCSV] *)
(* ===================================================================== *)

Module Csv.
Import Js.

Inductive Origin := csv.

Record TablePreviewData := mkTable {
  headers : list string;
  rows : list (list string);
  origin : Origin
}.

(** The body of the [for] loop of [parseLine]: [rest] is the line from
    index [i] on, so [line[i]] is its head and [line[i + 1]] the head of
    its tail; the extra [i++] of the escaped quote drops one more
    character. *)
Fixpoint parseLine_loop (rest : string) (cur : string) (inQuotes : bool)
         (out : list string) : list string :=
  match rest with
  | EmptyString => out ++ [cur]
  | String ch rest' =>
      if Ascii.eqb ch QUOTE then
        match rest' with
        | String ch2 rest'' =>
            if inQuotes && Ascii.eqb ch2 QUOTE
            then parseLine_loop rest'' (cur ++ String QUOTE EmptyString) inQuotes out
            else parseLine_loop rest' cur (negb inQuotes) out
        | EmptyString => parseLine_loop rest' cur (negb inQuotes) out
        end
      else if Ascii.eqb ch COMMA && negb inQuotes then
        parseLine_loop rest' EmptyString inQuotes (out ++ [cur])
      else parseLine_loop rest' (cur ++ String ch EmptyString) inQuotes out
  end.

Definition parseLine (line : string) : list string :=
  map trim (parseLine_loop line EmptyString false []).

(** [text.split(/\r?\n/).filter(l => l.trim().length > 0)] *)
Definition nonblank_lines (text : string) : list string :=
  filter (fun l => (0 <? String.length (trim l))%nat) (split_lines text).

(** [lines.slice(0, 10).filter(l => l.includes(',')).length] *)
Definition commaDensity (lines : list string) : nat :=
  length (filter (includes COMMA) (slice0 lines 10)).

Definition tryParseCSV (text : string) (maxRows maxCols : Z)
  : option TablePreviewData :=
  let lines := nonblank_lines text in
  if (length lines <? 2)%nat then None
  else if (commaDensity lines <? 2)%nat then None
  else
    match map parseLine (slice0 lines maxRows) with
    | [] => None
    | hd :: tl =>
        let colCount := Z.min (Z.of_nat (length hd)) maxCols in
        Some {| headers := slice0 hd colCount;
                rows := map (fun r => slice0 r colCount) tl;
                origin := csv |}
    end.

(** The default arguments [maxRows = 50, maxCols = 40]; every call site
    is [tryParseCSV(text)]. *)
Definition tryParseCSV_default (text : string) : option TablePreviewData :=
  tryParseCSV text 50 40.

(** The two rejection conditions in the words of the specification:
    the number of non-blank lines of the text, and how many of the first
    ten of them contain a comma. *)
Definition spec_nonblank (l : string) : bool := negb (all_ws l).

Definition spec_nonblank_line_count (text : string) : nat :=
  length (filter spec_nonblank (split_lines text)).

Definition spec_comma_lines_in_first_10 (text : string) : nat :=
  length (filter (includes COMMA) (firstn 10 (filter spec_nonblank (split_lines text)))).

End Csv.

(* ===================================================================== *)
(** ** Doubles, as far as the progress percentage needs them *)
(* ===================================================================== *)

(** A JavaScript number is an IEEE 754 binary64 value.  The progress
    arithmetic divides and multiplies numbers that are not negative, and
    the sizes it works on are those of a file (unsigned 64-bit integers
    of the platform), so that no result leaves the normal range: an
    operation returns the exact result rounded to 53 significant bits, to
    nearest, ties to even. *)

Module Double.
Import QArith Qround.
Local Open Scope Q_scope.

(** [2 ^ k] *)
Definition pow2 (k : Z) : Q := 2 ^ k.

(** [floor (log2 x)], for [0 < x]. *)
Definition binade (x : Q) : Z :=
  let e := (Z.log2 (Qnum x) - Z.log2 (Zpos (Qden x)))%Z in
  if Qle_bool (pow2 e) x then e else (e - 1)%Z.

(** The integer nearest to [x]; of two that are equally near, the even
    one. *)
Definition nearest_even (x : Q) : Z :=
  let f := Qfloor x in
  match Qcompare (x - inject_Z f) (1 # 2) with
  | Lt => f
  | Eq => if Z.even f then f else (f + 1)%Z
  | Gt => (f + 1)%Z
  end.

(** The binary64 number nearest to [x], ties to even, for [0 <= x] in the
    normal range: 53 significant bits. *)
Definition round53 (x : Q) : Q :=
  if Qle_bool x 0 then 0
  else
    let e := binade x in
    Qred (inject_Z (nearest_even (x * pow2 (52 - e))) * pow2 (e - 52)).

(** A double that is not negative, as the progress arithmetic meets
    them. *)
Inductive Double := NaN | Infinity | finite (x : Q).

(** A number whose value is an integer, NaN or [+Infinity]. *)
Inductive Integral := nan | infinity | int (z : Z).

(** The double of an unsigned integer of the platform. *)
Definition of_N (n : N) : Double := finite (round53 (inject_Z (Z.of_N n))).

(** [a / b] *)
Definition div (a b : Double) : Double :=
  match a, b with
  | NaN, _ | _, NaN => NaN
  | Infinity, Infinity => NaN
  | Infinity, finite _ => Infinity
  | finite _, Infinity => finite 0
  | finite x, finite y =>
      if Qeq_bool y 0 then (if Qeq_bool x 0 then NaN else Infinity)
      else finite (round53 (x / y))
  end.

(** [a * b] *)
Definition mul (a b : Double) : Double :=
  match a, b with
  | NaN, _ | _, NaN => NaN
  | Infinity, Infinity => Infinity
  | Infinity, finite y => if Qeq_bool y 0 then NaN else Infinity
  | finite x, Infinity => if Qeq_bool x 0 then NaN else Infinity
  | finite x, finite y => finite (round53 (x * y))
  end.

(** [Math.round(a)]: the floor of [a + 1/2]. *)
Definition Math_round (a : Double) : Integral :=
  match a with
  | NaN => nan
  | Infinity => infinity
  | finite x => int (Qfloor (x + (1 # 2)))
  end.

(** [Math.min(a, b)] *)
Definition Math_min (a b : Integral) : Integral :=
  match a, b with
  | nan, _ | _, nan => nan
  | infinity, c | c, infinity => c
  | int x, int y => int (Z.min x y)
  end.

(** [a < b] *)
Definition lt (a b : Integral) : bool :=
  match a, b with
  | nan, _ | _, nan => false
  | infinity, _ => false
  | int _, infinity => true
  | int x, int y => (x <? y)%Z
  end.

(** [a + b], for integers below 2^53, which doubles add exactly. *)
Definition add (a b : Integral) : Integral :=
  match a, b with
  | nan, _ | _, nan => nan
  | infinity, _ | _, infinity => infinity
  | int x, int y => int (x + y)
  end.


End Double.

(** The same computation with the Standard Library's specification of
    IEEE 754 binary64 ([SpecFloat], precision 53, [emax] 1024), to compare
    [Double] with. *)
Module Binary64.
Import QArith SpecFloat Double.

Definition of_N (n : N) : spec_float := binary_normalize 53 1024 (Z.of_N n) 0 false.

(** [(loaded / total) * 100] *)
Definition percent (loaded total : N) : spec_float :=
  SFmul 53 1024 (SFdiv 53 1024 (of_N loaded) (of_N total)) (of_N 100).

Definition to_Double (f : spec_float) : option Double :=
  match f with
  | S754_nan => Some NaN
  | S754_infinity false => Some Infinity
  | S754_zero false => Some (finite 0)
  | S754_finite false m e => Some (finite (inject_Z (Zpos m) * pow2 e))
  | _ => None
  end.

Definition same (a b : Double) : bool :=
  match a, b with
  | NaN, NaN => true
  | Infinity, Infinity => true
  | finite x, finite y => Qeq_bool x y
  | _, _ => false
  end.

Definition agree (loaded total : N) : bool :=
  match to_Double (percent loaded total) with
  | Some d => same d (mul (div (Double.of_N loaded) (Double.of_N total)) (Double.of_N 100))
  | None => false
  end.

(** All pairs of numbers up to [n], and some large ones. *)
Definition samples (n : nat) : list (N * N) :=
  flat_map (fun t => map (fun l => (N.of_nat l, N.of_nat t)) (seq 0 (S n))) (seq 0 (S n))
  ++ [(29, 200); (500000, 1000000); (1000000, 2097152); (2097152, 3000000);
      (123456789012345, 987654321098765); (9007199254740993, 3);
      (1, 18446744073709551615); (18446744073709551615, 18446744073709551615)]%N.

End Binary64.

(** An integer is read as a number where one is expected. *)
Coercion Double.int : Z >-> Double.Integral.

(* ===================================================================== *)
(** ** Progress reports of one upload *)
(* ===================================================================== *)

Module Progress.
Import Double.

(** [Math.round((loaded / total) * 100)], in doubles. *)
Definition round_percent (loaded total : N) : Integral :=
  Math_round (mul (div (of_N loaded) (of_N total)) (of_N 100)).

(** [Math.min(100, Math.round((loaded / total) * 100))] *)
Definition pct (loaded total : N) : Integral := Math_min 100 (round_percent loaded total).

(** A percentage. *)
Definition in_range (p : Integral) : Prop :=
  match p with
  | int z => 0 <= z <= 100
  | _ => False
  end.

(** One result of [await reader.read()] in the streaming loop. *)
Inductive ReadResult :=
| chunk (value : option N)   (* { done: false, value }, [N] is value.length *)
| done                       (* { done: true } *)
| throws.                    (* the read rejects: caught, setProgress(100) *)

(** [loaded += value ? value.length : 0] *)
Definition chunk_length (value : option N) : N :=
  match value with Some n => n | None => 0%N end.

(** [const total = f.size || 1] *)
Definition stream_total (size : Z) : N := if size =? 0 then 1%N else Z.to_N size.


(** Events of a [FileReader], as the platform fires them:
    progress*, then load or error, then loadend. *)
Inductive ReaderEvent :=
| progress (lengthComputable : bool) (loaded total : N)
| load
| error
| loadend.

(** [reader.onprogress]: [p] is the progress state the functional update
    [setProgress(p => (p < 90 ? p + 5 : p))] receives. *)
Definition onprogress (p : Integral) (lengthComputable : bool) (loaded total : N)
  : Integral :=
  if lengthComputable then pct loaded total
  else if lt p 90 then add p 5 else p.

(** Large file without [stream()]: onprogress, onloadend, onerror. *)
Definition fallback_handler (p : Integral) (e : ReaderEvent) : option Integral :=
  match e with
  | progress lc loaded total => Some (onprogress p lc loaded total)
  | loadend => Some (int 100)
  | error => Some (int 0)
  | load => None
  end.



Definition is_load (e : ReaderEvent) : bool :=
  match e with load => true | _ => false end.

(** One upload: the strategy [processFile] selects and what the
    platform delivers to it.  For a small file, [saved] tells whether the
    [saveLatestUpload] that [onload] awaits has settled. *)
Inductive Upload :=
| Streaming (size : Z) (reads : list ReadResult)
| Fallback (size : Z) (evs : list ReaderEvent)
| Small (size : Z) (evs : list ReaderEvent) (saved : bool).

(** [onload] has run to its end, where it calls [setProgress(100)] on
    both of its branches. *)
Definition onload_finished (evs : list ReaderEvent) (saved : bool) : bool :=
  existsb is_load evs && saved.


(** *** What the platform delivers *)

Definition is_loadend (e : ReaderEvent) : bool :=
  match e with loadend => true | _ => false end.

(** A reader's events for a blob of [total] bytes: [lengthComputable] is
    the same on all progress events; when it is set, [total] is the
    blob's size and [loaded] never decreases; load or error ends the
    run, followed by loadend only. *)
Fixpoint reader_events_ok (lc : bool) (total last : N)
         (evs : list ReaderEvent) : bool :=
  match evs with
  | [] => true
  | progress lc' loaded total' :: rest =>
      Bool.eqb lc lc'
      && (if lc then (total' =? total)%N && (last <=? loaded)%N else true)
      && reader_events_ok lc total loaded rest
  | load :: rest => forallb is_loadend rest && (length rest <=? 1)%nat
  | error :: rest => forallb is_loadend rest && (length rest <=? 1)%nat
  | loadend :: rest => false
  end.

(** The loop leaves at the first [done] or failing read: no read follows. *)
Fixpoint stream_reads_ok (reads : list ReadResult) : bool :=
  match reads with
  | [] => true
  | chunk _ :: rest => stream_reads_ok rest
  | done :: rest => (length rest =? 0)%nat
  | throws :: rest => (length rest =? 0)%nat
  end.

Definition LARGE_FILE : Z := 1024 * 1024.

Definition events_ok (u : Upload) : bool :=
  match u with
  | Streaming size reads => (LARGE_FILE <? size) && stream_reads_ok reads
  | Fallback size evs =>
      (LARGE_FILE <? size)
      && (reader_events_ok true (Z.to_N size) 0 evs
          || reader_events_ok false (Z.to_N size) 0 evs)
  | Small size evs _ =>
      (0 <=? size) && (size <=? LARGE_FILE)
      && (reader_events_ok true (Z.to_N size) 0 evs
          || reader_events_ok false (Z.to_N size) 0 evs)
  end.





Definition is_done (r : ReadResult) : bool :=
  match r with done => true | _ => false end.
Definition is_throws (r : ReadResult) : bool :=
  match r with throws => true | _ => false end.



End Progress.

(* ===================================================================== *)
(** ** Upload intake: [processFile], its callbacks, and Clear *)
(* ===================================================================== *)

Module Intake.
Import Js Csv.

(** What the code reads of a [File]: name, size and type, and whether
    [f.stream] (with [getReader]) is available. *)
Record File := mkFile {
  file_name : string;
  file_size : Z;
  file_type : string;
  file_stream : bool
}.

Record UploadedFileMeta := mkMeta {
  name : string;
  size : Z;
  type : string;
  contentPreview : string
}.

Definition PREVIEW_BYTES : Z := 64 * 1024.

Definition lower (c : ascii) : ascii :=
  let n := N_of_ascii c in
  if ((65 <=? n) && (n <=? 90))%N then ascii_of_N (n + 32) else c.

Fixpoint eq_ignore_case (a b : string) : bool :=
  match a, b with
  | EmptyString, EmptyString => true
  | String x a', String y b' => Ascii.eqb (lower x) (lower y) && eq_ignore_case a' b'
  | _, _ => false
  end.

(** [/\.csv$/i.test(name)] *)
Fixpoint has_csv_extension (s : string) : bool :=
  match s with
  | EmptyString => false
  | String _ r => eq_ignore_case s ".csv" || has_csv_extension r
  end.

(** Calls into the persistent upload cache (lib/indexeddb), in the order
    they are issued; their outcome is ignored by every caller. *)
Inductive CacheCall :=
| saveLatestUpload (f : File) (meta : UploadedFileMeta)
| deleteLatestUpload
| getLatestUpload.

(** Background work that has been started and whose callback or
    continuation has not run yet.  Each one belongs to the invocation
    of [processFile] for [f] and holds what its closure holds. *)
Inductive Task :=
| HeadReader (f : File)                 (* headReader.readAsArrayBuffer(headBlob) *)
| StreamLoop (f : File) (loaded : N)    (* for (;;) at await reader.read() *)
| FallbackReader (f : File)             (* large file, no stream() *)
| SmallReader (f : File)                (* reader.readAsArrayBuffer(f) *)
| SmallSave (f : File)                  (* onload at await saveLatestUpload *)
| ClearDelete                           (* Clear at await deleteLatestUpload *)
| CacheLoad (ignore : bool).            (* mount effect at await getLatestUpload *)

Record State := mkState {
  fileMeta : option UploadedFileMeta;
  uploadedFile : option File;
  progress : Double.Integral;
  progressLabel : string;
  tablePreview : option TablePreviewData;
  loadedFromCache : bool;
  error : option string;
  tasks : list Task;
  cache_calls : list CacheCall;
  progress_log : list Double.Integral   (* every value passed to setProgress, in order *)
}.

(** The [useState] initial values. *)
Definition initial : State :=
  {| fileMeta := None; uploadedFile := None; progress := 0;
     progressLabel := "Processing"; tablePreview := None;
     loadedFromCache := false; error := None;
     tasks := []; cache_calls := []; progress_log := [] |}.

Definition setFileMeta (v : option UploadedFileMeta) (s : State) : State :=
  let 'mkState _ uf pr lb tp lc er ts cc lg := s in mkState v uf pr lb tp lc er ts cc lg.
Definition setUploadedFile (v : option File) (s : State) : State :=
  let 'mkState fm _ pr lb tp lc er ts cc lg := s in mkState fm v pr lb tp lc er ts cc lg.
Definition setProgress (v : Double.Integral) (s : State) : State :=
  let 'mkState fm uf _ lb tp lc er ts cc lg := s in
  mkState fm uf v lb tp lc er ts cc (lg ++ [v]).
Definition setProgressLabel (v : string) (s : State) : State :=
  let 'mkState fm uf pr _ tp lc er ts cc lg := s in mkState fm uf pr v tp lc er ts cc lg.
Definition setTablePreview (v : option TablePreviewData) (s : State) : State :=
  let 'mkState fm uf pr lb _ lc er ts cc lg := s in mkState fm uf pr lb v lc er ts cc lg.
Definition setLoadedFromCache (v : bool) (s : State) : State :=
  let 'mkState fm uf pr lb tp _ er ts cc lg := s in mkState fm uf pr lb tp v er ts cc lg.
Definition setError (v : option string) (s : State) : State :=
  let 'mkState fm uf pr lb tp lc _ ts cc lg := s in mkState fm uf pr lb tp lc v ts cc lg.
Definition setTasks (v : list Task) (s : State) : State :=
  let 'mkState fm uf pr lb tp lc er _ cc lg := s in mkState fm uf pr lb tp lc er v cc lg.
Definition spawn (t : Task) (s : State) : State := setTasks (tasks s ++ [t]) s.
Definition call_cache (c : CacheCall) (s : State) : State :=
  let 'mkState fm uf pr lb tp lc er ts cc lg := s in
  mkState fm uf pr lb tp lc er ts (cc ++ [c]) lg.

(** [reset] *)
Definition reset (s : State) : State :=
  setError None
    (setTablePreview None
      (setProgressLabel "Processing"
        (setProgress 0 (setUploadedFile None (setFileMeta None s))))).

(** The metadata record both branches of [processFile] build. *)
Definition meta_of (f : File) (preview : string) : UploadedFileMeta :=
  {| name := file_name f; size := file_size f;
     type := or_else (file_type f) "unknown"; contentPreview := preview |}.

Definition placeholder (f : File) : UploadedFileMeta :=
  meta_of f ("Loading partial preview (first "
             ++ number_to_string (PREVIEW_BYTES / 1024) ++ "KB)...").

Definition with_preview (m : UploadedFileMeta) (preview : string) : UploadedFileMeta :=
  {| name := name m; size := size m; type := type m; contentPreview := preview |}.

(** [if (isCSV) setTablePreview(tryParseCSV(text)) else setTablePreview(null)] *)
Definition preview_table (f : File) (text : string) : option TablePreviewData :=
  if has_csv_extension (file_name f) then tryParseCSV_default text else None.

(** [processFile(f)]: everything it does before it returns or first
    suspends; the readers it starts are left in [tasks]. *)
Definition processFile (f : option File) (s : State) : State :=
  match f with
  | None => s
  | Some f =>
      let s := setUploadedFile (Some f) (setProgress 0 s) in
      if file_size f >? 1024 * 1024 then
        let metaObj := placeholder f in
        let s := setTablePreview None
                   (setFileMeta (Some metaObj) (setProgressLabel "Uploading" s)) in
        let s := call_cache (saveLatestUpload f metaObj) s in
        let s := spawn (HeadReader f) s in
        if file_stream f then spawn (StreamLoop f 0%N) s
        else spawn (FallbackReader f) s
      else spawn (SmallReader f) s
  end.

Definition File_eqb (a b : File) : bool :=
  String.eqb (file_name a) (file_name b) && (file_size a =? file_size b)
  && String.eqb (file_type a) (file_type b)
  && Bool.eqb (file_stream a) (file_stream b).

(** Take the oldest work in flight that satisfies [sel]. *)
Fixpoint take (sel : Task -> bool) (ts : list Task) : option (Task * list Task) :=
  match ts with
  | [] => None
  | t :: rest =>
      if sel t then Some (t, rest)
      else match take sel rest with
           | Some (t', rest') => Some (t', t :: rest')
           | None => None
           end
  end.

Definition is_head f t := match t with HeadReader g => File_eqb f g | _ => false end.
Definition is_stream f t := match t with StreamLoop g _ => File_eqb f g | _ => false end.
Definition is_fallback f t := match t with FallbackReader g => File_eqb f g | _ => false end.
Definition is_small f t := match t with SmallReader g => File_eqb f g | _ => false end.
Definition is_small_save f t := match t with SmallSave g => File_eqb f g | _ => false end.
Definition is_clear_delete t := match t with ClearDelete => true | _ => false end.
Definition is_cache_load t := match t with CacheLoad _ => true | _ => false end.

(** What the user does and what the platform delivers. *)
Inductive Event :=
| mount                                   (* the effect runs, tab = processing *)
| cleanup                                 (* the effect's cleanup: ignore = true *)
| cacheLoaded (file : option File) (meta : option UploadedFileMeta)
| selectFile (f : option File)            (* handleFileChange, onDrop *)
| clickClear
| clearDeleted                            (* deleteLatestUpload settled *)
| headOnload (f : File) (decoded : option string)
| streamRead (f : File) (r : Progress.ReadResult)
| fallbackEvent (f : File) (e : Progress.ReaderEvent)
| smallProgress (f : File) (lengthComputable : bool) (loaded total : N)
| smallOnload (f : File) (decoded : option string)
| smallSaved (f : File)                   (* saveLatestUpload settled *)
| smallOnerror (f : File).

Definition mark_ignored (t : Task) : Task :=
  match t with CacheLoad _ => CacheLoad true | _ => t end.

(** One event.  [None]: the event cannot occur, no such work is in
    flight.  A [decoded] of [None] is a [decode] that throws. *)
Definition step (s : State) (ev : Event) : option State :=
  match ev with
  | mount => Some (spawn (CacheLoad false) (call_cache getLatestUpload s))
  | cleanup => Some (setTasks (map mark_ignored (tasks s)) s)
  | cacheLoaded file meta =>
      match take is_cache_load (tasks s) with
      | Some (CacheLoad ignore, rest) =>
          let s := setTasks rest s in
          match meta with
          | Some m =>
              if ignore then Some s
              else
                let s := setFileMeta (Some m) s in
                let s := match file with
                         | Some f => setUploadedFile (Some f) s
                         | None => s
                         end in
                Some (setLoadedFromCache true s)
          | None => Some s
          end
      | _ => None
      end
  | selectFile f => Some (processFile f s)
  | clickClear => Some (spawn ClearDelete (call_cache deleteLatestUpload (reset s)))
  | clearDeleted =>
      match take is_clear_delete (tasks s) with
      | Some (_, rest) => Some (setLoadedFromCache false (setTasks rest s))
      | None => None
      end
  | headOnload f decoded =>
      match take (is_head f) (tasks s) with
      | Some (_, rest) =>
          let s := setTasks rest s in
          match decoded with
          | Some text =>
              let preview := str_take 4000 text in
              let s := setFileMeta
                         (match fileMeta s with
                          | Some prev => Some (with_preview prev preview)
                          | None => None
                          end) s in
              let s := setTablePreview (preview_table f text) s in
              Some (call_cache (saveLatestUpload f (with_preview (placeholder f) preview)) s)
          | None => Some s
          end
      | None => None
      end
  | streamRead f r =>
      match take (is_stream f) (tasks s) with
      | Some (StreamLoop _ loaded, rest) =>
          match r with
          | Progress.chunk value =>
              let loaded' := (loaded + Progress.chunk_length value)%N in
              let total := Progress.stream_total (file_size f) in
              Some (setProgress (Progress.pct loaded' total)
                      (setTasks (rest ++ [StreamLoop f loaded']) s))
          | Progress.done => Some (setProgress 100 (setTasks rest s))
          | Progress.throws => Some (setProgress 100 (setTasks rest s))
          end
      | _ => None
      end
  | fallbackEvent f e =>
      match take (is_fallback f) (tasks s) with
      | Some (t, rest) =>
          let s := match e with
                   | Progress.loadend => setTasks rest s
                   | _ => s
                   end in
          match Progress.fallback_handler (progress s) e with
          | Some p => Some (setProgress p s)
          | None => Some s
          end
      | None => None
      end
  | smallProgress f lc loaded total =>
      match take (is_small f) (tasks s) with
      | Some _ => Some (setProgress (Progress.onprogress (progress s) lc loaded total) s)
      | None => None
      end
  | smallOnload f decoded =>
      match take (is_small f) (tasks s) with
      | Some (_, rest) =>
          let s := setTasks rest s in
          let s :=
            match decoded with
            | Some text =>
                let metaObj := meta_of f (str_take 4000 text) in
                call_cache (saveLatestUpload f metaObj)
                  (setTablePreview (preview_table f text)
                     (setFileMeta (Some metaObj) s))
            | None =>
                let metaObj := meta_of f "Unable to decode preview." in
                call_cache (saveLatestUpload f metaObj)
                  (setTablePreview None (setFileMeta (Some metaObj) s))
            end in
          Some (spawn (SmallSave f) s)
      | None => None
      end
  | smallSaved f =>
      match take (is_small_save f) (tasks s) with
      | Some (_, rest) =>
          Some (setProgress 100 (setProgressLabel "Processing" (setTasks rest s)))
      | None => None
      end
  | smallOnerror f =>
      match take (is_small f) (tasks s) with
      | Some (_, rest) => Some (setProgress 0 (setTasks rest s))
      | None => None
      end
  end.

Fixpoint run (s : State) (evs : list Event) : option State :=
  match evs with
  | [] => Some s
  | ev :: rest =>
      match step s ev with
      | Some s' => run s' rest
      | None => None
      end
  end.

(** The events by which the deliveries of one upload reach the component.
    The small reader's load runs [onload] up to its [await]; its loadend
    has no handler; the continuation of [onload] runs when
    [saveLatestUpload] has settled. *)
Definition small_events (f : File) (decoded : option string)
           (e : Progress.ReaderEvent) : list Event :=
  match e with
  | Progress.progress lc loaded total => [smallProgress f lc loaded total]
  | Progress.load => [smallOnload f decoded]
  | Progress.error => [smallOnerror f]
  | Progress.loadend => []
  end.

Definition upload_events (f : File) (decoded : option string)
           (u : Progress.Upload) : list Event :=
  selectFile (Some f)
  :: match u with
     | Progress.Streaming _ reads => map (streamRead f) reads
     | Progress.Fallback _ evs => map (fallbackEvent f) evs
     | Progress.Small _ evs saved =>
         flat_map (small_events f decoded) evs
         ++ (if Progress.onload_finished evs saved then [smallSaved f] else [])
     end.

(** The upload is the one [processFile] performs for [f]. *)
Definition upload_of (f : File) (u : Progress.Upload) : bool :=
  match u with
  | Progress.Streaming size _ => (size =? file_size f) && file_stream f
  | Progress.Fallback size _ => (size =? file_size f) && negb (file_stream f)
  | Progress.Small size _ _ => size =? file_size f
  end.

(** What the processing tab renders of the upload: nothing of the file
    card while [fileMeta] is null; otherwise name, size and type, and
    the table when there is one, else the text preview. *)
Inductive Shown :=
| NoCard
| TextCard (name : string) (size : Z) (type : string) (preview : string)
| TableCard (name : string) (size : Z) (type : string) (table : TablePreviewData).

Definition render (s : State) : Shown :=
  match fileMeta s with
  | None => NoCard
  | Some m =>
      match tablePreview s with
      | Some t => TableCard (name m) (size m) (or_else (type m) "Unknown type") t
      | None => TextCard (name m) (size m) (or_else (type m) "Unknown type")
                         (or_else (contentPreview m) "(no preview)")
      end
  end.

End Intake.

(* ===================================================================== *)
(** ** [chatWithCopilot] (lib/api.ts) *)
(* ===================================================================== *)

Module ChatApi.
Import Js.

(** A thrown value, as far as the code inspects it: [name], [message]. *)
Record JsError := mkError { err_name : string; err_message : string }.

(** [new Error(message)] *)
Definition Error (message : string) : JsError := mkError "Error" message.

(** What [fetch] and the body readers reject with once
    [controller.abort()] has been called on their signal. *)
Definition AbortError : JsError := mkError "AbortError" "signal is aborted without reason".

Inductive Result (A : Type) :=
| resolves (a : A)
| rejects (e : JsError).
Arguments resolves {A} a.
Arguments rejects {A} e.

(** A parsed JSON body, as far as the code reads it: [null], on which
    reading a property throws, or another value, with its fields
    [response] and [detail] when present and its [JSON.stringify]. *)
Inductive Json :=
| json_null
| mkJson (response detail : option string) (stringify : string).

Definition response (j : Json) : option string :=
  match j with mkJson r _ _ => r | json_null => None end.
Definition detail (j : Json) : option string :=
  match j with mkJson _ d _ => d | json_null => None end.
Definition stringify (j : Json) : string :=
  match j with mkJson _ _ s => s | json_null => "null" end.

(** The [TypeError] of reading property [name] of [null]. *)
Definition null_property (name : string) : JsError :=
  mkError "TypeError" ("Cannot read properties of null (reading '" ++ name ++ "')").

Definition field (v : option string) : string :=
  match v with Some s => s | None => EmptyString end.

(** What the network does with one request. *)
Inductive Body :=
| body_json (j : Json)        (* res.json() resolves *)
| body_invalid (e : JsError)  (* res.json() rejects: the body is not JSON *)
| body_stalls.                (* the body does not complete *)

Inductive Network :=
| net_fails (e : JsError)                 (* fetch rejects *)
| net_stalls                              (* no response *)
| net_responds (status : Z) (body : Body).

(** [res.ok] *)
Definition res_ok (status : Z) : bool := (200 <=? status) && (status <=? 299).

(** The request is still waiting for the network when the 120 s timer
    fires: the timer calls [controller.abort()], and the pending
    [await] rejects with [AbortError]. *)
Definition timed_out (net : Network) : bool :=
  match net with
  | net_stalls => true
  | net_responds _ body_stalls => true
  | _ => false
  end.

Definition timeoutMs : Z := 120000.

Definition TIMED_OUT : string := "Request timed out â€“ model may be overloaded.".

(** The [try] block. *)
Definition attempt (net : Network) : Result string :=
  match net with
  | net_fails e => rejects e
  | net_stalls => rejects AbortError
  | net_responds status body =>
      if res_ok status then
        match body with
        | body_json json_null => rejects (null_property "response")
        | body_json json => resolves (or_else (field (response json)) (stringify json))
        | body_invalid e => rejects e
        | body_stalls => rejects AbortError
        end
      else
        (* let detail = undefined; try { detail = await res.json() } catch {};
           then detail?.detail, which is undefined for null *)
        let detail := match body with
                      | body_json d => field (detail d)
                      | body_invalid _ => EmptyString
                      | body_stalls => EmptyString
                      end in
        rejects (Error (or_else detail
                          ("Chat failed (" ++ number_to_string status ++ ")")))
  end.

(** The [catch] clause. *)
Definition settle (net : Network) : Result string :=
  match attempt net with
  | resolves text => resolves text
  | rejects err =>
      if String.eqb (err_name err) "AbortError"
      then rejects (Error TIMED_OUT)
      else rejects err
  end.

(** One call, observed from outside: how its promise settles, whether a
    request went out, whether [controller.abort()] ran, and whether the
    [finally] block cleared the timer. *)
Record Call := mkCall {
  settled : Result string;
  fetched : bool;
  aborted : bool;
  timer_cleared : bool
}.

(** [!prompt.trim()] *)
Definition empty_prompt (prompt : string) : bool := is_empty (trim prompt).

Definition chatWithCopilot (prompt : string) (net : Network) : Call :=
  if empty_prompt prompt then
    {| settled := rejects (Error "Empty prompt");
       fetched := false; aborted := false; timer_cleared := false |}
  else
    {| settled := settle net;
       fetched := true; aborted := timed_out net; timer_cleared := true |}.

End ChatApi.

(* ===================================================================== *)
(** ** [ChatbotPanel] and [handleSubmit] *)
(* ===================================================================== *)

Module Chatbot.
Import Js ChatApi.

Inductive Role := user | assistant.

Record ChatMessage := mkMessage {
  role : Role;
  content : string;
  pending : bool;    (* an absent [pending] or [error] is falsy *)
  error : bool
}.

(** Requests sent to the chat endpoint, in order. *)
Inductive Fetch :=
| primary_fetch (prompt : string)     (* inside chatWithCopilot, with the abort signal *)
| fallback_fetch (prompt : string).   (* inside handleSubmit, without a signal *)

(** Where one invocation of [handleSubmit] is suspended. *)
Inductive Phase :=
| AwaitPrimary                        (* await chatWithCopilot(prompt) *)
| AwaitFallback (primaryErr : JsError) (* await fetch(...) or res.json() of the fallback *)
| Returned.

(** The variables one invocation of [handleSubmit] closes over.
    [seen_delayedError] is the [delayedError] of the render that created
    the handler: the closure keeps that value, whatever
    [setDelayedError] is called with later. *)
Record Invocation := mkInvocation {
  prompt : string;
  seen_delayedError : option string;
  canShowError : bool;
  delayTimer : bool;     (* armed: set and neither fired nor cleared *)
  abortTimer : bool;     (* the 120 s timer of chatWithCopilot, armed *)
  phase : Phase
}.

Record Panel := mkPanel {
  messages : list ChatMessage;
  input : string;
  isLoading : bool;
  delayedError : option string;
  invocation : option Invocation;
  fetches : list Fetch
}.

Definition GREETING : string :=
  "Hi! I'm your Privacy Copilot. Ask me about compliance, GDPR articles, or dataset risks.".

Definition initial : Panel :=
  {| messages := [mkMessage assistant GREETING false false];
     input := EmptyString; isLoading := false; delayedError := None;
     invocation := None; fetches := [] |}.

Definition errorDisplayDelayMs : Z := 4000.

Definition THINKING : string := "Thinking…".

(** [prev.map(m => m.pending ? { ...m, content: msg, pending: false, error: true } : m)] *)
Definition showErrorBubble (msg : string) (ms : list ChatMessage) : list ChatMessage :=
  map (fun m => if pending m then mkMessage (role m) msg false true else m) ms.

(** [prev.map(m => m.pending ? { ...m, content: responseText || 'No response text', pending: false } : m)] *)
Definition showResponse (responseText : string) (ms : list ChatMessage) : list ChatMessage :=
  map (fun m => if pending m
                then mkMessage (role m) (or_else responseText "No response text") false (error m)
                else m) ms.

Definition setMessages (f : list ChatMessage -> list ChatMessage) (p : Panel) : Panel :=
  let 'mkPanel ms inp ld de inv fs := p in mkPanel (f ms) inp ld de inv fs.
Definition setInput (v : string) (p : Panel) : Panel :=
  let 'mkPanel ms _ ld de inv fs := p in mkPanel ms v ld de inv fs.
Definition setIsLoading (v : bool) (p : Panel) : Panel :=
  let 'mkPanel ms inp _ de inv fs := p in mkPanel ms inp v de inv fs.
Definition setDelayedError (v : option string) (p : Panel) : Panel :=
  let 'mkPanel ms inp ld _ inv fs := p in mkPanel ms inp ld v inv fs.
Definition setInvocation (v : option Invocation) (p : Panel) : Panel :=
  let 'mkPanel ms inp ld de _ fs := p in mkPanel ms inp ld de v fs.
Definition send (f : Fetch) (p : Panel) : Panel :=
  let 'mkPanel ms inp ld de inv fs := p in mkPanel ms inp ld de inv (fs ++ [f]).

(** [if (delayedError)]: null and the empty string are falsy. *)
Definition truthy_error (e : option string) : bool :=
  match e with Some s => truthy s | None => false end.

(** [handleSubmit] up to its first suspension.  [input], [isLoading]
    and [delayedError] are the values of the current render. *)
Definition handleSubmit (p : Panel) : Panel :=
  let prompt := trim (input p) in
  if is_empty prompt || isLoading p then p
  else
    let seen := delayedError p in
    let p := setIsLoading true
               (setMessages (fun prev => (prev ++ [mkMessage user prompt false false;
                                                   mkMessage assistant THINKING true false])%list)
                  (setDelayedError None (setInput EmptyString p))) in
    if empty_prompt prompt then
      (* chatWithCopilot rejects at once; the fallback request goes out *)
      send (fallback_fetch prompt)
        (setInvocation
           (Some (mkInvocation prompt seen false true false
                               (AwaitFallback (Error "Empty prompt")))) p)
    else
      send (primary_fetch prompt)
        (setInvocation (Some (mkInvocation prompt seen false true true AwaitPrimary)) p).

(** The delay timer's callback:
    [canShowError = true; if (delayedError) showErrorBubble(delayedError)]. *)
Definition delay_callback (i : Invocation) (p : Panel) : Panel :=
  let i' := mkInvocation (prompt i) (seen_delayedError i) true false
                         (abortTimer i) (phase i) in
  let p := setInvocation (Some i') p in
  if truthy_error (seen_delayedError i)
  then setMessages (showErrorBubble (field (seen_delayedError i))) p
  else p.

(** The success path after the inner [try]: [clearTimeout(delayTimer)],
    the response is written, [finally] releases [isLoading]. *)
Definition succeed (i : Invocation) (responseText : string) (p : Panel) : Panel :=
  let i' := mkInvocation (prompt i) (seen_delayedError i) (canShowError i)
                         false false Returned in
  setIsLoading false
    (setMessages (showResponse responseText) (setInvocation (Some i') p)).

(** The outer [catch]: [clearTimeout(delayTimer)], then the error is
    shown or stored, [finally] releases [isLoading]. *)
Definition fail (i : Invocation) (err : JsError) (p : Panel) : Panel :=
  let i' := mkInvocation (prompt i) (seen_delayedError i) (canShowError i)
                         false false Returned in
  let errMsg := or_else (err_message err) "Unexpected error" in
  let p := setInvocation (Some i') p in
  setIsLoading false
    (if canShowError i then setMessages (showErrorBubble errMsg) p
     else setDelayedError (Some errMsg) p).

(** The fallback request: [Some text] when it yields a response text,
    [None] when [primaryErr] is rethrown, for a reply that arrives.  A
    body that is [null] makes [j.response] throw, which the inner
    [catch] turns into [primaryErr]. *)
Definition fallback_text (net : Network) : option string :=
  match net with
  | net_responds status (body_json j) =>
      if res_ok status
      then match j with
           | json_null => None
           | _ => Some (or_else (field (response j)) (stringify j))
           end
      else None
  | _ => None
  end.

(** The fallback request has no abort signal: a stalled one never
    settles. *)
Definition fallback_arrives (net : Network) : bool := negb (timed_out net).

Inductive Event :=
| typeInput (text : string)         (* onChange of the input field *)
| submit                            (* onSubmit of the form *)
| delayElapsed                      (* the 4 s timer fires *)
| primarySettled (net : Network)    (* chatWithCopilot settles *)
| fallbackSettled (net : Network).  (* the fallback request settles *)

(** One event.  [None]: the event cannot occur in this state.  The
    panel renders between events, so every handler sees the current
    state.  A primary call that ends by its 120 s timer cannot settle
    while the 4 s timer, set in the same turn, is still armed. *)
Definition step (p : Panel) (ev : Event) : option Panel :=
  match ev with
  | typeInput text => if isLoading p then None else Some (setInput text p)
  | submit => Some (handleSubmit p)
  | delayElapsed =>
      match invocation p with
      | Some i => if delayTimer i then Some (delay_callback i p) else None
      | None => None
      end
  | primarySettled net =>
      match invocation p with
      | Some i =>
          match phase i with
          | AwaitPrimary =>
              if timed_out net && delayTimer i then None
              else
                match settled (chatWithCopilot (prompt i) net) with
                | resolves text => Some (succeed i text p)
                | rejects primaryErr =>
                    let i' := mkInvocation (prompt i) (seen_delayedError i)
                                (canShowError i) (delayTimer i) false
                                (AwaitFallback primaryErr) in
                    Some (send (fallback_fetch (prompt i)) (setInvocation (Some i') p))
                end
          | _ => None
          end
      | None => None
      end
  | fallbackSettled net =>
      match invocation p with
      | Some i =>
          match phase i with
          | AwaitFallback primaryErr =>
              if fallback_arrives net then
                match fallback_text net with
                | Some text => Some (succeed i text p)
                | None => Some (fail i primaryErr p)
                end
              else None
          | _ => None
          end
      | None => None
      end
  end.

(** The states a sequence of events passes through, the first one
    excluded; [None] when some event cannot occur. *)
Fixpoint trace (p : Panel) (evs : list Event) : option (list Panel) :=
  match evs with
  | [] => Some []
  | ev :: rest =>
      match step p ev with
      | Some p' =>
          match trace p' rest with
          | Some ps => Some (p' :: ps)
          | None => None
          end
      | None => None
      end
  end.

Fixpoint run (p : Panel) (evs : list Event) : option Panel :=
  match evs with
  | [] => Some p
  | ev :: rest =>
      match step p ev with
      | Some p' => run p' rest
      | None => None
      end
  end.


Definition pending_count (p : Panel) : nat := length (filter pending (messages p)).


(** States the panel can be in: those some sequence of events leads to
    from the initial one. *)
Definition reachable (p : Panel) : Prop := exists evs, run initial evs = Some p.

End Chatbot.

(* ===================================================================== *)
(** ** Concrete inputs used by the evaluations below *)
(* ===================================================================== *)

Module Scenario.
Import Js.

(** Two CSV files above the 1 MiB threshold, read by streaming. *)
Definition fileA : Intake.File := Intake.mkFile "a.csv" 2097152 "text/csv" true.
Definition fileB : Intake.File := Intake.mkFile "b.csv" 3000000 "text/csv" true.

(** The user selects A, clears, selects B; then the head reader that
    [processFile(A)] started delivers A's decoded head. *)
Definition clear_then_reselect (headA : string) : list Intake.Event :=
  [Intake.selectFile (Some fileA); Intake.clickClear;
   Intake.selectFile (Some fileB); Intake.headOnload fileA (Some headA)].

Definition headA : string := "x,y" ++ nl ++ "1,2" ++ nl.




(** A [fetch] that rejects at once (no connection). *)
Definition offline : ChatApi.Network :=
  ChatApi.net_fails (ChatApi.mkError "TypeError" "Failed to fetch").

(** A server that answers with status 500 and never completes the body. *)
Definition stalled_500 : ChatApi.Network :=
  ChatApi.net_responds 500 ChatApi.body_stalls.

Definition reply (text : string) : ChatApi.Network :=
  ChatApi.net_responds 200
    (ChatApi.body_json (ChatApi.mkJson (Some text) None "{}")).

(** A request whose primary and fallback attempts both fail within the
    4 s delay window. *)
Definition fast_failure : list Chatbot.Event :=
  [Chatbot.typeInput "hi"; Chatbot.submit;
   Chatbot.primarySettled offline; Chatbot.fallbackSettled offline].

(** ... followed by a second request. *)
Definition fast_failure_then_resubmit : list Chatbot.Event :=
  (fast_failure ++ [Chatbot.typeInput "again"; Chatbot.submit])%list.

End Scenario.

(* ===================================================================== *)
(** ** Writing CSV text, to state what the parser reads back *)
(* ===================================================================== *)

Module CsvText.
Import Js.

(** A quote inside a quoted field is written twice. *)
Fixpoint escape_quotes (s : string) : string :=
  match s with
  | EmptyString => EmptyString
  | String c r =>
      if Ascii.eqb c QUOTE then String QUOTE (String QUOTE (escape_quotes r))
      else String c (escape_quotes r)
  end.

(** A field between quotes. *)
Definition quote_field (f : string) : string := dq ++ escape_quotes f ++ dq.

(** A line of quoted fields separated by commas. *)
Definition encode_line (fields : list string) : string :=
  String.concat "," (map quote_field fields).

(** The text with every LF written as CR LF. *)
Fixpoint to_crlf (s : string) : string :=
  match s with
  | EmptyString => EmptyString
  | String c r =>
      if Ascii.eqb c LF then String CR (String LF (to_crlf r))
      else String c (to_crlf r)
  end.

(** A line cut at every comma. *)
Fixpoint split_commas (s : string) : list string :=
  match s with
  | EmptyString => [EmptyString]
  | String c r =>
      if Ascii.eqb c COMMA then EmptyString :: split_commas r
      else push_char c (split_commas r)
  end.

(** No white space at either end. *)
Definition trimmed (s : string) : Prop := trim s = s.

(** A line: no line feed and no carriage return inside. *)
Definition one_line (l : string) : Prop :=
  includes LF l = false /\ includes CR l = false.

(** Empty, or starting with a character that is not white space. *)
Definition starts_clean (s : string) : Prop :=
  match s with EmptyString => True | String c _ => is_ws c = false end.

(** [cur] put in front of the first string of a list. *)
Definition prepend (cur : string) (ls : list string) : list string :=
  match ls with
  | [] => [cur]
  | l :: rest => (cur ++ l) :: rest
  end.

End CsvText.

(* ===================================================================== *)
(** ** Invariants of the upload state *)
(* ===================================================================== *)

Module IntakeInv.
Import Js Csv Intake.

(** The file whose invocation of [processFile] a piece of work belongs to. *)
Definition task_file (t : Task) : option File :=
  match t with
  | HeadReader f | StreamLoop f _ | FallbackReader f | SmallReader f | SmallSave f => Some f
  | ClearDelete | CacheLoad _ => None
  end.

(** No table is shown and no work in flight belongs to a file with a .csv
    name. *)
Definition csv_free (s : State) : Prop :=
  tablePreview s = None /\
  forall t f, In t (tasks s) -> task_file t = Some f ->
              has_csv_extension (file_name f) = false.

(** The event does not select a file with a .csv name. *)
Definition selects_no_csv (ev : Event) : Prop :=
  forall f, ev = selectFile (Some f) -> has_csv_extension (file_name f) = false.

(** The content preview holds at most 4000 characters. *)
Definition bounded_meta (m : UploadedFileMeta) : Prop :=
  (String.length (contentPreview m) <= 4000)%nat.

Definition bounded_call (c : CacheCall) : Prop :=
  match c with
  | saveLatestUpload _ m => bounded_meta m
  | _ => True
  end.

(** The metadata shown and every metadata record handed to the cache are
    bounded. *)
Definition previews_bounded (s : State) : Prop :=
  (forall m, fileMeta s = Some m -> bounded_meta m) /\
  Forall bounded_call (cache_calls s).

(** What the cache gives back on mount is bounded. *)
Definition loads_bounded (ev : Event) : Prop :=
  forall file m, ev = cacheLoaded file (Some m) -> bounded_meta m.

(** The preview text of a small file: the head of the decoded text, or
    the notice of the [catch] branch. *)
Definition decoded_preview (decoded : option string) : string :=
  match decoded with
  | Some text => str_take 4000 text
  | None => "Unable to decode preview."
  end.

End IntakeInv.

(* ===================================================================== *)
(** ** The chat panel over whole runs *)
(* ===================================================================== *)

Module ChatbotInv.
Import Js ChatApi Chatbot.
Local Open Scope list_scope.

(** [m'] is what a later state holds in the place of [m]: the same role,
    and the same message unless [m] was pending. *)
Definition keeps (m m' : ChatMessage) : Prop :=
  role m' = role m /\ (pending m = false -> m' = m).

(** [ms'] continues [ms]: it keeps every message in its place and may add
    messages at the end. *)
Definition continues (ms ms' : list ChatMessage) : Prop :=
  exists kept added, ms' = kept ++ added /\ Forall2 keeps ms kept.

(** The prompt a request carries. *)
Definition fetch_prompt (f : Fetch) : string :=
  match f with primary_fetch s => s | fallback_fetch s => s end.

(** A pending message is the placeholder [handleSubmit] appends. *)
Definition is_placeholder (m : ChatMessage) : Prop :=
  pending m = true -> m = mkMessage assistant THINKING true false.

(** [s] is not blank and stands in the list as a user message. *)
Definition asked (s : string) (ms : list ChatMessage) : Prop :=
  all_ws s = false /\ In (mkMessage user s false false) ms.

(** [isLoading], the input and the timers agree with where the
    invocation of [handleSubmit] is suspended. *)
Definition request_ok (p : Panel) : Prop :=
  match invocation p with
  | None => isLoading p = false
  | Some i =>
      match phase i with
      | AwaitPrimary =>
          isLoading p = true /\ input p = EmptyString /\ asked (prompt i) (messages p) /\
          abortTimer i = true /\ canShowError i = negb (delayTimer i)
      | AwaitFallback _ =>
          isLoading p = true /\ input p = EmptyString /\ asked (prompt i) (messages p) /\
          abortTimer i = false /\ canShowError i = negb (delayTimer i)
      | Returned =>
          isLoading p = false /\ delayTimer i = false /\ abortTimer i = false
      end
  end.

(** What holds in every state the panel reaches. *)
Definition panel_ok (p : Panel) : Prop :=
  Forall is_placeholder (messages p) /\
  request_ok p /\
  Forall (fun f => asked (fetch_prompt f) (messages p)) (fetches p).

(** The ways a request can fail with the delay timer fired before the
    failure is handled. *)
Inductive FailsAfterDelay (prompt : string) : list Event -> JsError -> Prop :=
| fails_late (net1 net2 : Network) (primaryErr : JsError) :
    settled (chatWithCopilot prompt net1) = rejects primaryErr ->
    fallback_arrives net2 = true ->
    fallback_text net2 = None ->
    FailsAfterDelay prompt
      [delayElapsed; primarySettled net1; fallbackSettled net2] primaryErr
| fails_across (net1 net2 : Network) (primaryErr : JsError) :
    timed_out net1 = false ->
    settled (chatWithCopilot prompt net1) = rejects primaryErr ->
    fallback_arrives net2 = true ->
    fallback_text net2 = None ->
    FailsAfterDelay prompt
      [primarySettled net1; delayElapsed; fallbackSettled net2] primaryErr.

(** The ways a request can succeed with the delay timer fired before the
    response is handled. *)
Inductive SucceedsAfterDelay (prompt : string) : list Event -> string -> Prop :=
| primary_succeeds_late (net : Network) (text : string) :
    settled (chatWithCopilot prompt net) = resolves text ->
    SucceedsAfterDelay prompt [delayElapsed; primarySettled net] text
| fallback_succeeds_late (net1 net2 : Network) (primaryErr : JsError) (text : string) :
    settled (chatWithCopilot prompt net1) = rejects primaryErr ->
    fallback_arrives net2 = true ->
    fallback_text net2 = Some text ->
    SucceedsAfterDelay prompt
      [delayElapsed; primarySettled net1; fallbackSettled net2] text
| fallback_succeeds_across (net1 net2 : Network) (primaryErr : JsError) (text : string) :
    timed_out net1 = false ->
    settled (chatWithCopilot prompt net1) = rejects primaryErr ->
    fallback_arrives net2 = true ->
    fallback_text net2 = Some text ->
    SucceedsAfterDelay prompt
      [primarySettled net1; delayElapsed; fallbackSettled net2] text.

(** What the bubbles show once a request has ended after its delay timer
    fired: the message an earlier request left in [delayedError], when
    there is one, else the outcome of this request. *)
Definition shown_error (seen : option string) (e : JsError) : string :=
  if truthy_error seen then field seen
  else or_else (err_message e) "Unexpected error".

End ChatbotInv.

(* ===================================================================== *)
(** ** The analysis actions of [CenterPanel] and the wrappers of lib/api *)
(* ===================================================================== *)

Module Workbench.
Import Js ChatApi Intake.

(** The tabs [renderTabContent] switches over. *)
Inductive TryTab :=
| processing | bias_analysis | risk_analysis | bias_risk_mitigation | results.

Definition TryTab_eqb (a b : TryTab) : bool :=
  match a, b with
  | processing, processing | bias_analysis, bias_analysis
  | risk_analysis, risk_analysis | bias_risk_mitigation, bias_risk_mitigation
  | results, results => true
  | _, _ => false
  end.

(** The three upload endpoints of lib/api. *)
Inductive Endpoint := analyze | clean | detect_pii.

Definition url_path (ep : Endpoint) : string :=
  match ep with
  | analyze => "/api/analyze"
  | clean => "/api/clean"
  | detect_pii => "/api/detect-pii"
  end.

(** The message both the wrapper and its handler fall back to. *)
Definition failure_text (ep : Endpoint) : string :=
  match ep with
  | analyze => "Analysis failed"
  | clean => "Cleaning failed"
  | detect_pii => "PII detection failed"
  end.

Definition busy_label (ep : Endpoint) : string :=
  match ep with
  | analyze => "Analyzing dataset..."
  | clean => "Cleaning dataset..."
  | detect_pii => "Detecting PII..."
  end.

Definition done_label (ep : Endpoint) : string :=
  match ep with
  | analyze => "Analysis complete!"
  | clean => "Cleaning complete!"
  | detect_pii => "PII detection complete!"
  end.

(** The body the three wrappers share: POST the file, throw
    [Error(error.detail || failure)] for a reply that is not ok, else
    return the parsed body.  For a reply that is not ok and whose body is
    [null], [error.detail] throws.  No abort signal is passed: [None]
    when the request never settles. *)
Definition post_file (ep : Endpoint) (net : Network) : option (Result Json) :=
  match net with
  | net_fails e => Some (rejects e)
  | net_stalls => None
  | net_responds status body =>
      match body with
      | body_json j =>
          if res_ok status then Some (resolves j)
          else match j with
               | json_null => Some (rejects (null_property "detail"))
               | _ => Some (rejects (Error (or_else (field (detail j))
                                                     (failure_text ep))))
               end
      | body_invalid e => Some (rejects e)
      | body_stalls => None
      end
  end.

Definition analyzeDataset : Network -> option (Result Json) := post_file analyze.
Definition cleanDataset : Network -> option (Result Json) := post_file clean.
Definition detectPII : Network -> option (Result Json) := post_file detect_pii.

(** [getReportUrl] *)
Definition getReportUrl (API_BASE_URL reportPath : string) : string :=
  API_BASE_URL ++ reportPath.

(** One POST of a file. *)
Record Request := mkRequest { endpoint : Endpoint; upload : File }.

(** [CenterPanel] with the state [Intake] leaves out, and the [tab] of
    [TryPage] that it receives.  A result is [None] until a handler
    stores what its call resolved with. *)
Record Bench := mkBench {
  files : Intake.State;
  isProcessing : bool;
  analyzeResult : option Json;
  cleanResult : option Json;
  piiDetectionResult : option Json;
  tab : TryTab;
  calls : list Request;       (* handlers suspended at their [await] *)
  requests : list Request     (* every POST sent, in order *)
}.

Definition on_files (f : Intake.State -> Intake.State) (b : Bench) : Bench :=
  let 'mkBench s ip ar cr pr tb cs rs := b in mkBench (f s) ip ar cr pr tb cs rs.
Definition setIsProcessing (v : bool) (b : Bench) : Bench :=
  let 'mkBench s _ ar cr pr tb cs rs := b in mkBench s v ar cr pr tb cs rs.
Definition setAnalyzeResult (v : option Json) (b : Bench) : Bench :=
  let 'mkBench s ip _ cr pr tb cs rs := b in mkBench s ip v cr pr tb cs rs.
Definition setCleanResult (v : option Json) (b : Bench) : Bench :=
  let 'mkBench s ip ar _ pr tb cs rs := b in mkBench s ip ar v pr tb cs rs.
Definition setPIIDetectionResult (v : option Json) (b : Bench) : Bench :=
  let 'mkBench s ip ar cr _ tb cs rs := b in mkBench s ip ar cr v tb cs rs.
Definition setTab (v : TryTab) (b : Bench) : Bench :=
  let 'mkBench s ip ar cr pr _ cs rs := b in mkBench s ip ar cr pr v cs rs.
Definition setCalls (v : list Request) (b : Bench) : Bench :=
  let 'mkBench s ip ar cr pr tb _ rs := b in mkBench s ip ar cr pr tb v rs.
(** The wrapper is called: the request goes out and the handler waits. *)
Definition call (r : Request) (b : Bench) : Bench :=
  let 'mkBench s ip ar cr pr tb cs rs := b in
  mkBench s ip ar cr pr tb (cs ++ [r]) (rs ++ [r]).

(** The effect keyed on [tab]: its cleanup sets [ignore] for the load in
    flight, and it asks the cache again on the processing tab. *)
Definition effect_cleanup (s : Intake.State) : Intake.State :=
  setTasks (map mark_ignored (tasks s)) s.
Definition effect_run (t : TryTab) (s : Intake.State) : Intake.State :=
  match t with
  | processing => spawn (CacheLoad false) (call_cache getLatestUpload s)
  | _ => s
  end.

(** The state after the first render of [TryPage]: the processing tab,
    and the effect has asked the cache. *)
Definition initial : Bench :=
  {| files := effect_run processing Intake.initial;
     isProcessing := false; analyzeResult := None; cleanResult := None;
     piiDetectionResult := None; tab := processing; calls := []; requests := [] |}.

(** [setTab(t)] of [TryPage], by the sidebar or by [onAnalyze]: a new
    value re-renders and re-runs the effect. *)
Definition navigate (t : TryTab) (b : Bench) : Bench :=
  if TryTab_eqb (tab b) t then b
  else setTab t (on_files (fun s => effect_run t (effect_cleanup s)) b).

(** [handleAnalyze], [handleDetectPII] and [handleClean] up to their
    [await]. *)
Definition handle (ep : Endpoint) (b : Bench) : Bench :=
  match uploadedFile (files b) with
  | None => on_files (setError (Some "No file uploaded")) b
  | Some f =>
      call (mkRequest ep f)
        (on_files (fun s => setProgressLabel (busy_label ep) (setError None s))
           (setIsProcessing true b))
  end.

Definition handleAnalyze : Bench -> Bench := handle analyze.
Definition handleDetectPII : Bench -> Bench := handle detect_pii.
Definition handleClean : Bench -> Bench := handle clean.

Definition store (ep : Endpoint) (j : Json) (b : Bench) : Bench :=
  match ep with
  | analyze => setAnalyzeResult (Some j) b
  | clean => setCleanResult (Some j) b
  | detect_pii => setPIIDetectionResult (Some j) b
  end.

(** The rest of a handler once its wrapper has settled: the [try] after
    the [await], the [catch], the [finally]. *)
Definition resume (ep : Endpoint) (r : Result Json) (b : Bench) : Bench :=
  setIsProcessing false
    match r with
    | resolves j =>
        let b := on_files (setProgressLabel (done_label ep)) (store ep j b) in
        match ep with
        | analyze => navigate bias_analysis b   (* onAnalyze?.() *)
        | _ => b
        end
    | rejects err =>
        on_files (setError (Some (or_else (err_message err) (failure_text ep)))) b
    end.

Definition Request_eqb (a b : Request) : bool :=
  match endpoint a, endpoint b with
  | analyze, analyze | clean, clean | detect_pii, detect_pii =>
      File_eqb (upload a) (upload b)
  | _, _ => false
  end.

(** Take the oldest call in flight that is [r]. *)
Fixpoint take_call (r : Request) (cs : list Request) : option (list Request) :=
  match cs with
  | [] => None
  | c :: rest =>
      if Request_eqb r c then Some rest
      else match take_call r rest with
           | Some rest' => Some (c :: rest')
           | None => None
           end
  end.

Inductive Event :=
| upload_event (e : Intake.Event)   (* the file events of [Intake], the effect apart *)
| clickAnalyze
| clickDetectPII
| callSettled (r : Request) (net : Network)
| selectTab (t : TryTab).           (* the sidebar *)

(** The upload card, with Clear and the two action buttons, is rendered
    on the processing tab when there is metadata. *)
Definition card_shown (b : Bench) : bool :=
  TryTab_eqb (tab b) processing
  && match fileMeta (files b) with Some _ => true | None => false end.

(** The action buttons are [disabled] while [isProcessing]. *)
Definition button_enabled (b : Bench) : bool := card_shown b && negb (isProcessing b).

Definition lift (b : Bench) (e : Intake.Event) : option Bench :=
  match Intake.step (files b) e with
  | Some s => Some (on_files (fun _ => s) b)
  | None => None
  end.

(** One event.  [None]: the event cannot occur in this state. *)
Definition step (b : Bench) (ev : Event) : option Bench :=
  match ev with
  | upload_event mount => None
  | upload_event cleanup => None
  | upload_event (selectFile f) =>
      if TryTab_eqb (tab b) processing then lift b (selectFile f) else None
  | upload_event clickClear =>
      (* reset() also clears the PII result *)
      if card_shown b
      then option_map (setPIIDetectionResult None) (lift b clickClear)
      else None
  | upload_event clearDeleted =>
      option_map (fun b => setPIIDetectionResult None
                             (setCleanResult None (setAnalyzeResult None b)))
                 (lift b clearDeleted)
  | upload_event e => lift b e
  | clickAnalyze => if button_enabled b then Some (handleAnalyze b) else None
  | clickDetectPII => if button_enabled b then Some (handleDetectPII b) else None
  | callSettled r net =>
      match take_call r (calls b), post_file (endpoint r) net with
      | Some rest, Some result => Some (resume (endpoint r) result (setCalls rest b))
      | _, _ => None
      end
  | selectTab t => Some (navigate t b)
  end.

Fixpoint run (b : Bench) (evs : list Event) : option Bench :=
  match evs with
  | [] => Some b
  | ev :: rest =>
      match step b ev with
      | Some b' => run b' rest
      | None => None
      end
  end.

Definition reachable (b : Bench) : Prop := exists evs, run initial evs = Some b.

(** The files an event hands to the component. *)
Definition offered (ev : Event) : list File :=
  match ev with
  | upload_event (selectFile (Some f)) => [f]
  | upload_event (cacheLoaded (Some f) _) => [f]
  | _ => []
  end.

(** At most one call is in flight, [isProcessing] tells whether there is
    one, and it is one of the requests sent; no request goes to the
    clean endpoint. *)
Definition calls_ok (b : Bench) : Prop :=
  (if isProcessing b then exists r, calls b = [r] /\ In r (requests b)
   else calls b = []) /\
  Forall (fun r => endpoint r <> clean) (requests b).

(** The file the component holds, and the file of every request, is one
    of [known]. *)
Definition files_from (known : list File) (b : Bench) : Prop :=
  (forall f, uploadedFile (files b) = Some f -> In f known) /\
  (forall r, In r (requests b) -> In (upload r) known).

End Workbench.

(* ===================================================================== *)
(** ** The chat route handler [POST] *)
(* ===================================================================== *)

Module ChatRoute.
Import Js ChatApi.

(** The request body as [POST] reads it: [req.json()] rejects, or it
    gives a value whose [prompt] is a string or is not. *)
Inductive RequestBody :=
| request_invalid
| request_json (prompt : option string).

(** [typeof body?.prompt === 'string' ? body.prompt : ''], after
    [req.json().catch(() => ({}))]. *)
Definition prompt_of (req : RequestBody) : string :=
  match req with
  | request_json (Some s) => s
  | _ => EmptyString
  end.

(** A JSON value.  Of a number the handler only depends on whether it
    is zero; its digits are kept to tell numbers apart. *)
Local Unset Elimination Schemes.
Inductive JsonValue :=
| JNull
| JBool (b : bool)
| JNumber (zero : bool) (digits : string)
| JString (s : string)
| JArray (items : list JsonValue)
| JObject (fields : list (string * JsonValue)).
Local Set Elimination Schemes.

(** Whether a value is truthy: [null], [false], zero and the empty string
    are not. *)
Definition truthy_value (v : JsonValue) : bool :=
  match v with
  | JNull => false
  | JBool b => b
  | JNumber zero _ => negb zero
  | JString s => truthy s
  | JArray _ => true
  | JObject _ => true
  end.

(** [{ detail: msg }] *)
Definition detail_only (msg : string) : JsonValue := JObject [("detail", JString msg)].

(** [{ response: text }] *)
Definition response_only (text : string) : JsonValue :=
  JObject [("response", JString text)].

(** A reply: [NextResponse.json(body, { status })]. *)
Record Response := mkResponse { status : Z; body : JsonValue }.

(** What the upstream does with the request. *)
Inductive UpstreamBody :=
| text_arrives (text : string) (parse : option JsonValue)  (* [None]: JSON.parse throws *)
| text_fails (e : JsError)
| text_stalls.

Inductive Upstream :=
| upstream_fails (e : JsError)
| upstream_stalls
| upstream_responds (status : Z) (b : UpstreamBody).

(** The upstream is still awaited when the 120 s timer fires. *)
Definition upstream_timed_out (up : Upstream) : bool :=
  match up with
  | upstream_stalls => true
  | upstream_responds _ text_stalls => true
  | _ => false
  end.

Definition TIMED_OUT : string := "Request timed out – model may be overloaded.".

(** The messages of the errors the [Response] constructor throws. *)
Record Platform := mkPlatform { range_message : string; null_body_message : string }.

(** [NextResponse.json(body, { status })]: the status must be in 200..599
    and, as there is a body, not a null-body status. *)
Definition json_response (pf : Platform) (st : Z) (b : JsonValue) : Result Response :=
  if (st <? 200) || (599 <? st) then rejects (mkError "RangeError" (range_message pf))
  else if (st =? 204) || (st =? 205) || (st =? 304)
       then rejects (mkError "TypeError" (null_body_message pf))
       else resolves (mkResponse st b).

(** The inner [try]. *)
Definition relay (pf : Platform) (up : Upstream) : Result Response :=
  match up with
  | upstream_fails e => rejects e
  | upstream_stalls => rejects AbortError
  | upstream_responds st b =>
      match b with
      | text_arrives text parse =>
          let json := match parse with
                      | Some v => v
                      | None => response_only text
                      end in
          if res_ok st then resolves (mkResponse 200 json)
          else json_response pf st
                 (if truthy_value json then json else detail_only "Chat failed")
      | text_fails e => rejects e
      | text_stalls => rejects AbortError
      end
  end.

(** One request, observed from outside: the reply, whether the upstream
    was called, whether [controller.abort()] ran, and whether the
    [finally] block cleared the timer. *)
Record Handled := mkHandled {
  reply : Response;
  called_upstream : bool;
  abort_ran : bool;
  cleared_timer : bool
}.

Definition POST (pf : Platform) (req : RequestBody) (up : Upstream) : Handled :=
  let prompt := prompt_of req in
  if is_empty (trim prompt) then
    mkHandled (mkResponse 400 (detail_only "Missing prompt")) false false false
  else
    let r := match relay pf up with
             | resolves r => r
             | rejects err =>
                 let msg := if String.eqb (err_name err) "AbortError"
                            then TIMED_OUT
                            else or_else (err_message err) "Unexpected error" in
                 mkResponse 500 (detail_only msg)
             end in
    mkHandled r true (upstream_timed_out up) true.

End ChatRoute.

(* ===================================================================== *)
(** ** More concrete inputs *)
(* ===================================================================== *)

Module Examples.
Import Js.

(** A header line and one row. *)
Definition two_lines : string := "x,y" ++ nl ++ "1,2".

(** The same with blanks around the cells. *)
Definition padded_table : string := " name , age " ++ nl ++ " Ann , 41 ".

(** A small text file that is not named as CSV, and its content. *)
Definition notes : Intake.File := Intake.mkFile "notes.txt" 2048 "text/plain" true.

(** A large file without [stream]. *)
Definition archive : Intake.File := Intake.mkFile "big.csv" 5000000 "text/csv" false.

(** What the cache holds of an earlier upload. *)
Definition cached_meta : Intake.UploadedFileMeta :=
  Intake.mkMeta "old.csv" 10 "text/csv" "x,y".

(** The user uploads the notes after the cache has answered. *)
Definition upload_notes : list Intake.Event :=
  [Intake.mount; Intake.cacheLoaded None (Some cached_meta);
   Intake.selectFile (Some notes);
   Intake.smallOnload notes (Some two_lines); Intake.smallSaved notes].


(** A reply with an analysis report. *)
Definition report : ChatApi.Json := ChatApi.mkJson None None "{}".
Definition report_arrives : ChatApi.Network :=
  ChatApi.net_responds 200 (ChatApi.body_json report).

(** The panel after a question that got its answer. *)
Definition answered : list Chatbot.Event :=
  [Chatbot.typeInput "hi"; Chatbot.submit;
   Chatbot.primarySettled (Scenario.reply "Hello")].

(** The notes are on the bench, read and saved. *)
Definition notes_on_bench : list Workbench.Event :=
  [Workbench.upload_event (Intake.selectFile (Some notes));
   Workbench.upload_event (Intake.smallOnload notes (Some two_lines));
   Workbench.upload_event (Intake.smallSaved notes)].

(** The cache gives metadata back, and no file. *)
Definition restored_without_file : list Workbench.Event :=
  [Workbench.upload_event (Intake.cacheLoaded None (Some cached_meta))].

Definition platform : ChatRoute.Platform :=
  ChatRoute.mkPlatform "init.status must be in the range of 200 to 599"
                       "Invalid response status code".

End Examples.

(* ===================================================================== *)
(** * Properties *)
(* ===================================================================== *)

(** Replay one event of a trace or run with the equation of its step. *)
Ltac play H := cbn [Chatbot.trace Chatbot.run]; rewrite H.

(** ** Strings and slices *)

Section JsFacts.
Import Js.

Lemma trimEnd_all_ws (s : string) : all_ws s = true -> trimEnd s = EmptyString.
Proof.
  induction s as [|c r IH]; simpl; [reflexivity|].
  intros H. apply andb_prop in H as [Hc Hr].
  rewrite (IH Hr), Hc. reflexivity.
Qed.

Lemma trimStart_all_ws (s : string) : all_ws s = true -> trimStart s = EmptyString.
Proof.
  induction s as [|c r IH]; simpl; [reflexivity|].
  intros H. apply andb_prop in H as [Hc Hr].
  rewrite Hc. exact (IH Hr).
Qed.

Lemma trim_all_ws (s : string) : all_ws s = true -> trim s = EmptyString.
Proof. intros H. unfold trim. rewrite (trimStart_all_ws s H). reflexivity. Qed.

Lemma trimEnd_empty_all_ws (s : string) : trimEnd s = EmptyString -> all_ws s = true.
Proof.
  induction s as [|c r IH]; simpl; [reflexivity|].
  destruct (is_ws c); simpl; [|discriminate].
  destruct (trimEnd r) eqn:E; simpl; [|discriminate].
  intros _. apply IH. reflexivity.
Qed.

Lemma trimStart_keeps_all_ws (s : string) : all_ws (trimStart s) = all_ws s.
Proof.
  induction s as [|c r IH]; simpl; [reflexivity|].
  destruct (is_ws c) eqn:E; simpl; [exact IH|].
  rewrite E. reflexivity.
Qed.

(** [s.trim()] is empty exactly when [s] is white space only. *)
Lemma trim_empty_iff (s : string) : is_empty (trim s) = all_ws s.
Proof.
  destruct (all_ws s) eqn:E.
  - rewrite (trim_all_ws s E). reflexivity.
  - destruct (trim s) eqn:T; [|reflexivity].
    unfold trim in T. apply trimEnd_empty_all_ws in T.
    rewrite trimStart_keeps_all_ws in T. congruence.
Qed.

Lemma length_pos_not_empty (s : string) :
  (0 <? String.length s)%nat = negb (is_empty s).
Proof. destruct s; reflexivity. Qed.

Lemma slice0_firstn {A} (l : list A) (e : Z) :
  0 <= e -> slice0 l e = firstn (Z.to_nat e) l.
Proof.
  intros He. unfold slice0.
  destruct (Z.ltb_spec e 0) as [Hneg|_]; [lia|].
  destruct (Z.le_ge_cases e (Z.of_nat (length l))) as [Hle|Hge].
  - rewrite Z.min_l by exact Hle. reflexivity.
  - rewrite Z.min_r by exact Hge. rewrite Nat2Z.id.
    rewrite firstn_all. symmetry. apply firstn_all2. lia.
Qed.

Lemma slice0_length {A} (l : list A) (e : Z) :
  0 <= e -> length (slice0 l e) = Nat.min (Z.to_nat e) (length l).
Proof. intros He. rewrite slice0_firstn by exact He. apply length_firstn. Qed.

End JsFacts.

(** ** The tabular preview parser *)

Section CsvFacts.
Import Js Csv.

(** The filter of [tryParseCSV] keeps the lines that are not white
    space only. *)
Lemma nonblank_lines_spec (text : string) :
  nonblank_lines text = filter spec_nonblank (split_lines text).
Proof.
  unfold nonblank_lines. apply filter_ext. intros l.
  rewrite length_pos_not_empty, trim_empty_iff. reflexivity.
Qed.

Lemma commaDensity_spec (text : string) :
  commaDensity (nonblank_lines text) = spec_comma_lines_in_first_10 text.
Proof.
  unfold commaDensity, spec_comma_lines_in_first_10.
  rewrite nonblank_lines_spec, slice0_firstn by lia. reflexivity.
Qed.

(** What a successful parse returns, in terms of the retained lines. *)
Lemma tryParseCSV_some (text : string) (maxRows maxCols : Z) (t : TablePreviewData) :
  tryParseCSV text maxRows maxCols = Some t ->
  exists first others,
    slice0 (nonblank_lines text) maxRows = first :: others /\
    let colCount := Z.min (Z.of_nat (length (parseLine first))) maxCols in
    headers t = slice0 (parseLine first) colCount /\
    rows t = map (fun l => slice0 (parseLine l) colCount) others.
Proof.
  unfold tryParseCSV.
  destruct (length (nonblank_lines text) <? 2)%nat; [discriminate|].
  destruct (commaDensity (nonblank_lines text) <? 2)%nat; [discriminate|].
  destruct (slice0 (nonblank_lines text) maxRows) as [|first others]; simpl;
    [discriminate|].
  intros H. injection H as <-. simpl.
  exists first, others. rewrite map_map. auto.
Qed.

(** C3, as stated, fails: a data line with fewer fields than the header
    line gives a row shorter than [headers]. *)
Lemma C3_short_row_counterexample :
  exists t, tryParseCSV_default ("a,b,c" ++ nl ++ "1,2") = Some t /\
            length (headers t) = 3%nat /\
            exists r, In r (rows t) /\ length r = 2%nat /\
                      length r <> length (headers t).
Proof.
  eexists. split; [reflexivity|]. split; [reflexivity|].
  exists ["1"; "2"]. split; [left; reflexivity|].
  split; [reflexivity|]. simpl. discriminate.
Qed.

(** C3 (amended): in every table the parser returns for a non-negative
    column cap (each call site uses the default 40), the header has at
    most [maxCols] columns and each row is the list of fields of its
    line cut to the header's width, so [rows[i].length <= headers.length]
    for every row; a line with fewer fields gives a shorter row. *)
Theorem C3_rows_within_header_width
        (text : string) (maxRows maxCols : Z) (t : TablePreviewData) :
  0 <= maxCols ->
  tryParseCSV text maxRows maxCols = Some t ->
  Z.of_nat (length (headers t)) <= maxCols /\
  Forall (fun r => (length r <= length (headers t))%nat) (rows t) /\
  rows t = map (fun l => firstn (length (headers t)) (parseLine l))
               (tl (slice0 (nonblank_lines text) maxRows)).
Proof.
  intros Hcols Hsome.
  destruct (tryParseCSV_some _ _ _ _ Hsome) as (first & others & Hs & Hh & Hr).
  cbv zeta in Hh, Hr.
  set (colCount := Z.min (Z.of_nat (length (parseLine first))) maxCols) in *.
  assert (H0 : 0 <= colCount) by (unfold colCount; lia).
  assert (Hlen : length (headers t) = Z.to_nat colCount).
  { rewrite Hh, slice0_length by exact H0. unfold colCount. lia. }
  split; [rewrite Hlen; unfold colCount; lia|].
  assert (Hrows : rows t = map (fun l => firstn (length (headers t)) (parseLine l)) others).
  { rewrite Hr, Hlen. apply map_ext. intros l. apply slice0_firstn. exact H0. }
  split.
  - rewrite Hrows. apply Forall_forall. intros r Hin.
    apply in_map_iff in Hin as (l & <- & _).
    rewrite length_firstn. lia.
  - rewrite Hs. exact Hrows.
Qed.

Lemma C3_rows_within_header_width_witness :
  exists t, tryParseCSV ("a,b,c" ++ nl ++ "1,2") 50 40 = Some t /\
    (Z.of_nat (length (headers t)) <= 40 /\
     Forall (fun r => (length r <= length (headers t))%nat) (rows t) /\
     rows t = map (fun l => firstn (length (headers t)) (parseLine l))
                  (tl (slice0 (nonblank_lines ("a,b,c" ++ nl ++ "1,2")) 50))).
Proof.
  eexists. split; [reflexivity|].
  apply (C3_rows_within_header_width ("a,b,c" ++ nl ++ "1,2") 50 40); [lia|reflexivity].
Defined.

(** C6: the three vectors of the specification.  A quoted field keeps
    its comma and loses its quotes; a doubled quote inside a quoted
    field is one literal quote. *)
Theorem C6_round_trip_vectors :
  tryParseCSV_default ("a,b" ++ nl ++ "1,2" ++ nl ++ "3,4")
    = Some (mkTable ["a"; "b"] [["1"; "2"]; ["3"; "4"]] csv)
  /\ tryParseCSV_default ("a,b" ++ nl ++ dq ++ "1,1" ++ dq ++ ",2")
     = Some (mkTable ["a"; "b"] [["1,1"; "2"]] csv)
  /\ parseLine (dq ++ "He said " ++ dq ++ dq ++ "hi" ++ dq ++ dq ++ dq)
     = ["He said " ++ dq ++ "hi" ++ dq]
  /\ tryParseCSV_default
       ("quote,n" ++ nl ++ dq ++ "He said " ++ dq ++ dq ++ "hi" ++ dq ++ dq ++ dq ++ ",1")
     = Some (mkTable ["quote"; "n"] [["He said " ++ dq ++ "hi" ++ dq; "1"]] csv).
Proof. repeat split; reflexivity. Qed.

(** C7: a text with fewer than two non-blank lines, or in which fewer
    than two of the first ten non-blank lines contain a comma, is not
    tabular: [tryParseCSV] returns null, whatever the limits.  (Lines
    are the non-blank lines the parser retains, as in the algorithm of
    the specification; a blank line holds no comma.) *)
Theorem C7_not_tabular (text : string) (maxRows maxCols : Z) :
  (spec_nonblank_line_count text < 2)%nat \/
  (spec_comma_lines_in_first_10 text < 2)%nat ->
  tryParseCSV text maxRows maxCols = None.
Proof.
  intros H. unfold tryParseCSV.
  destruct (Nat.ltb_spec (length (nonblank_lines text)) 2) as [_|Hlen];
    [reflexivity|].
  destruct (Nat.ltb_spec (commaDensity (nonblank_lines text)) 2) as [_|Hdens];
    [reflexivity|].
  rewrite commaDensity_spec in Hdens.
  rewrite nonblank_lines_spec in Hlen. unfold spec_nonblank_line_count in H.
  lia.
Qed.

Lemma C7_not_tabular_witness :
  ((spec_nonblank_line_count ("a,b" ++ nl ++ "  " ++ nl) < 2)%nat \/
   (spec_comma_lines_in_first_10 ("a,b" ++ nl ++ "  " ++ nl) < 2)%nat) /\
  tryParseCSV ("a,b" ++ nl ++ "  " ++ nl) 50 40 = None.
Proof.
  assert (H : (spec_nonblank_line_count ("a,b" ++ nl ++ "  " ++ nl) < 2)%nat)
    by (vm_compute; lia).
  split; [left; exact H|].
  apply (C7_not_tabular ("a,b" ++ nl ++ "  " ++ nl) 50 40). left. exact H.
Defined.

End CsvFacts.

(** ** Doubles *)

Section DoubleFacts.
Import QArith Qround Qpower Lqa Double.
Local Open Scope Q_scope.

Lemma pow2_pos (k : Z) : 0 < pow2 k.
Proof. apply Qpower_0_lt. reflexivity. Qed.

Lemma pow2_plus (a b : Z) : pow2 (a + b) == pow2 a * pow2 b.
Proof. apply Qpower_plus. discriminate. Qed.


Lemma pow2_lt_inv (a b : Z) : pow2 a < pow2 b -> (a < b)%Z.
Proof. intros H. apply (Qpower_lt_compat_l_inv 2); [exact H|reflexivity]. Qed.

Lemma pow2_Z (n : Z) : (0 <= n)%Z -> pow2 n == inject_Z (2 ^ n).
Proof. intros H. unfold pow2. rewrite Zpower_Qpower by exact H. reflexivity. Qed.

Lemma pow2_cancel (a : Z) : pow2 a * pow2 (- a) == 1.
Proof. rewrite <- pow2_plus, Z.add_opp_diag_r. reflexivity. Qed.

Lemma nearest_even_near (x : Q) :
  x - (1 # 2) <= inject_Z (nearest_even x) <= x + (1 # 2).
Proof.
  unfold nearest_even.
  pose proof (Qfloor_le x) as H1. pose proof (Qlt_floor x) as H2.
  rewrite inject_Z_plus in H2. change (inject_Z 1) with 1 in H2.
  destruct (Qcompare (x - inject_Z (Qfloor x)) (1 # 2)) eqn:E.
  - apply Qeq_alt in E. destruct (Z.even (Qfloor x)).
    + lra.
    + rewrite inject_Z_plus. change (inject_Z 1) with 1. lra.
  - apply Qlt_alt in E. lra.
  - apply Qgt_alt in E. rewrite inject_Z_plus. change (inject_Z 1) with 1. lra.
Qed.

Lemma inject_Z_le_inv (a b : Z) : inject_Z a <= inject_Z b -> (a <= b)%Z.
Proof. intros H. rewrite Zle_Qle. exact H. Qed.

Lemma nearest_even_mono (x y : Q) : x <= y -> (nearest_even x <= nearest_even y)%Z.
Proof.
  intros Hxy. pose proof (Qfloor_resp_le x y Hxy) as Hf.
  pose proof (Qfloor_le x) as Hx1. pose proof (Qlt_floor x) as Hx2.
  pose proof (Qfloor_le y) as Hy1. pose proof (Qlt_floor y) as Hy2.
  rewrite inject_Z_plus in Hx2, Hy2. change (inject_Z 1) with 1 in Hx2, Hy2.
  assert (Hlow : forall z, (Qfloor z <= nearest_even z <= Qfloor z + 1)%Z).
  { intros z. unfold nearest_even.
    destruct (Qcompare (z - inject_Z (Qfloor z)) (1 # 2)); [destruct (Z.even (Qfloor z))| |]; lia. }
  destruct (Z.eq_dec (Qfloor x) (Qfloor y)) as [Heq|Hne].
  - unfold nearest_even. rewrite <- Heq.
    destruct (Qcompare_spec (x - inject_Z (Qfloor x)) (1 # 2)) as [Ex|Ex|Ex];
      destruct (Qcompare_spec (y - inject_Z (Qfloor x)) (1 # 2)) as [Ey|Ey|Ey];
      try (destruct (Z.even (Qfloor x))); try lia; exfalso; lra.
  - pose proof (Hlow x). pose proof (Hlow y). lia.
Qed.

Lemma nearest_even_comp (x y : Q) : x == y -> nearest_even x = nearest_even y.
Proof.
  intros H. apply Z.le_antisymm; apply nearest_even_mono; rewrite H; apply Qle_refl.
Qed.

Lemma nearest_even_Z (z : Z) : nearest_even (inject_Z z) = z.
Proof.
  unfold nearest_even. rewrite Qfloor_Z.
  destruct (Qcompare_spec (inject_Z z - inject_Z z) (1 # 2)) as [E|E|E];
    [exfalso; lra|reflexivity|exfalso; lra].
Qed.

Lemma binade_spec (x : Q) : 0 < x -> pow2 (binade x) <= x < pow2 (binade x + 1).
Proof.
  intros Hx. destruct x as [n d].
  assert (Hn : (0 < n)%Z).
  { unfold Qlt in Hx. simpl in Hx. lia. }
  unfold binade. cbn [Qnum Qden].
  set (a := Z.log2 n). set (b := Z.log2 (Zpos d)).
  assert (Ha : (2 ^ a <= n < 2 ^ (a + 1))%Z).
  { unfold a. pose proof (Z.log2_spec n Hn). rewrite <- Z.add_1_r in H. exact H. }
  assert (Hb : (2 ^ b <= Zpos d < 2 ^ (b + 1))%Z).
  { unfold b. pose proof (Z.log2_spec (Zpos d) ltac:(lia)).
    rewrite <- Z.add_1_r in H. exact H. }
  assert (Ha0 : (0 <= a)%Z) by apply Z.log2_nonneg.
  assert (Hb0 : (0 <= b)%Z) by apply Z.log2_nonneg.
  (* the quotient as a product *)
  assert (Hq : n # d == inject_Z n * / inject_Z (Zpos d)).
  { rewrite (Qmake_Qdiv n d). reflexivity. }
  assert (Hd : 0 < inject_Z (Zpos d)) by reflexivity.
  assert (HA : pow2 a <= inject_Z n < pow2 (a + 1)).
  { rewrite !pow2_Z by lia. rewrite <- Zle_Qle, <- Zlt_Qlt. exact Ha. }
  assert (HB : pow2 b <= inject_Z (Zpos d) < pow2 (b + 1)).
  { rewrite !pow2_Z by lia. rewrite <- Zle_Qle, <- Zlt_Qlt. exact Hb. }
  assert (Hmul : forall e, pow2 e * inject_Z (Zpos d) <= inject_Z n <-> pow2 e <= n # d).
  { intros e. rewrite Hq. split; intros H.
    - apply Qle_shift_div_l; assumption.
    - apply (Qmult_le_r _ _ (/ inject_Z (Zpos d))).
      + apply Qinv_lt_0_compat. exact Hd.
      + rewrite <- Qmult_assoc, Qmult_inv_r, Qmult_1_r; [exact H|].
        intros E. rewrite E in Hd. discriminate. }
  assert (Hmul' : forall e, inject_Z n < pow2 e * inject_Z (Zpos d) <-> n # d < pow2 e).
  { intros e. rewrite Hq. split; intros H.
    - apply Qlt_shift_div_r; assumption.
    - apply (Qmult_lt_r _ _ (/ inject_Z (Zpos d))).
      + apply Qinv_lt_0_compat. exact Hd.
      + rewrite <- Qmult_assoc, Qmult_inv_r, Qmult_1_r; [exact H|].
        intros E. rewrite E in Hd. discriminate. }
  pose proof (pow2_pos (a - b)) as Hp.
  assert (E1 : pow2 (a - b + 1) * pow2 b == pow2 (a + 1)).
  { rewrite <- pow2_plus. replace (a - b + 1 + b)%Z with (a + 1)%Z by lia. reflexivity. }
  assert (E2 : pow2 (a - b - 1) * pow2 (b + 1) == pow2 a).
  { rewrite <- pow2_plus. replace (a - b - 1 + (b + 1))%Z with a by lia. reflexivity. }
  assert (E3 : pow2 (a - b - 1 + 1) == pow2 (a - b)).
  { replace (a - b - 1 + 1)%Z with (a - b)%Z by lia. reflexivity. }
  pose proof (pow2_pos (a - b + 1)) as Hp1.
  pose proof (pow2_pos (a - b - 1)) as Hp2.
  destruct (Qle_bool (pow2 (a - b)) (n # d)) eqn:E.
  - apply Qle_bool_iff in E. split; [exact E|].
    apply Hmul'. nra.
  - assert (Hlt : n # d < pow2 (a - b)).
    { apply Qnot_le_lt. intros H. apply Qle_bool_iff in H. congruence. }
    split; [|rewrite E3; exact Hlt].
    apply Hmul. nra.
Qed.



Lemma round53_pos (x : Q) :
  0 < x ->
  round53 x == inject_Z (nearest_even (x * pow2 (52 - binade x))) * pow2 (binade x - 52).
Proof.
  intros Hx. unfold round53.
  destruct (Qle_bool x 0) eqn:E.
  - apply Qle_bool_iff in E. exfalso. lra.
  - apply Qred_correct.
Qed.






Lemma round53_Z (z : Z) : (0 <= z < 2 ^ 53)%Z -> round53 (inject_Z z) == inject_Z z.
Proof.
  intros Hz. destruct (Z.eq_dec z 0) as [->|Hne]; [reflexivity|].
  assert (Hx : 0 < inject_Z z) by (change 0 with (inject_Z 0); rewrite <- Zlt_Qlt; lia).
  rewrite (round53_pos _ Hx).
  destruct (binade_spec _ Hx) as [H1 H2].
  set (e := binade (inject_Z z)) in *.
  assert (He : (0 <= e <= 52)%Z).
  { split.
    - assert (H : pow2 0 < pow2 (e + 1)).
      { apply Qle_lt_trans with (inject_Z z); [|exact H2].
        change (pow2 0) with (inject_Z 1). rewrite <- Zle_Qle. lia. }
      apply pow2_lt_inv in H. lia.
    - assert (H : pow2 e < pow2 53).
      { apply Qle_lt_trans with (inject_Z z); [exact H1|].
        rewrite (pow2_Z 53) by lia. rewrite <- Zlt_Qlt. lia. }
      apply pow2_lt_inv in H. lia. }
  assert (Hs : inject_Z z * pow2 (52 - e) == inject_Z (z * 2 ^ (52 - e))).
  { rewrite inject_Z_mult, pow2_Z by lia. reflexivity. }
  assert (Hn : nearest_even (inject_Z z * pow2 (52 - e)) = (z * 2 ^ (52 - e))%Z).
  { rewrite <- (nearest_even_Z (z * 2 ^ (52 - e))).
    apply nearest_even_comp. exact Hs. }
  rewrite Hn, inject_Z_mult, <- pow2_Z by lia.
  rewrite <- Qmult_assoc, <- pow2_plus.
  replace (52 - e + (e - 52))%Z with 0%Z by lia.
  change (pow2 0) with 1. ring.
Qed.

End DoubleFacts.

(** ** The percentage *)

Section PercentFacts.
Import QArith Qround Qpower Lqa Double Progress.









Lemma pct_zero_of_zero : pct 0 0 = nan.
Proof. reflexivity. Qed.

(** On all pairs of sizes up to 64 and on some large ones, [Double]
    computes the double that the Standard Library's specification of
    binary64 computes. *)
Lemma percent_agrees_with_binary64 :
  forallb (fun p => Binary64.agree (fst p) (snd p)) (Binary64.samples 64) = true.
Proof. vm_compute. reflexivity. Qed.

(** [Math.round((29 / 200) * 100)] is 14: the product is just below
    14.5 in doubles. *)
Example round_percent_29_of_200 : round_percent 29 200 = int 14.
Proof. vm_compute. reflexivity. Qed.

End PercentFacts.

(** ** Progress reports *)

Section ProgressFacts.
Import Double Progress.
Local Open Scope list_scope.

Lemma in_range_int (p : Integral) : in_range p -> exists z, p = int z /\ 0 <= z <= 100.
Proof. destruct p; cbn; try contradiction. eauto. Qed.






(** *** The streaming loop *)




(** *** The two [FileReader] strategies *)

Section Reader.
(** A handler that reports like [onprogress] on progress events, 0 on
    error, and nothing or 100 on load and on loadend. *)
Variable h : Integral -> ReaderEvent -> option Integral.
Hypothesis h_progress :
  forall p lc loaded total,
    h p (progress lc loaded total) = Some (onprogress p lc loaded total).
Hypothesis h_error : forall p, h p error = Some (int 0).
Hypothesis h_load : forall p, h p load = None \/ h p load = Some (int 100).
Hypothesis h_loadend : forall p, h p loadend = None \/ h p loadend = Some (int 100).






End Reader.











End ProgressFacts.

(** ** Upload intake *)

Section IntakeFacts.
Import Js Csv Intake Scenario.
Local Open Scope list_scope.

(** The mount effect guards its late result with its [ignore] flag: a
    cache load whose effect has been cleaned up changes nothing on
    arrival (it only leaves the set of work in flight). *)
Lemma cache_load_after_cleanup_is_noop
      (s : State) (rest : list Task)
      (file : option File) (meta : option UploadedFileMeta) :
  take is_cache_load (tasks s) = Some (CacheLoad true, rest) ->
  step s (cacheLoaded file meta) = Some (setTasks rest s).
Proof. intros H. simpl. rewrite H. destruct meta; reflexivity. Qed.

(** The head reader's callback keeps a cleared card cleared: while
    [fileMeta] is null it leaves it null, so nothing of the file card is
    rendered. *)
Lemma head_callback_keeps_cleared_card
      (s : State) (f : File) (decoded : option string) (s' : State) :
  fileMeta s = None ->
  step s (headOnload f decoded) = Some s' ->
  fileMeta s' = None /\ render s' = NoCard.
Proof.
  destruct s as [fm uf pr lb tp lc er ts cc lg]. simpl. intros ->.
  destruct (take (is_head f) ts) as [[t rest]|]; [|discriminate].
  destruct decoded as [text|]; intros H; injection H as <-; auto.
Qed.

(** *** The progress reports are the [setProgress] calls of [processFile] *)

Lemma File_eqb_refl (f : File) : File_eqb f f = true.
Proof.
  unfold File_eqb.
  rewrite !String.eqb_refl, Z.eqb_refl, Bool.eqb_reflx. reflexivity.
Qed.








(** It fails in a second way: a length-computable progress event of an
    empty file divides 0 by 0, and the handler passes NaN to
    [setProgress]. *)
Lemma empty_file_progress_is_NaN :
  upload_of (mkFile "empty.csv" 0 "text/csv" true)
            (Progress.Small 0 [Progress.progress true 0 0; Progress.load] true) = true /\
  Progress.events_ok
    (Progress.Small 0 [Progress.progress true 0 0; Progress.load] true) = true /\
  option_map progress_log
    (run initial
         (upload_events (mkFile "empty.csv" 0 "text/csv" true) (Some EmptyString)
            (Progress.Small 0 [Progress.progress true 0 0; Progress.load] true)))
  = Some [Double.int 0; Double.nan; Double.int 100].
Proof. split; [reflexivity|]. split; [reflexivity|]. vm_compute. reflexivity. Qed.



(** Without a newer selection the head callback refines the card of its
    own file. *)
Example head_callback_refines_own_card :
  option_map render (run initial [selectFile (Some fileA); headOnload fileA (Some headA)])
  = Some (TableCard "a.csv" 2097152 "text/csv" (mkTable ["x"; "y"] [["1"; "2"]] csv)).
Proof. reflexivity. Qed.

(** C2 fails on the code: [processFile] has no liveness check.  After
    select A, Clear, select B, the head callback of the superseded
    invocation for A is not a no-op: it writes A's text into the
    content preview of B's metadata and A's parse into the table
    preview, whatever A's decoded head is, and the card of b.csv then
    shows A's table. *)
Theorem C2_stale_head_callback_overwrites :
  (forall head : string,
      option_map uploadedFile (run initial (clear_then_reselect head))
      = Some (Some fileB) /\
      option_map fileMeta (run initial (clear_then_reselect head))
      = Some (Some (with_preview (placeholder fileB) (str_take 4000 head))) /\
      option_map tablePreview (run initial (clear_then_reselect head))
      = Some (tryParseCSV_default head)) /\
  option_map render (run initial (clear_then_reselect headA))
  = Some (TableCard "b.csv" 3000000 "text/csv" (mkTable ["x"; "y"] [["1"; "2"]] csv)).
Proof.
  split.
  - intros head. split; [reflexivity|]. split; reflexivity.
  - reflexivity.
Qed.

(** The streaming pass of the superseded invocation is not a no-op
    either: after Clear has reset the progress to 0, a late chunk of A
    moves it again. *)
Example stale_stream_chunk_moves_progress :
  option_map progress
    (run initial [selectFile (Some fileA); clickClear;
                  streamRead fileA (Progress.chunk (Some 1000000%N))])
  = Some (Double.int 48).
Proof. reflexivity. Qed.

End IntakeFacts.

(** ** [chatWithCopilot] *)

Section ChatApiFacts.
Import Js ChatApi Scenario.

(** When the 120 s timer fires while [fetch] is pending, or while the body
    of an ok reply is being read, the timer's [controller.abort()] aborts
    the request and [chatWithCopilot] rejects with a fresh [Error]
    carrying the timed-out message; its [finally] clears the timer. *)
Lemma timeout_while_fetching_or_reading_reply (prompt : string) (net : Network) :
  empty_prompt prompt = false ->
  net = net_stalls \/ (exists status, res_ok status = true /\
                                      net = net_responds status body_stalls) ->
  timed_out net = true /\
  fetched (chatWithCopilot prompt net) = true /\
  aborted (chatWithCopilot prompt net) = true /\
  settled (chatWithCopilot prompt net) = rejects (Error TIMED_OUT) /\
  timer_cleared (chatWithCopilot prompt net) = true.
Proof.
  intros Hp Hnet. unfold chatWithCopilot. rewrite Hp. simpl.
  destruct Hnet as [->|(status & Hok & ->)].
  - repeat split.
  - unfold settle. simpl. rewrite Hok. repeat split.
Qed.

(** The request is aborted whenever the timer fires before the call has
    settled, in every window. *)
Lemma hard_timeout_aborts_request (prompt : string) (net : Network) :
  empty_prompt prompt = false ->
  timed_out net = true ->
  fetched (chatWithCopilot prompt net) = true /\
  aborted (chatWithCopilot prompt net) = true.
Proof.
  intros Hp Ht. unfold chatWithCopilot. rewrite Hp. simpl. auto.
Qed.

(** C8 fails on the code in one window: the call is still in flight when
    the 120 s timer fires, but it is reading the error detail of a
    non-2xx reply; the abort rejection of that read is swallowed by the
    inner [catch], and the call rejects with the generic status error,
    not the timed-out one.  The request is aborted all the same. *)
Theorem C8_abort_while_reading_error_detail :
  timed_out stalled_500 = true /\
  aborted (chatWithCopilot "hi" stalled_500) = true /\
  settled (chatWithCopilot "hi" stalled_500) = rejects (Error "Chat failed (500)") /\
  settled (chatWithCopilot "hi" stalled_500) <> rejects (Error TIMED_OUT).
Proof. repeat split. discriminate. Qed.

End ChatApiFacts.

(** ** The chat panel *)

Section ChatbotFacts.
Import Js ChatApi Chatbot Scenario.
Local Open Scope list_scope.

Lemma trimEnd_ws_is_empty (s : string) :
  all_ws (trimEnd s) = true -> trimEnd s = EmptyString.
Proof.
  induction s as [|c r IH]; simpl; [reflexivity|].
  destruct (is_ws c && is_empty (trimEnd r)) eqn:E; [reflexivity|].
  simpl. intros H. apply andb_prop in H as [Hc Hr].
  rewrite (IH Hr), Hc in E. discriminate.
Qed.

(** A prompt that passes the check of [handleSubmit] passes the check of
    [chatWithCopilot]. *)
Lemma trimmed_prompt_not_empty (s : string) :
  all_ws s = false -> is_empty (trim s) = false /\ empty_prompt (trim s) = false.
Proof.
  intros H. assert (He : is_empty (trim s) = false)
    by (rewrite trim_empty_iff; exact H).
  split; [exact He|]. unfold empty_prompt. rewrite trim_empty_iff.
  destruct (all_ws (trim s)) eqn:E; [|reflexivity].
  unfold trim in E at 1. apply trimEnd_ws_is_empty in E.
  fold (trim s) in E. rewrite E in He. discriminate.
Qed.




Lemma no_pending_after_showResponse (text : string) (ms : list ChatMessage) :
  filter pending (showResponse text ms) = [].
Proof.
  unfold showResponse.
  induction ms as [|m rest IH]; simpl; [reflexivity|].
  destruct (pending m) eqn:E; simpl; rewrite ?E; exact IH.
Qed.

(** The delay timer and the abort timer are set in the same turn, so the
    delay timer fires first. *)
Lemma delay_timer_fires_first : errorDisplayDelayMs < timeoutMs.
Proof. reflexivity. Qed.

(** While a request is in flight, submitting the form changes nothing. *)
Lemma submit_while_loading_is_noop (p : Panel) :
  isLoading p = true -> step p submit = Some p.
Proof.
  intros H. simpl. unfold handleSubmit. rewrite H, orb_true_r. reflexivity.
Qed.

(** C9: submitting an empty or white-space-only prompt leaves the panel
    as it is: no message is appended and no request is sent; and
    [chatWithCopilot] itself rejects such a prompt before it fetches. *)
Theorem C9_blank_prompt_rejected (p : Panel) (net : Network) :
  all_ws (input p) = true ->
  step p submit = Some p /\
  (forall q, step p submit = Some q ->
             messages q = messages p /\ fetches q = fetches p) /\
  fetched (chatWithCopilot (input p) net) = false /\
  settled (chatWithCopilot (input p) net) = rejects (Error "Empty prompt").
Proof.
  intros H.
  assert (Hstep : step p submit = Some p).
  { simpl. unfold handleSubmit. rewrite (trim_all_ws _ H). reflexivity. }
  split; [exact Hstep|]. split.
  - intros q Hq. rewrite Hstep in Hq. injection Hq as <-. auto.
  - unfold chatWithCopilot, empty_prompt. rewrite (trim_all_ws _ H). auto.
Qed.

Lemma C9_blank_prompt_rejected_witness :
  all_ws (input (setInput "   " initial)) = true /\
  step (setInput "   " initial) submit = Some (setInput "   " initial) /\
  fetched (chatWithCopilot "   " offline) = false.
Proof.
  destruct (C9_blank_prompt_rejected (setInput "   " initial) offline eq_refl)
    as (Hstep & _ & Hfetch & _).
  split; [reflexivity|]. split; [exact Hstep|exact Hfetch].
Defined.

(** The steps of a request that has just been submitted. *)
Lemma step_submit_fresh (ms : list ChatMessage) (inp : string)
      (de : option string) (inv : option Invocation) (fs : list Fetch) :
  all_ws inp = false ->
  step (mkPanel ms inp false de inv fs) submit
  = Some (mkPanel (ms ++ [mkMessage user (trim inp) false false;
                          mkMessage assistant THINKING true false])
                  EmptyString true None
                  (Some (mkInvocation (trim inp) de false true true AwaitPrimary))
                  (fs ++ [primary_fetch (trim inp)])).
Proof.
  intros H. destruct (trimmed_prompt_not_empty inp H) as [H1 H2].
  simpl. unfold handleSubmit. simpl. rewrite H1, H2. reflexivity.
Qed.


Lemma step_primary_rejects (ms : list ChatMessage) (inp : string)
      (de seen : option string) (prompt : string) (fs : list Fetch)
      (net : Network) (e : JsError) :
  timed_out net = false ->
  settled (chatWithCopilot prompt net) = rejects e ->
  step (mkPanel ms inp true de
                (Some (mkInvocation prompt seen false true true AwaitPrimary)) fs)
       (primarySettled net)
  = Some (mkPanel ms inp true de
                  (Some (mkInvocation prompt seen false true false (AwaitFallback e)))
                  (fs ++ [fallback_fetch prompt])).
Proof. intros Ht H. simpl. rewrite Ht, H. reflexivity. Qed.

Lemma step_fallback_resolves (ms : list ChatMessage) (inp : string)
      (de seen : option string) (prompt : string) (fs : list Fetch)
      (canShow delay : bool) (e : JsError) (net : Network) (text : string) :
  fallback_arrives net = true ->
  fallback_text net = Some text ->
  step (mkPanel ms inp true de
                (Some (mkInvocation prompt seen canShow delay false (AwaitFallback e))) fs)
       (fallbackSettled net)
  = Some (mkPanel (showResponse text ms) inp false de
                  (Some (mkInvocation prompt seen canShow false false Returned)) fs).
Proof. intros Ha H. simpl. rewrite Ha, H. reflexivity. Qed.



Lemma step_fallback_rejects_early (ms : list ChatMessage) (inp : string)
      (de seen : option string) (prompt : string) (fs : list Fetch)
      (delay : bool) (e : JsError) (net : Network) :
  fallback_arrives net = true ->
  fallback_text net = None ->
  step (mkPanel ms inp true de
                (Some (mkInvocation prompt seen false delay false (AwaitFallback e))) fs)
       (fallbackSettled net)
  = Some (mkPanel ms inp false (Some (or_else (err_message e) "Unexpected error"))
                  (Some (mkInvocation prompt seen false false false Returned)) fs).
Proof. intros Ha H. simpl. rewrite Ha, H. reflexivity. Qed.

(** A request whose two attempts fail inside the delay window, from any
    state of the panel: the message is stored, the bubble stays pending,
    and no event of the request remains. *)
Lemma failure_inside_delay_window_is_not_shown
      (p : Panel) (net1 net2 : Network) (e : JsError) :
  isLoading p = false ->
  all_ws (input p) = false ->
  timed_out net1 = false ->
  settled (chatWithCopilot (trim (input p)) net1) = rejects e ->
  fallback_arrives net2 = true ->
  fallback_text net2 = None ->
  exists q,
    run p [submit; primarySettled net1; fallbackSettled net2] = Some q /\
    messages q = messages p ++ [mkMessage user (trim (input p)) false false;
                                mkMessage assistant THINKING true false] /\
    isLoading q = false /\
    delayedError q = Some (or_else (err_message e) "Unexpected error") /\
    step q delayElapsed = None /\
    (forall net, step q (primarySettled net) = None) /\
    (forall net, step q (fallbackSettled net) = None).
Proof.
  destruct p as [ms inp ld de inv fs].
  cbn [isLoading input messages]. intros -> Hinp Htime Hrej Harr Hfb.
  pose proof (step_submit_fresh ms inp de inv fs Hinp) as Hsub.
  set (sent := ms ++ [mkMessage user (trim inp) false false;
                      mkMessage assistant THINKING true false]) in *.
  pose proof (step_primary_rejects sent EmptyString None de (trim inp)
                (fs ++ [primary_fetch (trim inp)]) net1 e Htime Hrej) as Hstep1.
  pose proof (step_fallback_rejects_early sent EmptyString None de (trim inp)
                ((fs ++ [primary_fetch (trim inp)]) ++ [fallback_fetch (trim inp)])
                true e net2 Harr Hfb) as Hstep2.
  eexists. split; [play Hsub; play Hstep1; play Hstep2; reflexivity|].
  repeat split.
Qed.

(** The same failure after the delay timer has fired is written into the
    bubble: here the primary call ends by its 120 s timer. *)
Example failure_after_delay_is_shown :
  option_map messages
    (run initial [typeInput "hi"; submit; delayElapsed;
                  primarySettled net_stalls; fallbackSettled offline])
  = Some [mkMessage assistant GREETING false false;
          mkMessage user "hi" false false;
          mkMessage assistant TIMED_OUT false true].
Proof. reflexivity. Qed.

(** C1 fails on the code: when the primary and the fallback attempt both
    fail before the 4 s delay timer fires, the outer [catch] clears that
    timer and only stores the message with [setDelayedError]; nothing
    is written into the pending bubble.  The request has settled,
    [isLoading] is released, no timer is armed and no callback of the
    request is left to run: the bubble keeps its pending text. *)
Theorem C1_fast_failure_leaves_bubble_pending :
  exists q,
    run initial fast_failure = Some q /\
    messages q = [mkMessage assistant GREETING false false;
                  mkMessage user "hi" false false;
                  mkMessage assistant THINKING true false] /\
    isLoading q = false /\
    delayedError q = Some "Failed to fetch" /\
    option_map delayTimer (invocation q) = Some false /\
    option_map phase (invocation q) = Some Returned /\
    step q delayElapsed = None /\
    (forall net, step q (primarySettled net) = None) /\
    (forall net, step q (fallbackSettled net) = None).
Proof.
  eexists. split; [vm_compute; reflexivity|].
  repeat split.
Qed.

(** C10 fails on the code, by the same path: after a request that
    failed within the delay window its bubble is still pending while
    [isLoading] is released, so the next submission adds a second
    pending bubble. *)
Theorem C10_two_pending_bubbles :
  exists q,
    reachable q /\
    run initial fast_failure_then_resubmit = Some q /\
    pending_count q = 2%nat /\
    isLoading q = true.
Proof.
  eexists. split; [exists fast_failure_then_resubmit; vm_compute; reflexivity|].
  repeat split.
Qed.

End ChatbotFacts.

(* ===================================================================== *)
(** * Further properties of the code *)
(* ===================================================================== *)

(** ** The parser and its string primitives *)

Section ParserFacts.
Import Js Csv CsvText Examples.

Lemma str_app_nil_r (s : string) : s ++ EmptyString = s.
Proof. induction s as [|c r IH]; simpl; [reflexivity|rewrite IH; reflexivity]. Qed.

Lemma str_app_assoc (a b c : string) : (a ++ b) ++ c = a ++ (b ++ c).
Proof. induction a as [|x r IH]; simpl; [reflexivity|rewrite IH; reflexivity]. Qed.

(** *** Quoted fields *)

Lemma loop_reads_quoted (f rest cur : string) (out : list string) :
  (forall r, rest <> String QUOTE r) ->
  parseLine_loop (escape_quotes f ++ dq ++ rest) cur true out
  = parseLine_loop rest (cur ++ f) false out.
Proof.
  intros Hrest. revert cur. induction f as [|c r IH]; intros cur.
  - rewrite str_app_nil_r. simpl.
    destruct rest as [|c2 rest']; [reflexivity|].
    destruct (Ascii.eqb_spec c2 QUOTE) as [->|_]; [|reflexivity].
    exfalso. exact (Hrest rest' eq_refl).
  - simpl escape_quotes. destruct (Ascii.eqb_spec c QUOTE) as [->|Hc].
    + cbn [append parseLine_loop]. rewrite Ascii.eqb_refl. cbn [andb].
      rewrite IH, str_app_assoc. reflexivity.
    + cbn [append parseLine_loop].
      destruct (Ascii.eqb c QUOTE) eqn:E;
        [apply Ascii.eqb_eq in E; contradiction|].
      rewrite andb_false_r. rewrite IH, str_app_assoc. reflexivity.
Qed.
Lemma loop_opens_quote (s cur : string) (out : list string) :
  parseLine_loop (String QUOTE s) cur false out = parseLine_loop s cur true out.
Proof. cbn [parseLine_loop]. rewrite Ascii.eqb_refl. destruct s; reflexivity. Qed.

Lemma loop_comma (s cur : string) (out : list string) :
  parseLine_loop (String COMMA s) cur false out
  = parseLine_loop s EmptyString false (out ++ [cur])%list.
Proof. reflexivity. Qed.

Lemma encode_line_cons (f g : string) (rest : list string) :
  encode_line (f :: g :: rest)
  = String QUOTE (escape_quotes f ++ dq ++ String COMMA (encode_line (g :: rest))).
Proof.
  unfold encode_line. cbn [map String.concat]. unfold quote_field at 1.
  unfold dq at 1. cbn [append]. rewrite str_app_assoc. reflexivity.
Qed.

Lemma encode_line_one (f : string) :
  encode_line [f] = String QUOTE (escape_quotes f ++ dq ++ EmptyString).
Proof. unfold encode_line. cbn [map String.concat]. unfold quote_field at 1.
  unfold dq at 1. cbn [append]. rewrite str_app_nil_r. reflexivity. Qed.

Lemma loop_reads_encoded (fields : list string) :
  forall f out,
    parseLine_loop (encode_line (f :: fields)) EmptyString false out
    = (out ++ f :: fields)%list.
Proof.
  induction fields as [|g rest IH]; intros f out.
  - rewrite encode_line_one, loop_opens_quote.
    rewrite loop_reads_quoted by discriminate. reflexivity.
  - rewrite encode_line_cons, loop_opens_quote.
    rewrite loop_reads_quoted by discriminate.
    rewrite loop_comma, IH, <- app_assoc. reflexivity.
Qed.

(** A line written as quoted fields separated by commas, with every quote
    inside a field doubled, is read back by [parseLine] as the fields
    themselves, trimmed: commas and quotes inside a field survive. *)
Theorem quoted_line_round_trip (fields : list string) :
  fields <> [] ->
  parseLine (encode_line fields) = map trim fields.
Proof.
  intros Hne. destruct fields as [|f rest]; [contradiction|].
  unfold parseLine. rewrite loop_reads_encoded. reflexivity.
Qed.

Lemma quoted_line_round_trip_witness :
  ["a,b"; " c "; EmptyString] <> [] /\
  parseLine (encode_line ["a,b"; " c "; EmptyString]) = ["a,b"; "c"; EmptyString].
Proof.
  split; [discriminate|].
  exact (quoted_line_round_trip ["a,b"; " c "; EmptyString] ltac:(discriminate)).
Defined.

(** *** Lines *)

Lemma split_lines_not_nil (s : string) : split_lines s <> [].
Proof.
  induction s as [|c r IH]; simpl; [discriminate|].
  destruct (Ascii.eqb c LF); [discriminate|].
  assert (H : push_char c (split_lines r) <> [])
    by (destruct (split_lines r); discriminate).
  destruct (Ascii.eqb c CR); [|exact H].
  destruct r as [|c2 r2]; [exact H|].
  destruct (Ascii.eqb c2 LF); [discriminate|exact H].
Qed.

Lemma concat_push_char (sep : string) (c : ascii) (ls : list string) :
  ls <> [] -> String.concat sep (push_char c ls) = String c (String.concat sep ls).
Proof.
  destruct ls as [|l [|l' rest]]; [contradiction| |]; reflexivity.
Qed.

Lemma concat_cons_nil (sep : string) (ls : list string) :
  ls <> [] -> String.concat sep (EmptyString :: ls) = sep ++ String.concat sep ls.
Proof. destruct ls; [contradiction|reflexivity]. Qed.

Lemma join_split_lines (s : string) :
  includes CR s = false -> String.concat nl (split_lines s) = s.
Proof.
  induction s as [|c r IH]; [reflexivity|].
  cbn [includes]. intros H. apply orb_false_elim in H as [Hc Hr].
  specialize (IH Hr). cbn [split_lines].
  destruct (Ascii.eqb c LF) eqn:E.
  - apply Ascii.eqb_eq in E. subst c.
    rewrite concat_cons_nil by apply split_lines_not_nil.
    rewrite IH. reflexivity.
  - rewrite Hc. rewrite concat_push_char by apply split_lines_not_nil.
    rewrite IH. reflexivity.
Qed.

Lemma split_one_line (l : string) :
  one_line l ->
  split_lines l = [l] /\
  forall t, split_lines (l ++ String LF t) = l :: split_lines t.
Proof.
  unfold one_line. induction l as [|c r IH]; intros [Hlf Hcr].
  - split; [reflexivity|]. intros t. reflexivity.
  - cbn [includes] in Hlf, Hcr.
    apply orb_false_elim in Hlf as [Hc1 Hlf].
    apply orb_false_elim in Hcr as [Hc2 Hcr].
    destruct (IH (conj Hlf Hcr)) as [IH1 IH2].
    split.
    + cbn [split_lines]. rewrite Hc1, Hc2, IH1. reflexivity.
    + intros t. cbn [append split_lines]. rewrite Hc1, Hc2, IH2. reflexivity.
Qed.

(** Lines without line feed and carriage return, joined by line feeds,
    are split back into the same lines. *)
Theorem split_join_lines (lines : list string) :
  lines <> [] -> Forall one_line lines ->
  split_lines (String.concat nl lines) = lines.
Proof.
  induction lines as [|l rest IH]; [contradiction|].
  intros _ Hall. inversion Hall as [|x xs Hl Hrest]; subst.
  destruct rest as [|l' rest'].
  - cbn [String.concat]. apply (split_one_line l Hl).
  - cbn [String.concat]. unfold nl at 1. cbn [append].
    destruct (split_one_line l Hl) as [_ H]. rewrite H.
    f_equal. apply IH; [discriminate|exact Hrest].
Qed.

Lemma split_join_lines_witness :
  ["x,y"; "1,2"] <> [] /\ Forall one_line ["x,y"; "1,2"] /\
  split_lines (String.concat nl ["x,y"; "1,2"]) = ["x,y"; "1,2"].
Proof.
  assert (H : Forall one_line ["x,y"; "1,2"]) by (repeat constructor).
  split; [discriminate|]. split; [exact H|].
  exact (split_join_lines ["x,y"; "1,2"] ltac:(discriminate) H).
Defined.

Lemma split_lines_no_LF (s : string) :
  Forall (fun l => includes LF l = false) (split_lines s).
Proof.
  assert (Hpush : forall c ls, Ascii.eqb c LF = false ->
            Forall (fun l => includes LF l = false) ls ->
            Forall (fun l => includes LF l = false) (push_char c ls)).
  { intros c ls Hc Hls. destruct ls as [|l rest]; simpl.
    - repeat constructor. simpl. rewrite Hc. reflexivity.
    - inversion Hls; subst. constructor; [|assumption].
      simpl. rewrite Hc. assumption. }
  induction s as [s IH] using (well_founded_induction
    (Wf_nat.well_founded_ltof _ String.length)).
  destruct s as [|c r]; [repeat constructor|].
  cbn [split_lines].
  assert (IHr : Forall (fun l => includes LF l = false) (split_lines r))
    by (apply IH; unfold Wf_nat.ltof; simpl; lia).
  destruct (Ascii.eqb c LF) eqn:E; [constructor; [reflexivity|exact IHr]|].
  destruct (Ascii.eqb c CR); [|apply Hpush; assumption].
  destruct r as [|c2 r2]; [apply Hpush; assumption|].
  destruct (Ascii.eqb c2 LF); [|apply Hpush; assumption].
  constructor; [reflexivity|].
  apply IH. unfold Wf_nat.ltof. simpl. lia.
Qed.

(** [text.split(/\r?\n/)] on a text without carriage returns: no piece
    holds a line feed, and the pieces joined by line feeds give the text
    back. *)
Theorem split_lines_then_join (s : string) :
  includes CR s = false ->
  Forall (fun l => includes LF l = false) (split_lines s) /\
  String.concat nl (split_lines s) = s.
Proof. intros H. split; [apply split_lines_no_LF|exact (join_split_lines s H)]. Qed.

Lemma split_lines_then_join_witness :
  includes CR two_lines = false /\
  Forall (fun l => includes LF l = false) (split_lines two_lines) /\
  String.concat nl (split_lines two_lines) = two_lines.
Proof. split; [reflexivity|exact (split_lines_then_join two_lines eq_refl)]. Defined.

Lemma split_lines_crlf (s : string) :
  includes CR s = false -> split_lines (to_crlf s) = split_lines s.
Proof.
  induction s as [|c r IH]; [reflexivity|].
  cbn [includes]. intros H. apply orb_false_elim in H as [Hc Hr].
  specialize (IH Hr). cbn [to_crlf split_lines].
  destruct (Ascii.eqb c LF) eqn:E.
  - cbn [split_lines]. rewrite IH. reflexivity.
  - cbn [split_lines]. rewrite E, Hc, IH. reflexivity.
Qed.

(** [tryParseCSV] gives the same table for a text with LF line ends and
    for the same text with CR LF line ends, for every limit. *)
Theorem crlf_text_parses_alike (text : string) (maxRows maxCols : Z) :
  includes CR text = false ->
  tryParseCSV (to_crlf text) maxRows maxCols = tryParseCSV text maxRows maxCols.
Proof.
  intros H. unfold tryParseCSV, nonblank_lines.
  rewrite (split_lines_crlf text H). reflexivity.
Qed.

Lemma crlf_text_parses_alike_witness :
  includes CR two_lines = false /\
  tryParseCSV (to_crlf two_lines) 50 40 = tryParseCSV two_lines 50 40.
Proof. split; [reflexivity|exact (crlf_text_parses_alike two_lines 50 40 eq_refl)]. Defined.

(** *** Trimming *)

Lemma trimEnd_idempotent (s : string) : trimEnd (trimEnd s) = trimEnd s.
Proof.
  induction s as [|c r IH]; [reflexivity|].
  cbn [trimEnd]. destruct (is_ws c && is_empty (trimEnd r)) eqn:E; [reflexivity|].
  cbn [trimEnd]. rewrite IH, E. reflexivity.
Qed.

Lemma trimStart_starts_clean (s : string) : starts_clean (trimStart s).
Proof.
  induction s as [|c r IH]; simpl; [exact I|].
  destruct (is_ws c) eqn:E; [exact IH|]. simpl. exact E.
Qed.

Lemma trimStart_fixed (s : string) : starts_clean s -> trimStart s = s.
Proof. destruct s as [|c r]; simpl; [reflexivity|]. intros ->. reflexivity. Qed.

Lemma trimEnd_starts_clean (s : string) : starts_clean s -> starts_clean (trimEnd s).
Proof.
  destruct s as [|c r]; simpl; [trivial|]. intros H. rewrite H. simpl. exact H.
Qed.

Lemma trim_idempotent (s : string) : trim (trim s) = trim s.
Proof.
  unfold trim.
  rewrite (trimStart_fixed (trimEnd (trimStart s)))
    by (apply trimEnd_starts_clean, trimStart_starts_clean).
  apply trimEnd_idempotent.
Qed.

Lemma firstn_incl {A} (n : nat) (l : list A) (x : A) : In x (firstn n l) -> In x l.
Proof.
  intros H. rewrite <- (firstn_skipn n l). apply in_or_app. left. exact H.
Qed.

Lemma slice0_incl {A} (l : list A) (e : Z) (x : A) : In x (slice0 l e) -> In x l.
Proof. unfold slice0. apply firstn_incl. Qed.

Lemma parseLine_trimmed (line : string) : Forall trimmed (parseLine line).
Proof.
  unfold parseLine. apply Forall_forall. intros c Hin.
  apply in_map_iff in Hin as (x & <- & _). apply trim_idempotent.
Qed.

(** Every header and every cell of a table [tryParseCSV] returns has no
    white space at either end. *)
Theorem table_cells_are_trimmed
        (text : string) (maxRows maxCols : Z) (t : TablePreviewData) :
  tryParseCSV text maxRows maxCols = Some t ->
  Forall trimmed (headers t) /\ Forall (Forall trimmed) (rows t).
Proof.
  intros Hsome.
  destruct (tryParseCSV_some _ _ _ _ Hsome) as (first & others & _ & Hh & Hr).
  cbv zeta in Hh, Hr. split.
  - rewrite Hh. apply Forall_forall. intros c Hin. apply slice0_incl in Hin.
    pose proof (parseLine_trimmed first) as H.
    rewrite Forall_forall in H. exact (H c Hin).
  - rewrite Hr. apply Forall_forall. intros r Hin.
    apply in_map_iff in Hin as (l & <- & _).
    apply Forall_forall. intros c Hc. apply slice0_incl in Hc.
    pose proof (parseLine_trimmed l) as H.
    rewrite Forall_forall in H. exact (H c Hc).
Qed.

Lemma table_cells_are_trimmed_witness :
  exists t, tryParseCSV padded_table 50 40 = Some t /\
            Forall trimmed (headers t) /\ Forall (Forall trimmed) (rows t).
Proof.
  eexists. split; [reflexivity|].
  exact (table_cells_are_trimmed padded_table 50 40 _ eq_refl).
Defined.

(** *** Size of a preview *)

Lemma parseLine_loop_length (rest : string) :
  forall cur q out,
    (length out < length (parseLine_loop rest cur q out))%nat.
Proof.
  induction rest as [rest IH] using (well_founded_induction
    (Wf_nat.well_founded_ltof _ String.length)).
  intros cur q out. destruct rest as [|ch rest']; cbn [parseLine_loop].
  - rewrite length_app. simpl. lia.
  - assert (Hlt : Wf_nat.ltof _ String.length rest' (String ch rest'))
      by (unfold Wf_nat.ltof; simpl; lia).
    destruct (Ascii.eqb ch QUOTE).
    + destruct rest' as [|ch2 rest''].
      * apply IH. exact Hlt.
      * destruct (q && Ascii.eqb ch2 QUOTE).
        -- apply IH. unfold Wf_nat.ltof. simpl. lia.
        -- apply IH. exact Hlt.
    + destruct (Ascii.eqb ch COMMA && negb q).
      * specialize (IH rest' Hlt EmptyString q (out ++ [cur])%list).
        rewrite length_app in IH. simpl in IH. lia.
      * apply IH. exact Hlt.
Qed.

Lemma parseLine_not_nil (line : string) : (1 <= length (parseLine line))%nat.
Proof.
  unfold parseLine. rewrite length_map.
  pose proof (parseLine_loop_length line EmptyString false []). simpl in H. lia.
Qed.

(** A table returned with the default limits has between 1 and 40
    headers and between 1 and 49 rows, and with the header line it holds
    the first 50 non-blank lines of the text, or all of them when there
    are fewer. *)
Theorem default_preview_size (text : string) (t : TablePreviewData) :
  tryParseCSV_default text = Some t ->
  (1 <= length (headers t) <= 40)%nat /\
  (1 <= length (rows t) <= 49)%nat /\
  S (length (rows t)) = Nat.min 50 (length (nonblank_lines text)).
Proof.
  unfold tryParseCSV_default. intros Hsome.
  assert (Hlines : (2 <= length (nonblank_lines text))%nat).
  { unfold tryParseCSV in Hsome.
    destruct (Nat.ltb_spec (length (nonblank_lines text)) 2); [discriminate|lia]. }
  destruct (tryParseCSV_some _ _ _ _ Hsome) as (first & others & Hs & Hh & Hr).
  cbv zeta in Hh, Hr.
  assert (Hlen : length (first :: others) = Nat.min 50 (length (nonblank_lines text))).
  { rewrite <- Hs, slice0_length by lia. reflexivity. }
  cbn [length] in Hlen.
  pose proof (parseLine_not_nil first) as Hfirst.
  assert (Hcols : length (headers t)
                  = Nat.min (length (parseLine first)) 40).
  { rewrite Hh, slice0_length by lia. lia. }
  assert (Hrows : length (rows t) = length others)
    by (rewrite Hr; apply length_map).
  repeat split; lia.
Qed.

Lemma default_preview_size_witness :
  exists t, tryParseCSV_default two_lines = Some t /\
            (1 <= length (headers t) <= 40)%nat /\
            (1 <= length (rows t) <= 49)%nat /\
            S (length (rows t)) = Nat.min 50 (length (nonblank_lines two_lines)).
Proof.
  eexists. split; [reflexivity|].
  exact (default_preview_size two_lines _ eq_refl).
Defined.

(** *** Lines without quotes *)

Lemma prepend_push_char (cur : string) (c : ascii) (ls : list string) :
  ls <> [] ->
  prepend cur (push_char c ls) = prepend (cur ++ String c EmptyString) ls.
Proof.
  destruct ls as [|l rest]; [contradiction|]. intros _. simpl.
  rewrite str_app_assoc. reflexivity.
Qed.

Lemma split_commas_not_nil (s : string) : split_commas s <> [].
Proof.
  induction s as [|c r IH]; simpl; [discriminate|].
  destruct (Ascii.eqb c COMMA); [discriminate|].
  destruct (split_commas r); discriminate.
Qed.

Lemma loop_without_quotes (rest : string) :
  includes QUOTE rest = false ->
  forall cur out,
    parseLine_loop rest cur false out
    = (out ++ prepend cur (split_commas rest))%list.
Proof.
  induction rest as [|ch rest' IH]; intros Hq cur out.
  - simpl. rewrite str_app_nil_r. reflexivity.
  - cbn [includes] in Hq. apply orb_false_elim in Hq as [Hch Hq].
    cbn [parseLine_loop split_commas]. rewrite Hch.
    destruct (Ascii.eqb ch COMMA) eqn:E; cbn [andb negb].
    + rewrite (IH Hq). simpl. rewrite str_app_nil_r, <- app_assoc.
      destruct (split_commas rest') eqn:S;
        [exfalso; exact (split_commas_not_nil _ S)|]. reflexivity.
    + rewrite (IH Hq).
      rewrite prepend_push_char by apply split_commas_not_nil. reflexivity.
Qed.

(** On a line without a double quote, [parseLine] is the split at every
    comma followed by the trim of each piece. *)
Theorem unquoted_line_splits_at_commas (line : string) :
  includes QUOTE line = false ->
  parseLine line = map trim (split_commas line).
Proof.
  intros Hq. unfold parseLine. rewrite (loop_without_quotes line Hq). simpl.
  destruct (split_commas line) eqn:S;
    [exfalso; exact (split_commas_not_nil _ S)|]. reflexivity.
Qed.

Lemma unquoted_line_splits_at_commas_witness :
  includes QUOTE "a, b,c" = false /\
  parseLine "a, b,c" = ["a"; "b"; "c"].
Proof.
  split; [reflexivity|exact (unquoted_line_splits_at_commas "a, b,c" eq_refl)].
Defined.

End ParserFacts.

(** ** The upload state *)

Section IntakeMoreFacts.
Import Js Csv Intake IntakeInv Examples.
Local Open Scope list_scope.

Lemma File_eqb_eq (a b : File) : File_eqb a b = true -> a = b.
Proof.
  destruct a as [n1 s1 t1 b1], b as [n2 s2 t2 b2]. unfold File_eqb. simpl.
  intros H. apply andb_prop in H as [H Hb]. apply andb_prop in H as [H Ht].
  apply andb_prop in H as [Hn Hs].
  apply String.eqb_eq in Hn, Ht. apply Z.eqb_eq in Hs. apply Bool.eqb_prop in Hb.
  subst. reflexivity.
Qed.

Lemma take_spec (sel : Task -> bool) (ts : list Task) (t : Task) (rest : list Task) :
  take sel ts = Some (t, rest) ->
  sel t = true /\ In t ts /\ (forall x, In x rest -> In x ts) /\
  (forall x, In x ts -> sel x = false -> In x rest).
Proof.
  revert t rest. induction ts as [|a ts IH]; intros t rest; simpl; [discriminate|].
  destruct (sel a) eqn:E.
  - intros H. injection H as <- <-. repeat split; auto.
    intros x [->|Hx] Hsel; [congruence|exact Hx].
  - destruct (take sel ts) as [[t' rest']|]; [|discriminate].
    intros H. injection H as <- <-.
    destruct (IH t' rest' eq_refl) as (H1 & H2 & H3 & H4).
    repeat split; auto.
    + intros x [->|Hx]; [left; reflexivity|right; auto].
    + intros x [->|Hx] Hsel; [left; reflexivity|right; auto].
Qed.

Lemma take_some (sel : Task -> bool) (ts : list Task) :
  existsb sel ts = true -> exists t rest, take sel ts = Some (t, rest).
Proof.
  induction ts as [|a ts IH]; simpl; [discriminate|].
  destruct (sel a); [eauto|]. simpl. intros H.
  destruct (IH H) as (t & rest & ->). eauto.
Qed.

Lemma run_invariant (P : State -> Prop) (ok : Event -> Prop) :
  (forall s ev s', P s -> ok ev -> step s ev = Some s' -> P s') ->
  forall evs s s', P s -> Forall ok evs -> run s evs = Some s' -> P s'.
Proof.
  intros Hstep. induction evs as [|ev rest IH]; intros s s' HP Hok; simpl.
  - intros H. injection H as <-. exact HP.
  - inversion Hok as [|x xs Hev Hrest]; subst.
    destruct (step s ev) as [s1|] eqn:E; [|discriminate].
    apply (IH s1 s'); [exact (Hstep s ev s1 HP Hev E)|exact Hrest].
Qed.

Ltac task_of H :=
  let Hsel := fresh "Hsel" in let Hin := fresh "Hin" in
  let Hsub := fresh "Hsub" in let Hkeep := fresh "Hkeep" in
  apply take_spec in H as (Hsel & Hin & Hsub & Hkeep).

Lemma csv_free_step (s : State) (ev : Event) (s' : State) :
  csv_free s -> selects_no_csv ev -> step s ev = Some s' -> csv_free s'.
Proof.
  destruct s as [fm uf pr lb tp lc er ts cc lg].
  unfold csv_free. cbn [tablePreview tasks]. intros [-> Hts] Hev.
  destruct ev; cbn [step tasks].
  - intros H. injection H as <-. cbn. split; [reflexivity|].
    intros t0 g0 Hin0. apply in_app_or in Hin0 as [Hin0|[<-|[]]]; [eauto|discriminate].
  - intros H. injection H as <-. cbn. split; [reflexivity|].
    intros t0 g0 Hin0. apply in_map_iff in Hin0 as (x & <- & Hx).
    destruct x; cbn; try discriminate; intros Hf; eapply Hts; eauto.
  - destruct (take is_cache_load ts) as [[t rest]|] eqn:E; [|discriminate].
    task_of E. destruct t; try discriminate.
    destruct meta as [m|]; [destruct ignore|]; [| |];
      try destruct file; intros H; injection H as <-; cbn;
      (split; [reflexivity|]; intros t0 g0 Hin0; eauto).
  - intros H. injection H as <-. destruct f as [f|]; [|split; [reflexivity|exact Hts]].
    specialize (Hev f eq_refl). unfold processFile.
    destruct (file_size f >? 1024 * 1024); [destruct (file_stream f)|]; cbn;
      (split; [reflexivity|]); intros t g Hin;
      repeat (apply in_app_or in Hin as [Hin|Hin]);
      try (destruct Hin as [<-|[]]; cbn; intros Hg; injection Hg as <-; exact Hev);
      eauto.
  - intros H. injection H as <-. cbn. split; [reflexivity|].
    intros t0 g0 Hin0. apply in_app_or in Hin0 as [Hin0|[<-|[]]]; [eauto|discriminate].
  - destruct (take is_clear_delete ts) as [[t rest]|] eqn:E; [|discriminate].
    task_of E. intros H. injection H as <-. cbn. split; [reflexivity|]. eauto.
  - destruct (take (is_head f) ts) as [[t rest]|] eqn:E; [|discriminate].
    task_of E. destruct t; try discriminate. cbn in Hsel.
    apply File_eqb_eq in Hsel. subst f0.
    assert (Hf : has_csv_extension (file_name f) = false)
      by (eapply Hts; [exact Hin|reflexivity]).
    destruct decoded; intros H; injection H as <-; cbn;
      (split; [|eauto]); [unfold preview_table; rewrite Hf|]; reflexivity.
  - destruct (take (is_stream f) ts) as [[t rest]|] eqn:E; [|discriminate].
    task_of E. destruct t; try discriminate. cbn in Hsel.
    apply File_eqb_eq in Hsel. subst f0.
    assert (Hf : has_csv_extension (file_name f) = false)
      by (eapply Hts; [exact Hin|reflexivity]).
    destruct r; intros H; injection H as <-; cbn; (split; [reflexivity|]);
      intros t g Hin'; try (apply in_app_or in Hin' as [Hin'|[<-|[]]]);
      try (cbn; intros Hg; injection Hg as <-; exact Hf); eauto.
  - destruct (take (is_fallback f) ts) as [[t rest]|] eqn:E; [|discriminate].
    task_of E.
    destruct e; cbn; intros H; injection H as <-; cbn;
      (split; [reflexivity|]); eauto.
  - destruct (take (is_small f) ts) as [[t rest]|] eqn:E; [|discriminate].
    intros H. injection H as <-. cbn. split; [reflexivity|exact Hts].
  - destruct (take (is_small f) ts) as [[t rest]|] eqn:E; [|discriminate].
    task_of E. destruct t; try discriminate. cbn in Hsel.
    apply File_eqb_eq in Hsel. subst f0.
    assert (Hf : has_csv_extension (file_name f) = false)
      by (eapply Hts; [exact Hin|reflexivity]).
    destruct decoded; intros H; injection H as <-; cbn;
      (split; [try (unfold preview_table; rewrite Hf); reflexivity|]);
      intros t g Hin'; apply in_app_or in Hin' as [Hin'|[<-|[]]];
      try (cbn; intros Hg; injection Hg as <-; exact Hf); eauto.
  - destruct (take (is_small_save f) ts) as [[t rest]|] eqn:E; [|discriminate].
    task_of E. intros H. injection H as <-. cbn. split; [reflexivity|]. eauto.
  - destruct (take (is_small f) ts) as [[t rest]|] eqn:E; [|discriminate].
    task_of E. intros H. injection H as <-. cbn. split; [reflexivity|]. eauto.
Qed.

(** Whatever the user and the readers do, in any order, as long as no
    selected file has a name ending in .csv (in any case), no table
    preview is ever set: [tablePreview] stays null. *)
Theorem uploads_without_csv_name_show_no_table (evs : list Event) (s : State) :
  Forall selects_no_csv evs ->
  run initial evs = Some s ->
  tablePreview s = None.
Proof.
  intros Hevs Hrun.
  apply (run_invariant csv_free selects_no_csv csv_free_step evs initial s);
    [|exact Hevs|exact Hrun].
  split; [reflexivity|]. intros t f [].
Qed.

Lemma uploads_without_csv_name_show_no_table_witness :
  Forall selects_no_csv upload_notes /\
  exists s, run initial upload_notes = Some s /\ tablePreview s = None.
Proof.
  assert (H : Forall selects_no_csv upload_notes).
  { unfold upload_notes.
    repeat (apply Forall_cons || apply Forall_nil); intros f E; try discriminate.
    injection E as <-. reflexivity. }
  split; [exact H|]. eexists. split; [reflexivity|].
  exact (uploads_without_csv_name_show_no_table upload_notes _ H eq_refl).
Defined.

(** *** The content preview is bounded *)

Lemma str_take_length (n : nat) (s : string) : (String.length (str_take n s) <= n)%nat.
Proof.
  revert n. induction s as [|c r IH]; intros n; simpl; [lia|].
  destruct n as [|k]; simpl; [lia|]. specialize (IH k). lia.
Qed.

Lemma placeholder_bounded (f : File) : bounded_meta (placeholder f).
Proof. unfold bounded_meta. cbn. apply Nat.leb_le. reflexivity. Qed.

Lemma refined_bounded (m : UploadedFileMeta) (text : string) :
  bounded_meta (with_preview m (str_take 4000 text)).
Proof. unfold bounded_meta. cbn [with_preview contentPreview]. apply str_take_length. Qed.

Lemma decoded_bounded (f : File) (text : string) :
  bounded_meta (meta_of f (str_take 4000 text)).
Proof. unfold bounded_meta. cbn [meta_of contentPreview]. apply str_take_length. Qed.

Lemma undecoded_bounded (f : File) : bounded_meta (meta_of f "Unable to decode preview.").
Proof. unfold bounded_meta. cbn. apply Nat.leb_le. reflexivity. Qed.

Lemma Forall_snoc {A} (P : A -> Prop) (l : list A) (x : A) :
  Forall P l -> P x -> Forall P (l ++ [x]).
Proof. intros Hl Hx. apply Forall_app. split; [exact Hl|repeat constructor; exact Hx]. Qed.

Lemma previews_bounded_step (s : State) (ev : Event) (s' : State) :
  previews_bounded s -> loads_bounded ev -> step s ev = Some s' -> previews_bounded s'.
Proof.
  destruct s as [fm uf pr lb tp lc er ts cc lg].
  unfold previews_bounded. cbn [fileMeta cache_calls]. intros [Hfm Hcc] Hev.
  destruct ev; cbn [step tasks].
  - intros H. injection H as <-. cbn. split; [exact Hfm|].
    apply Forall_snoc; [exact Hcc|exact I].
  - intros H. injection H as <-. cbn. split; assumption.
  - destruct (take is_cache_load ts) as [[t rest]|]; [|discriminate].
    destruct t; try discriminate.
    destruct meta as [m|]; [destruct ignore|]; [| |];
      try destruct file; intros H; injection H as <-; cbn;
      (split; [|exact Hcc]); try exact Hfm;
      intros m' Hm'; injection Hm' as <-; eapply Hev; reflexivity.
  - intros H. injection H as <-. destruct f as [f|]; [|split; assumption].
    unfold processFile.
    destruct (file_size f >? 1024 * 1024); [destruct (file_stream f)|]; cbn;
      try (split; [exact Hfm|exact Hcc]);
      (split; [intros m Hm; injection Hm as <-; apply placeholder_bounded|
               apply Forall_snoc; [exact Hcc|apply placeholder_bounded]]).
  - intros H. injection H as <-. cbn. split; [discriminate|].
    apply Forall_snoc; [exact Hcc|exact I].
  - destruct (take is_clear_delete ts) as [[t rest]|]; [|discriminate].
    intros H. injection H as <-. cbn. split; assumption.
  - destruct (take (is_head f) ts) as [[t rest]|]; [|discriminate].
    destruct decoded as [text|]; intros H; injection H as <-; cbn;
      [|split; assumption].
    split.
    + destruct fm as [prev|]; [|discriminate].
      intros m Hm. injection Hm as <-. apply refined_bounded.
    + apply Forall_snoc; [exact Hcc|apply refined_bounded].
  - destruct (take (is_stream f) ts) as [[t rest]|]; [|discriminate].
    destruct t; try discriminate.
    destruct r; intros H; injection H as <-; cbn; split; assumption.
  - destruct (take (is_fallback f) ts) as [[t rest]|]; [|discriminate].
    destruct e; cbn; intros H; injection H as <-; cbn; split; assumption.
  - destruct (take (is_small f) ts) as [[t rest]|]; [|discriminate].
    intros H. injection H as <-. cbn. split; assumption.
  - destruct (take (is_small f) ts) as [[t rest]|]; [|discriminate].
    destruct decoded as [text|]; intros H; injection H as <-; cbn.
    + split; [intros m Hm; injection Hm as <-; apply decoded_bounded|].
      apply Forall_snoc; [exact Hcc|apply decoded_bounded].
    + split; [intros m Hm; injection Hm as <-; apply undecoded_bounded|].
      apply Forall_snoc; [exact Hcc|apply undecoded_bounded].
  - destruct (take (is_small_save f) ts) as [[t rest]|]; [|discriminate].
    intros H. injection H as <-. cbn. split; assumption.
  - destruct (take (is_small f) ts) as [[t rest]|]; [|discriminate].
    intros H. injection H as <-. cbn. split; assumption.
Qed.

(** In every state the component reaches from its initial one, the
    content preview shown and the content preview of every metadata
    record handed to [saveLatestUpload] hold at most 4000 characters,
    provided what the cache gave back on mount did. *)
Theorem content_preview_is_bounded (evs : list Event) (s : State) :
  Forall loads_bounded evs ->
  run initial evs = Some s ->
  (forall m, fileMeta s = Some m -> (String.length (contentPreview m) <= 4000)%nat) /\
  (forall f m, In (saveLatestUpload f m) (cache_calls s) ->
               (String.length (contentPreview m) <= 4000)%nat).
Proof.
  intros Hevs Hrun.
  assert (H : previews_bounded s).
  { apply (run_invariant previews_bounded loads_bounded previews_bounded_step
             evs initial s); [|exact Hevs|exact Hrun].
    split; [discriminate|constructor]. }
  destruct H as [Hfm Hcc]. split; [exact Hfm|].
  intros f m Hin. rewrite Forall_forall in Hcc. exact (Hcc _ Hin).
Qed.

Lemma content_preview_is_bounded_witness :
  Forall loads_bounded upload_notes /\
  exists s, run initial upload_notes = Some s /\
    (forall m, fileMeta s = Some m -> (String.length (contentPreview m) <= 4000)%nat) /\
    (forall f m, In (saveLatestUpload f m) (cache_calls s) ->
                 (String.length (contentPreview m) <= 4000)%nat).
Proof.
  assert (H : Forall loads_bounded upload_notes).
  { unfold upload_notes.
    repeat (apply Forall_cons || apply Forall_nil); intros f m E; try discriminate.
    injection E as _ <-. unfold bounded_meta. cbn. lia. }
  split; [exact H|]. eexists. split; [reflexivity|].
  exact (content_preview_is_bounded upload_notes _ H eq_refl).
Defined.

(** *** Single steps of an upload, from any state *)

Lemma existsb_snoc (sel : Task -> bool) (ts : list Task) (t : Task) :
  sel t = true -> existsb sel (ts ++ [t]) = true.
Proof. intros H. rewrite existsb_app. simpl. rewrite H. apply orb_true_iff. auto. Qed.

(** A file above 1 MiB is shown at once with the placeholder preview, no
    table and progress 0; when its 64 KiB head has been decoded, the
    preview becomes the first 4000 characters of that text and the table
    is the one parsed from it (for a CSV name); the cache is written
    twice, first with the placeholder and then with the refined
    metadata. *)
Theorem large_file_preview_is_refined (s : State) (f : File) (text : string) :
  file_size f > 1024 * 1024 ->
  exists s1 s2,
    step s (selectFile (Some f)) = Some s1 /\
    step s1 (headOnload f (Some text)) = Some s2 /\
    fileMeta s1 = Some (placeholder f) /\ tablePreview s1 = None /\
    progress s1 = 0 /\ uploadedFile s1 = Some f /\
    fileMeta s2 = Some (with_preview (placeholder f) (str_take 4000 text)) /\
    tablePreview s2 = preview_table f text /\
    cache_calls s2
    = cache_calls s
        ++ [saveLatestUpload f (placeholder f);
            saveLatestUpload f (with_preview (placeholder f) (str_take 4000 text))].
Proof.
  intros Hsize. apply Z.gtb_gt in Hsize.
  destruct s as [fm uf pr lb tp lc er ts cc lg].
  cbn [step processFile]. rewrite Hsize.
  assert (Hex : forall last, existsb (is_head f) ((ts ++ [HeadReader f]) ++ [last]) = true).
  { intros last. rewrite existsb_app. apply orb_true_iff. left.
    apply existsb_snoc. cbn. apply File_eqb_refl. }
  destruct (file_stream f); cbn.
  - destruct (take_some _ _ (Hex (StreamLoop f 0%N))) as (t & rest & E).
    eexists. eexists. split; [reflexivity|]. cbn [step tasks]. rewrite E. cbn.
    rewrite <- app_assoc. repeat split.
  - destruct (take_some _ _ (Hex (FallbackReader f))) as (t & rest & E).
    eexists. eexists. split; [reflexivity|]. cbn [step tasks]. rewrite E. cbn.
    rewrite <- app_assoc. repeat split.
Qed.

Lemma large_file_preview_is_refined_witness :
  file_size archive > 1024 * 1024 /\
  exists s1 s2,
    step initial (selectFile (Some archive)) = Some s1 /\
    step s1 (headOnload archive (Some two_lines)) = Some s2 /\
    fileMeta s1 = Some (placeholder archive) /\
    fileMeta s2 = Some (with_preview (placeholder archive) two_lines) /\
    tablePreview s2 = preview_table archive two_lines.
Proof.
  split; [reflexivity|].
  destruct (large_file_preview_is_refined initial archive two_lines eq_refl)
    as (s1 & s2 & H1 & H2 & H3 & _ & _ & _ & H7 & H8 & _).
  exists s1, s2. repeat split; assumption.
Defined.

(** A file of at most 1 MiB, once read and saved: the metadata holds the
    first 4000 characters of the decoded text, or the words 'Unable to
    decode preview.' when decoding throws; the table is the one parsed
    from the text (none when decoding throws); progress is 100 with the
    label 'Processing'; and the cache is written once, with that
    metadata. *)
Theorem small_file_is_processed (s : State) (f : File) (decoded : option string) :
  file_size f <= 1024 * 1024 ->
  exists s',
    run s [selectFile (Some f); smallOnload f decoded; smallSaved f] = Some s' /\
    fileMeta s' = Some (meta_of f (decoded_preview decoded)) /\
    tablePreview s' = match decoded with
                      | Some text => preview_table f text
                      | None => None
                      end /\
    uploadedFile s' = Some f /\
    progress s' = 100 /\ progressLabel s' = "Processing" /\
    cache_calls s'
    = cache_calls s ++ [saveLatestUpload f (meta_of f (decoded_preview decoded))].
Proof.
  intros Hsize. assert (Hgt : (file_size f >? 1024 * 1024) = false)
    by (rewrite Z.gtb_ltb; apply Z.ltb_ge; lia).
  destruct s as [fm uf pr lb tp lc er ts cc lg].
  cbn [run step processFile]. rewrite Hgt. cbn.
  destruct (take_some (is_small f) (ts ++ [SmallReader f])) as (t & rest & E);
    [apply existsb_snoc; cbn; apply File_eqb_refl|].
  rewrite E.
  destruct (take_some (is_small_save f) (rest ++ [SmallSave f])) as (t2 & rest2 & E2);
    [apply existsb_snoc; cbn; apply File_eqb_refl|].
  destruct decoded as [text|]; cbn; rewrite E2; cbn;
    eexists; (split; [reflexivity|]); repeat split.
Qed.

Lemma small_file_is_processed_witness :
  file_size notes <= 1024 * 1024 /\
  exists s',
    run initial [selectFile (Some notes); smallOnload notes None; smallSaved notes]
    = Some s' /\
    fileMeta s' = Some (meta_of notes "Unable to decode preview.") /\
    progress s' = 100.
Proof.
  split; [discriminate|].
  destruct (small_file_is_processed initial notes None ltac:(discriminate))
    as (s' & H1 & H2 & _ & _ & H5 & _).
  exists s'. repeat split; assumption.
Defined.

(** From any state, Clear followed by the end of [deleteLatestUpload]
    leaves no card and gives every state variable of the upload its
    initial value; one delete is issued to the cache; the reads still in
    flight are not cancelled. *)
Theorem clear_returns_to_initial_values (s : State) :
  exists s',
    run s [clickClear; clearDeleted] = Some s' /\
    render s' = NoCard /\
    fileMeta s' = fileMeta initial /\
    uploadedFile s' = uploadedFile initial /\
    progress s' = progress initial /\
    progressLabel s' = progressLabel initial /\
    tablePreview s' = tablePreview initial /\
    loadedFromCache s' = loadedFromCache initial /\
    error s' = error initial /\
    cache_calls s' = cache_calls s ++ [deleteLatestUpload] /\
    (forall t, In t (tasks s) -> is_clear_delete t = false -> In t (tasks s')).
Proof.
  destruct s as [fm uf pr lb tp lc er ts cc lg].
  cbn [run step]. cbn.
  destruct (take_some is_clear_delete (ts ++ [ClearDelete])) as (t & rest & E);
    [apply existsb_snoc; reflexivity|].
  rewrite E. cbn. eexists. split; [reflexivity|]. repeat split.
  intros x Hx Hsel. apply take_spec in E as (_ & _ & _ & Hkeep).
  apply Hkeep; [apply in_or_app; left; exact Hx|exact Hsel].
Qed.

(** The effect on mount: metadata found in the cache is shown, with the
    file when there is one, and marked as loaded from the cache; without
    metadata nothing changes; and nothing changes when the effect was
    cleaned up before the cache answered. *)
Theorem cache_load_on_mount (file : option File) (meta : UploadedFileMeta) :
  (exists s, run initial [mount; cacheLoaded file (Some meta)] = Some s /\
             fileMeta s = Some meta /\ uploadedFile s = file /\
             loadedFromCache s = true) /\
  (exists s, run initial [mount; cacheLoaded file None] = Some s /\
             fileMeta s = None /\ uploadedFile s = None /\
             loadedFromCache s = false) /\
  (exists s, run initial [mount; cleanup; cacheLoaded file (Some meta)] = Some s /\
             fileMeta s = None /\ uploadedFile s = None /\
             loadedFromCache s = false).
Proof.
  repeat split; destruct file; eexists; (split; [reflexivity|]); repeat split.
Qed.

End IntakeMoreFacts.

(** ** The chat panel over whole runs *)

Section ChatbotMoreFacts.
Import Js ChatApi Chatbot ChatbotInv Scenario Examples.
Local Open Scope list_scope.

Lemma keeps_refl (m : ChatMessage) : keeps m m.
Proof. split; auto. Qed.

Lemma keeps_trans (a b c : ChatMessage) : keeps a b -> keeps b c -> keeps a c.
Proof.
  intros [R1 K1] [R2 K2]. split; [congruence|].
  intros Ha. specialize (K1 Ha). subst b. auto.
Qed.

Lemma Forall2_keeps_refl (ms : list ChatMessage) : Forall2 keeps ms ms.
Proof. induction ms; constructor; auto using keeps_refl. Qed.

Lemma Forall2_keeps_trans (a b c : list ChatMessage) :
  Forall2 keeps a b -> Forall2 keeps b c -> Forall2 keeps a c.
Proof.
  intros H. revert c. induction H as [|x y l l' Hxy Hl IH]; intros c Hc.
  - inversion Hc. constructor.
  - inversion Hc as [|y' z l1 l2 Hyz Hrest]; subst.
    constructor; [eapply keeps_trans; eauto|auto].
Qed.

Lemma continues_refl (ms : list ChatMessage) : continues ms ms.
Proof. exists ms, []. rewrite app_nil_r. split; [reflexivity|apply Forall2_keeps_refl]. Qed.

Lemma continues_trans (a b c : list ChatMessage) :
  continues a b -> continues b c -> continues a c.
Proof.
  intros (k1 & a1 & -> & H1) (k2 & a2 & -> & H2).
  apply Forall2_app_inv_l in H2 as (k2a & k2b & Ha & Hb & ->).
  exists k2a, (k2b ++ a2). rewrite app_assoc. split; [reflexivity|].
  eapply Forall2_keeps_trans; eauto.
Qed.

Lemma continues_map (f : ChatMessage -> ChatMessage) (ms : list ChatMessage) :
  (forall m, keeps m (f m)) -> continues ms (map f ms).
Proof.
  intros Hf. exists (map f ms), []. rewrite app_nil_r. split; [reflexivity|].
  induction ms; simpl; constructor; auto.
Qed.

Lemma continues_showErrorBubble (msg : string) (ms : list ChatMessage) :
  continues ms (showErrorBubble msg ms).
Proof.
  apply continues_map. intros m. unfold keeps.
  destruct (pending m) eqn:E; simpl; split; auto; discriminate.
Qed.

Lemma continues_showResponse (text : string) (ms : list ChatMessage) :
  continues ms (showResponse text ms).
Proof.
  apply continues_map. intros m. unfold keeps.
  destruct (pending m) eqn:E; simpl; split; auto; discriminate.
Qed.

Lemma continues_app (ms added : list ChatMessage) : continues ms (ms ++ added).
Proof. exists ms, added. split; [reflexivity|apply Forall2_keeps_refl]. Qed.

Lemma step_continues (p : Panel) (ev : Event) (q : Panel) :
  step p ev = Some q -> continues (messages p) (messages q).
Proof.
  destruct p as [ms inp ld de inv fs]. destruct ev; cbn [step].
  - destruct ld; [discriminate|]. intros H. injection H as <-. apply continues_refl.
  - intros H. injection H as <-. unfold handleSubmit. cbn [input isLoading].
    destruct (is_empty (trim inp) || ld); [apply continues_refl|].
    cbn. destruct (empty_prompt (trim inp)); cbn; apply continues_app.
  - cbn [invocation]. destruct inv as [i|]; [|discriminate].
    destruct (delayTimer i); [|discriminate].
    intros H. injection H as <-. unfold delay_callback. cbn.
    destruct (truthy_error (seen_delayedError i)); cbn;
      [apply continues_showErrorBubble|apply continues_refl].
  - cbn [invocation]. destruct inv as [i|]; [|discriminate].
    destruct (phase i); try discriminate.
    destruct (timed_out net && delayTimer i); [discriminate|].
    destruct (settled (chatWithCopilot (prompt i) net));
      intros H; injection H as <-; cbn;
      [apply continues_showResponse|apply continues_refl].
  - cbn [invocation]. destruct inv as [i|]; [|discriminate].
    destruct (phase i); try discriminate.
    destruct (fallback_arrives net); [|discriminate].
    destruct (fallback_text net); intros H; injection H as <-; cbn.
    + apply continues_showResponse.
    + unfold fail. cbn. destruct (canShowError i); cbn;
        [apply continues_showErrorBubble|apply continues_refl].
Qed.

(** Along any sequence of events, from any state of the panel: the
    message list only grows at its end; every message keeps its place
    and its role; and a message that is not pending is never changed
    again. *)
Theorem settled_messages_are_final (p : Panel) (evs : list Event) (q : Panel) :
  run p evs = Some q ->
  exists kept added,
    messages q = kept ++ added /\
    length kept = length (messages p) /\
    forall i m, nth_error (messages p) i = Some m ->
      exists m', nth_error kept i = Some m' /\ role m' = role m /\
                 (pending m = false -> m' = m).
Proof.
  intros Hrun.
  assert (H : continues (messages p) (messages q)).
  { revert p Hrun. induction evs as [|ev rest IH]; intros p; simpl.
    - intros H. injection H as <-. apply continues_refl.
    - destruct (step p ev) as [p1|] eqn:E; [|discriminate]. intros Hrun.
      eapply continues_trans; [exact (step_continues _ _ _ E)|exact (IH _ Hrun)]. }
  destruct H as (kept & added & Heq & Hall).
  exists kept, added. split; [exact Heq|].
  split; [symmetry; exact (Forall2_length Hall)|].
  clear Heq. intros i m Hnth. revert i Hnth.
  induction Hall as [|x y l l' Hxy Hl IH]; intros i Hnth.
  - destruct i; discriminate.
  - destruct i as [|i]; simpl in *.
    + injection Hnth as <-. exists y. destruct Hxy. auto.
    + apply IH. exact Hnth.
Qed.

Lemma settled_messages_are_final_witness :
  exists q kept added,
    run initial fast_failure_then_resubmit = Some q /\
    messages q = kept ++ added /\
    length kept = length (messages initial) /\
    forall i m, nth_error (messages initial) i = Some m ->
      exists m', nth_error kept i = Some m' /\ role m' = role m /\
                 (pending m = false -> m' = m).
Proof.
  destruct (settled_messages_are_final initial fast_failure_then_resubmit _ eq_refl)
    as (kept & added & H).
  eexists. exists kept, added. split; [reflexivity|exact H].
Defined.

Lemma panel_run_preserves (P : Panel -> Prop) :
  (forall p ev q, P p -> step p ev = Some q -> P q) ->
  forall evs p q, P p -> run p evs = Some q -> P q.
Proof.
  intros Hstep. induction evs as [|ev rest IH]; intros p q Hp; simpl.
  - intros H. injection H as <-. exact Hp.
  - destruct (step p ev) as [p1|] eqn:E; [|discriminate].
    apply IH. eapply Hstep; eauto.
Qed.

Lemma placeholders_showErrorBubble (msg : string) (ms : list ChatMessage) :
  Forall is_placeholder (showErrorBubble msg ms).
Proof.
  unfold showErrorBubble. apply Forall_forall. intros m Hin.
  apply in_map_iff in Hin as (m0 & <- & _). unfold is_placeholder.
  destruct (pending m0) eqn:E; simpl; [discriminate|]. rewrite E. discriminate.
Qed.

Lemma placeholders_showResponse (text : string) (ms : list ChatMessage) :
  Forall is_placeholder (showResponse text ms).
Proof.
  unfold showResponse. apply Forall_forall. intros m Hin.
  apply in_map_iff in Hin as (m0 & <- & _). unfold is_placeholder.
  destruct (pending m0) eqn:E; simpl; [discriminate|]. rewrite E. discriminate.
Qed.

Lemma asked_showErrorBubble (msg s : string) (ms : list ChatMessage) :
  asked s ms -> asked s (showErrorBubble msg ms).
Proof.
  intros [Hs Hin]. split; [exact Hs|]. unfold showErrorBubble.
  apply in_map_iff. exists (mkMessage user s false false). auto.
Qed.

Lemma asked_showResponse (text s : string) (ms : list ChatMessage) :
  asked s ms -> asked s (showResponse text ms).
Proof.
  intros [Hs Hin]. split; [exact Hs|]. unfold showResponse.
  apply in_map_iff. exists (mkMessage user s false false). auto.
Qed.

Lemma asked_app (s : string) (ms added : list ChatMessage) :
  asked s ms -> asked s (ms ++ added).
Proof. intros [Hs Hin]. split; [exact Hs|]. apply in_or_app. auto. Qed.

Ltac keep_fetches H :=
  eapply Forall_impl; [|exact H]; cbn beta; cbn [messages]; intros;
  auto using asked_showErrorBubble, asked_showResponse, asked_app.

Ltac conjuncts := repeat match goal with |- _ /\ _ => split end.

Lemma panel_ok_initial : panel_ok initial.
Proof.
  split; [|split].
  - repeat constructor. intros H. discriminate.
  - reflexivity.
  - constructor.
Qed.

Lemma panel_ok_step (p : Panel) (ev : Event) (q : Panel) :
  panel_ok p -> step p ev = Some q -> panel_ok q.
Proof.
  destruct p as [ms inp ld de inv fs]. intros (Hms & Hreq & Hfs).
  unfold request_ok in Hreq. cbn [invocation isLoading input messages] in Hreq.
  cbn [messages fetches] in Hms, Hfs.
  destruct ev; cbn [step isLoading invocation].
  - (* typeInput *)
    destruct ld eqn:Eld; [discriminate|]. intros H. injection H as <-.
    split; [exact Hms|]. split; [|exact Hfs].
    unfold request_ok. cbn.
    destruct inv as [i|]; [|reflexivity].
    destruct (phase i); [destruct Hreq; discriminate|destruct Hreq; discriminate|exact Hreq].
  - (* submit *)
    intros H. injection H as <-. unfold handleSubmit. cbn [input isLoading].
    destruct (is_empty (trim inp)) eqn:Eemp; cbn [orb];
      [split; [exact Hms|split; [exact Hreq|exact Hfs]]|].
    destruct ld eqn:Eld;
      [split; [exact Hms|split; [exact Hreq|exact Hfs]]|].
    assert (Hws : all_ws inp = false) by (rewrite <- trim_empty_iff; exact Eemp).
    destruct (trimmed_prompt_not_empty inp Hws) as [_ Hnot].
    rewrite Hnot. cbn.
    assert (Hasked : asked (trim inp)
                 (ms ++ [mkMessage user (trim inp) false false;
                         mkMessage assistant THINKING true false])).
    { split.
      - unfold empty_prompt in Hnot. rewrite trim_empty_iff in Hnot. exact Hnot.
      - apply in_or_app. right. left. reflexivity. }
    split; [|split].
    + apply Forall_app. split; [exact Hms|].
      constructor; [intros H; discriminate|].
      constructor; [intros H; reflexivity|constructor].
    + unfold request_ok. cbn. conjuncts; auto.
    + apply Forall_app. split; [keep_fetches Hfs|].
      constructor; [exact Hasked|constructor].
  - (* delayElapsed *)
    destruct inv as [i|]; [|discriminate].
    destruct i as [pr seen cs dl ab ph]. cbn [delayTimer].
    destruct dl; [|discriminate].
    intros H. injection H as <-. unfold delay_callback. cbn in *.
    destruct (truthy_error seen); cbn.
    + split; [apply placeholders_showErrorBubble|]. split; [|keep_fetches Hfs].
      unfold request_ok. cbn.
      destruct ph; [| |destruct Hreq as (_ & Hd & _); discriminate];
        destruct Hreq as (H1 & H2 & H3 & H4 & H5);
        conjuncts; auto using asked_showErrorBubble.
    + split; [exact Hms|]. split; [|exact Hfs].
      unfold request_ok. cbn.
      destruct ph; [| |destruct Hreq as (_ & Hd & _); discriminate];
        destruct Hreq as (H1 & H2 & H3 & H4 & H5); conjuncts; auto.
  - (* primarySettled *)
    destruct inv as [i|]; [|discriminate].
    destruct i as [pr seen cs dl ab ph]. cbn in *.
    destruct ph; try discriminate.
    destruct (timed_out net && dl); [discriminate|].
    destruct Hreq as (H1 & H2 & H3 & H4 & H5).
    destruct (settled (chatWithCopilot pr net)); intros H; injection H as <-; cbn.
    + split; [apply placeholders_showResponse|]. split; [|keep_fetches Hfs].
      unfold request_ok. cbn. auto.
    + split; [exact Hms|]. split.
      * unfold request_ok. cbn. conjuncts; auto.
      * apply Forall_app. split; [exact Hfs|]. constructor; [exact H3|constructor].
  - (* fallbackSettled *)
    destruct inv as [i|]; [|discriminate].
    destruct i as [pr seen cs dl ab ph]. cbn in *.
    destruct ph; try discriminate.
    destruct (fallback_arrives net); [|discriminate].
    destruct Hreq as (H1 & H2 & H3 & H4 & H5).
    destruct (fallback_text net); intros H; injection H as <-; cbn.
    + split; [apply placeholders_showResponse|]. split; [|keep_fetches Hfs].
      unfold request_ok. cbn. auto.
    + unfold fail. cbn. destruct cs; cbn.
      * split; [apply placeholders_showErrorBubble|]. split; [|keep_fetches Hfs].
        unfold request_ok. cbn. auto.
      * split; [exact Hms|]. split; [|exact Hfs].
        unfold request_ok. cbn. auto.
Qed.

Lemma reachable_panel_ok (p : Panel) : reachable p -> panel_ok p.
Proof.
  intros [evs Hrun].
  exact (panel_run_preserves panel_ok panel_ok_step evs initial p panel_ok_initial Hrun).
Qed.



Lemma step_delay_elapsed (ms : list ChatMessage) (inp : string) (ld : bool)
      (de seen : option string) (prompt : string) (fs : list Fetch)
      (canShow abort : bool) (ph : Phase) :
  step (mkPanel ms inp ld de
                (Some (mkInvocation prompt seen canShow true abort ph)) fs)
       delayElapsed
  = Some (mkPanel (if truthy_error seen then showErrorBubble (field seen) ms else ms)
                  inp ld de
                  (Some (mkInvocation prompt seen true false abort ph)) fs).
Proof.
  cbn. unfold delay_callback. cbn [seen_delayedError].
  destruct (truthy_error seen); reflexivity.
Qed.

Lemma step_primary_resolves_late (ms : list ChatMessage) (inp : string)
      (de seen : option string) (prompt : string) (fs : list Fetch)
      (canShow : bool) (net : Network) (text : string) :
  settled (chatWithCopilot prompt net) = resolves text ->
  step (mkPanel ms inp true de
                (Some (mkInvocation prompt seen canShow false true AwaitPrimary)) fs)
       (primarySettled net)
  = Some (mkPanel (showResponse text ms) inp false de
                  (Some (mkInvocation prompt seen canShow false false Returned)) fs).
Proof. intros H. cbn. rewrite andb_false_r, H. reflexivity. Qed.

Lemma step_primary_rejects_any (ms : list ChatMessage) (inp : string)
      (de seen : option string) (prompt : string) (fs : list Fetch)
      (canShow delay : bool) (net : Network) (e : JsError) :
  timed_out net && delay = false ->
  settled (chatWithCopilot prompt net) = rejects e ->
  step (mkPanel ms inp true de
                (Some (mkInvocation prompt seen canShow delay true AwaitPrimary)) fs)
       (primarySettled net)
  = Some (mkPanel ms inp true de
                  (Some (mkInvocation prompt seen canShow delay false (AwaitFallback e)))
                  (fs ++ [fallback_fetch prompt])).
Proof. intros Ht H. cbn. rewrite Ht, H. reflexivity. Qed.

Lemma step_fallback_rejects_late (ms : list ChatMessage) (inp : string)
      (de seen : option string) (prompt : string) (fs : list Fetch)
      (delay : bool) (e : JsError) (net : Network) :
  fallback_arrives net = true ->
  fallback_text net = None ->
  step (mkPanel ms inp true de
                (Some (mkInvocation prompt seen true delay false (AwaitFallback e))) fs)
       (fallbackSettled net)
  = Some (mkPanel (showErrorBubble (or_else (err_message e) "Unexpected error") ms)
                  inp false de
                  (Some (mkInvocation prompt seen true false false Returned)) fs).
Proof. intros Ha H. cbn. rewrite Ha, H. reflexivity. Qed.

Lemma showErrorBubble_settled (msg : string) (ms : list ChatMessage) :
  filter pending ms = [] -> showErrorBubble msg ms = ms.
Proof.
  unfold showErrorBubble. induction ms as [|m rest IH]; simpl; [reflexivity|].
  destruct (pending m); [discriminate|]. intros H. rewrite (IH H). reflexivity.
Qed.

Lemma showResponse_settled (text : string) (ms : list ChatMessage) :
  filter pending ms = [] -> showResponse text ms = ms.
Proof.
  unfold showResponse. induction ms as [|m rest IH]; simpl; [reflexivity|].
  destruct (pending m); [discriminate|]. intros H. rewrite (IH H). reflexivity.
Qed.

Lemma no_pending_after_showErrorBubble (msg : string) (ms : list ChatMessage) :
  filter pending (showErrorBubble msg ms) = [].
Proof.
  unfold showErrorBubble.
  induction ms as [|m rest IH]; simpl; [reflexivity|].
  destruct (pending m) eqn:E; simpl; rewrite ?E; exact IH.
Qed.

(** When both attempts of a request have failed and the delay timer
    fired before the failure is handled, every pending bubble becomes an
    error bubble and none is left pending: it shows the message of the
    primary error ('Unexpected error' for an empty one), unless an
    earlier request left a delayed error, which the timer callback then
    showed instead. *)
Theorem late_failure_is_shown (p : Panel) (evs : list Event) (e : JsError) :
  isLoading p = false ->
  all_ws (input p) = false ->
  FailsAfterDelay (trim (input p)) evs e ->
  exists q,
    run p (submit :: evs) = Some q /\
    messages q
    = showErrorBubble (shown_error (delayedError p) e) (messages p)
        ++ [mkMessage user (trim (input p)) false false;
            mkMessage assistant (shown_error (delayedError p) e) false true] /\
    pending_count q = 0%nat /\
    delayedError q = None /\
    isLoading q = false.
Proof.
  destruct p as [ms inp ld de inv fs].
  cbn [isLoading input messages delayedError]. intros -> Hinp Hfail.
  pose proof (step_submit_fresh ms inp de inv fs Hinp) as Hsub.
  set (sent := ms ++ [mkMessage user (trim inp) false false;
                      mkMessage assistant THINKING true false]) in *.
  set (errMsg := or_else (err_message e) "Unexpected error").
  assert (Hshow : forall msg, showErrorBubble msg sent
                  = showErrorBubble msg ms
                      ++ [mkMessage user (trim inp) false false;
                          mkMessage assistant msg false true]).
  { intros msg. unfold sent, showErrorBubble. rewrite map_app. reflexivity. }
  assert (Hfinal : showErrorBubble errMsg
                     (if truthy_error de then showErrorBubble (field de) sent else sent)
                   = showErrorBubble (shown_error de e) ms
                       ++ [mkMessage user (trim inp) false false;
                           mkMessage assistant (shown_error de e) false true]).
  { unfold shown_error. fold errMsg. destruct (truthy_error de).
    - rewrite showErrorBubble_settled by apply no_pending_after_showErrorBubble.
      apply Hshow.
    - apply Hshow. }
  inversion Hfail as [net1 net2 e' Hrej Harr Hfb|net1 net2 e' Htime Hrej Harr Hfb]; subst.
  - pose proof (step_delay_elapsed sent EmptyString true None de (trim inp)
                  (fs ++ [primary_fetch (trim inp)]) false true AwaitPrimary) as Hd.
    pose proof (step_primary_rejects_any
                  (if truthy_error de then showErrorBubble (field de) sent else sent)
                  EmptyString None de (trim inp)
                  (fs ++ [primary_fetch (trim inp)]) true false net1 e
                  (andb_false_r _) Hrej) as H1.
    pose proof (step_fallback_rejects_late
                  (if truthy_error de then showErrorBubble (field de) sent else sent)
                  EmptyString None de (trim inp)
                  ((fs ++ [primary_fetch (trim inp)]) ++ [fallback_fetch (trim inp)])
                  false e net2 Harr Hfb) as H2.
    eexists. split; [play Hsub; play Hd; play H1; play H2; reflexivity|].
    cbn [messages delayedError isLoading]. fold errMsg.
    split; [exact Hfinal|].
    split; [unfold pending_count; cbn [messages]; fold errMsg;
            rewrite no_pending_after_showErrorBubble; reflexivity|].
    split; reflexivity.
  - assert (Ht : timed_out net1 && true = false) by (rewrite Htime; reflexivity).
    pose proof (step_primary_rejects_any sent EmptyString None de (trim inp)
                  (fs ++ [primary_fetch (trim inp)]) false true net1 e Ht Hrej) as H1.
    pose proof (step_delay_elapsed sent EmptyString true None de (trim inp)
                  ((fs ++ [primary_fetch (trim inp)]) ++ [fallback_fetch (trim inp)])
                  false false (AwaitFallback e)) as Hd.
    pose proof (step_fallback_rejects_late
                  (if truthy_error de then showErrorBubble (field de) sent else sent)
                  EmptyString None de (trim inp)
                  ((fs ++ [primary_fetch (trim inp)]) ++ [fallback_fetch (trim inp)])
                  false e net2 Harr Hfb) as H2.
    eexists. split; [play Hsub; play H1; play Hd; play H2; reflexivity|].
    cbn [messages delayedError isLoading]. fold errMsg.
    split; [exact Hfinal|].
    split; [unfold pending_count; cbn [messages]; fold errMsg;
            rewrite no_pending_after_showErrorBubble; reflexivity|].
    split; reflexivity.
Qed.

Lemma late_failure_is_shown_witness :
  isLoading (setInput "hi" initial) = false /\
  all_ws (input (setInput "hi" initial)) = false /\
  exists q,
    run (setInput "hi" initial)
        [submit; delayElapsed; primarySettled offline; fallbackSettled offline]
    = Some q /\
    messages q
    = [mkMessage assistant GREETING false false;
       mkMessage user "hi" false false;
       mkMessage assistant "Failed to fetch" false true] /\
    pending_count q = 0%nat.
Proof.
  split; [reflexivity|]. split; [reflexivity|].
  assert (Hf : FailsAfterDelay (trim (input (setInput "hi" initial)))
                 [delayElapsed; primarySettled offline; fallbackSettled offline]
                 (mkError "TypeError" "Failed to fetch"))
    by (apply fails_late; reflexivity).
  destruct (late_failure_is_shown (setInput "hi" initial) _ _ eq_refl eq_refl Hf)
    as (q & H1 & H2 & H3 & _).
  exists q. split; [exact H1|]. split; [exact H2|exact H3].
Defined.

(** When a request succeeds after its delay timer fired, directly or
    through the fallback, no bubble is left pending and the panel
    accepts input again: the bubble holds the response text ('No
    response text' for an empty one), unless an earlier request left a
    delayed error, which the timer callback has then already written
    into the bubble as an error. *)
Theorem late_success_is_shown (p : Panel) (evs : list Event) (text : string) :
  isLoading p = false ->
  all_ws (input p) = false ->
  SucceedsAfterDelay (trim (input p)) evs text ->
  exists q,
    run p (submit :: evs) = Some q /\
    messages q
    = (if truthy_error (delayedError p)
       then showErrorBubble (field (delayedError p)) (messages p)
              ++ [mkMessage user (trim (input p)) false false;
                  mkMessage assistant (field (delayedError p)) false true]
       else showResponse text (messages p)
              ++ [mkMessage user (trim (input p)) false false;
                  mkMessage assistant (or_else text "No response text") false false]) /\
    pending_count q = 0%nat /\
    delayedError q = None /\
    isLoading q = false.
Proof.
  destruct p as [ms inp ld de inv fs].
  cbn [isLoading input messages delayedError]. intros -> Hinp Hok.
  pose proof (step_submit_fresh ms inp de inv fs Hinp) as Hsub.
  set (sent := ms ++ [mkMessage user (trim inp) false false;
                      mkMessage assistant THINKING true false]) in *.
  set (after := if truthy_error de then showErrorBubble (field de) sent else sent).
  assert (Hfinal : showResponse text after
                   = (if truthy_error de
                      then showErrorBubble (field de) ms
                             ++ [mkMessage user (trim inp) false false;
                                 mkMessage assistant (field de) false true]
                      else showResponse text ms
                             ++ [mkMessage user (trim inp) false false;
                                 mkMessage assistant (or_else text "No response text")
                                           false false])).
  { unfold after. destruct (truthy_error de).
    - rewrite showResponse_settled by apply no_pending_after_showErrorBubble.
      unfold sent, showErrorBubble. rewrite map_app. reflexivity.
    - unfold sent, showResponse. rewrite map_app. reflexivity. }
  assert (Hnone : length (filter pending (showResponse text after)) = 0%nat)
    by (rewrite no_pending_after_showResponse; reflexivity).
  inversion Hok as [net text' Hres
                   |net1 net2 e text' Hrej Harr Hfb
                   |net1 net2 e text' Htime Hrej Harr Hfb]; subst.
  - pose proof (step_delay_elapsed sent EmptyString true None de (trim inp)
                  (fs ++ [primary_fetch (trim inp)]) false true AwaitPrimary) as Hd.
    pose proof (step_primary_resolves_late after EmptyString None de (trim inp)
                  (fs ++ [primary_fetch (trim inp)]) true net text Hres) as H1.
    eexists. split; [play Hsub; play Hd; fold after; play H1; reflexivity|].
    cbn [messages delayedError isLoading].
    split; [exact Hfinal|]. split; [exact Hnone|]. split; reflexivity.
  - pose proof (step_delay_elapsed sent EmptyString true None de (trim inp)
                  (fs ++ [primary_fetch (trim inp)]) false true AwaitPrimary) as Hd.
    pose proof (step_primary_rejects_any after EmptyString None de (trim inp)
                  (fs ++ [primary_fetch (trim inp)]) true false net1 e
                  (andb_false_r _) Hrej) as H1.
    pose proof (step_fallback_resolves after EmptyString None de (trim inp)
                  ((fs ++ [primary_fetch (trim inp)]) ++ [fallback_fetch (trim inp)])
                  true false e net2 text Harr Hfb) as H2.
    eexists. split; [play Hsub; play Hd; fold after; play H1; play H2; reflexivity|].
    cbn [messages delayedError isLoading].
    split; [exact Hfinal|]. split; [exact Hnone|]. split; reflexivity.
  - assert (Ht : timed_out net1 && true = false) by (rewrite Htime; reflexivity).
    pose proof (step_primary_rejects_any sent EmptyString None de (trim inp)
                  (fs ++ [primary_fetch (trim inp)]) false true net1 e Ht Hrej) as H1.
    pose proof (step_delay_elapsed sent EmptyString true None de (trim inp)
                  ((fs ++ [primary_fetch (trim inp)]) ++ [fallback_fetch (trim inp)])
                  false false (AwaitFallback e)) as Hd.
    pose proof (step_fallback_resolves after EmptyString None de (trim inp)
                  ((fs ++ [primary_fetch (trim inp)]) ++ [fallback_fetch (trim inp)])
                  true false e net2 text Harr Hfb) as H2.
    eexists. split; [play Hsub; play H1; play Hd; fold after; play H2; reflexivity|].
    cbn [messages delayedError isLoading].
    split; [exact Hfinal|]. split; [exact Hnone|]. split; reflexivity.
Qed.

Lemma late_success_is_shown_witness :
  isLoading (setInput "hi" initial) = false /\
  all_ws (input (setInput "hi" initial)) = false /\
  exists q,
    run (setInput "hi" initial)
        [submit; delayElapsed; primarySettled (reply "Hello")]
    = Some q /\
    messages q
    = [mkMessage assistant GREETING false false;
       mkMessage user "hi" false false;
       mkMessage assistant "Hello" false false] /\
    pending_count q = 0%nat.
Proof.
  split; [reflexivity|]. split; [reflexivity|].
  assert (Hs : SucceedsAfterDelay (trim (input (setInput "hi" initial)))
                 [delayElapsed; primarySettled (reply "Hello")] "Hello")
    by (apply primary_succeeds_late; reflexivity).
  destruct (late_success_is_shown (setInput "hi" initial) _ _ eq_refl eq_refl Hs)
    as (q & H1 & H2 & H3 & _).
  exists q. split; [exact H1|]. split; [exact H2|exact H3].
Defined.

(** In every state the panel reaches, a pending message is an assistant
    message with the text 'Thinking…' and no error mark; so user
    messages are never pending. *)
Theorem pending_messages_are_placeholders (p : Panel) (m : ChatMessage) :
  reachable p -> In m (messages p) -> pending m = true ->
  role m = assistant /\ content m = THINKING /\ error m = false.
Proof.
  intros Hr Hin Hp. destruct (reachable_panel_ok p Hr) as (Hms & _ & _).
  rewrite Forall_forall in Hms. rewrite (Hms m Hin Hp). auto.
Qed.

Lemma pending_messages_are_placeholders_witness :
  exists p m,
    run initial fast_failure = Some p /\ In m (messages p) /\ pending m = true /\
    role m = assistant /\ content m = THINKING /\ error m = false.
Proof.
  eexists. exists (mkMessage assistant THINKING true false).
  split; [reflexivity|].
  split; [right; right; left; reflexivity|]. split; [reflexivity|].
  refine (pending_messages_are_placeholders _ (mkMessage assistant THINKING true false)
            (ex_intro _ fast_failure eq_refl) _ eq_refl).
  right. right. left. reflexivity.
Defined.

(** In every state the panel reaches: while [isLoading] is true the
    input is empty, one invocation of [handleSubmit] is suspended, it
    can show errors exactly when its delay timer is no longer armed, and
    the 120 s timer is armed exactly while [chatWithCopilot] is awaited;
    while [isLoading] is false no timer can fire and no request can
    settle. *)
Theorem loading_follows_the_request (p : Panel) :
  reachable p ->
  (isLoading p = true ->
   input p = EmptyString /\
   exists i, invocation p = Some i /\ phase i <> Returned /\
             canShowError i = negb (delayTimer i) /\
             (abortTimer i = true <-> phase i = AwaitPrimary)) /\
  (isLoading p = false ->
   step p delayElapsed = None /\
   (forall net, step p (primarySettled net) = None) /\
   (forall net, step p (fallbackSettled net) = None)).
Proof.
  intros Hr. destruct (reachable_panel_ok p Hr) as (_ & Hreq & _).
  destruct p as [ms inp ld de inv fs]. unfold request_ok in Hreq.
  cbn [invocation isLoading input messages] in *. split.
  - intros ->. destruct inv as [i|]; [|discriminate].
    destruct (phase i) eqn:Eph.
    + destruct Hreq as (_ & H2 & _ & H4 & H5). split; [exact H2|].
      exists i. rewrite Eph. repeat split; auto; discriminate.
    + destruct Hreq as (_ & H2 & _ & H4 & H5). split; [exact H2|].
      exists i. rewrite Eph, H4. repeat split; auto; discriminate.
    + destruct Hreq; discriminate.
  - intros ->. cbn [step invocation]. destruct inv as [i|]; [|auto].
    destruct (phase i) eqn:Eph; try (destruct Hreq; discriminate).
    destruct Hreq as (_ & -> & _). auto.
Qed.

Lemma loading_follows_the_request_witness :
  exists p,
    run initial answered = Some p /\ isLoading p = false /\
    step p delayElapsed = None /\
    (forall net, step p (primarySettled net) = None) /\
    (forall net, step p (fallbackSettled net) = None).
Proof.
  eexists. split; [reflexivity|]. split; [reflexivity|].
  exact (proj2 (loading_follows_the_request _ (ex_intro _ answered eq_refl)) eq_refl).
Defined.

(** In every state the panel reaches, each request sent to the chat
    endpoint, by [chatWithCopilot] or by the fallback, carries a prompt
    that is not blank and that stands in the message list as a user
    message. *)
Theorem requests_carry_a_shown_prompt (p : Panel) (f : Fetch) :
  reachable p -> In f (fetches p) ->
  all_ws (fetch_prompt f) = false /\
  In (mkMessage user (fetch_prompt f) false false) (messages p).
Proof.
  intros Hr Hin. destruct (reachable_panel_ok p Hr) as (_ & _ & Hfs).
  rewrite Forall_forall in Hfs. exact (Hfs f Hin).
Qed.

Lemma requests_carry_a_shown_prompt_witness :
  exists p,
    run initial fast_failure = Some p /\ In (fallback_fetch "hi") (fetches p) /\
    all_ws "hi" = false /\ In (mkMessage user "hi" false false) (messages p).
Proof.
  eexists. split; [reflexivity|].
  split; [right; left; reflexivity|].
  refine (requests_carry_a_shown_prompt _ (fallback_fetch "hi")
            (ex_intro _ fast_failure eq_refl) _).
  right. left. reflexivity.
Defined.

End ChatbotMoreFacts.

(** ** The analysis actions *)

Section WorkbenchFacts.
Import Js ChatApi Intake Workbench Examples.
Local Open Scope list_scope.

Lemma TryTab_eqb_eq (a b : TryTab) : TryTab_eqb a b = true <-> a = b.
Proof. destruct a, b; simpl; split; intros H; try reflexivity; discriminate. Qed.

Lemma Request_eqb_refl (r : Request) : Request_eqb r r = true.
Proof. destruct r as [ep f]. unfold Request_eqb. destruct ep; apply File_eqb_refl. Qed.

Lemma Request_eqb_eq (a b : Request) : Request_eqb a b = true -> a = b.
Proof.
  destruct a as [e1 f1], b as [e2 f2]. unfold Request_eqb. cbn.
  destruct e1, e2; try discriminate; intros H; apply File_eqb_eq in H; subst; reflexivity.
Qed.

(** What the state of the upload keeps of the file after one of its
    events: the file it had, none, or the file the event brings. *)
Lemma step_uploadedFile (s : State) (e : Intake.Event) (s' : State) :
  Intake.step s e = Some s' ->
  uploadedFile s' = uploadedFile s \/ uploadedFile s' = None \/
  exists f, uploadedFile s' = Some f /\ In f (offered (upload_event e)).
Proof.
  destruct s as [fm uf pr lb tp lc er ts cc lg].
  destruct e; cbn [Intake.step tasks fileMeta progress].
  - intros H. injection H as <-. left. reflexivity.
  - intros H. injection H as <-. left. reflexivity.
  - destruct (take is_cache_load ts) as [[t rest]|]; [|discriminate].
    destruct t; try discriminate.
    destruct meta as [m|]; [destruct ignore|]; [| |];
      try destruct file as [f|]; intros H; injection H as <-; cbn; auto.
    right. right. exists f. cbn. auto.
  - intros H. injection H as <-. destruct f as [f|]; [|left; reflexivity].
    right. right. exists f. split; [|cbn; auto]. unfold processFile.
    destruct (file_size f >? 1024 * 1024); [destruct (file_stream f)|]; reflexivity.
  - intros H. injection H as <-. right. left. reflexivity.
  - destruct (take is_clear_delete ts) as [[t rest]|]; [|discriminate].
    intros H. injection H as <-. left. reflexivity.
  - destruct (take (is_head f) ts) as [[t rest]|]; [|discriminate].
    destruct decoded; intros H; injection H as <-; left; reflexivity.
  - destruct (take (is_stream f) ts) as [[t rest]|]; [|discriminate].
    destruct t; try discriminate.
    destruct r; intros H; injection H as <-; left; reflexivity.
  - destruct (take (is_fallback f) ts) as [[t rest]|]; [|discriminate].
    destruct e; cbn;
      repeat match goal with |- context [if ?c then _ else _] => destruct c end;
      intros H; injection H as <-; left; reflexivity.
  - destruct (take (is_small f) ts) as [[t rest]|]; [|discriminate].
    intros H. injection H as <-. left. reflexivity.
  - destruct (take (is_small f) ts) as [[t rest]|]; [|discriminate].
    destruct decoded; intros H; injection H as <-; left; reflexivity.
  - destruct (take (is_small_save f) ts) as [[t rest]|]; [|discriminate].
    intros H. injection H as <-. left. reflexivity.
  - destruct (take (is_small f) ts) as [[t rest]|]; [|discriminate].
    intros H. injection H as <-. left. reflexivity.
Qed.

Lemma lift_spec (b : Bench) (e : Intake.Event) (b' : Bench) :
  lift b e = Some b' ->
  Intake.step (files b) e = Some (files b') /\
  isProcessing b' = isProcessing b /\ calls b' = calls b /\
  requests b' = requests b /\ tab b' = tab b.
Proof.
  destruct b as [s ip ar cr pr tb cs rs]. unfold lift. cbn [files].
  destruct (Intake.step s e) as [s'|]; [|discriminate].
  intros H. injection H as <-. cbn. auto.
Qed.

(** An event of the upload leaves the actions alone. *)
Lemma upload_step (b : Bench) (e : Intake.Event) (b' : Bench) :
  step b (upload_event e) = Some b' ->
  Intake.step (files b) e = Some (files b') /\
  isProcessing b' = isProcessing b /\ calls b' = calls b /\
  requests b' = requests b /\ tab b' = tab b.
Proof.
  assert (Hset : forall b0 b1 : Bench,
             lift b e = Some b0 ->
             files b1 = files b0 -> isProcessing b1 = isProcessing b0 ->
             calls b1 = calls b0 -> requests b1 = requests b0 -> tab b1 = tab b0 ->
             Intake.step (files b) e = Some (files b1) /\
             isProcessing b1 = isProcessing b /\ calls b1 = calls b /\
             requests b1 = requests b /\ tab b1 = tab b).
  { intros b0 b1 H0 -> -> -> -> ->. exact (lift_spec b e b0 H0). }
  destruct e; cbn [step]; try discriminate; try apply lift_spec.
  - destruct (TryTab_eqb (tab b) processing); [apply lift_spec|discriminate].
  - destruct (card_shown b); [|discriminate].
    destruct (lift b clickClear) as [b0|] eqn:E; [|discriminate].
    intros H. injection H as <-. apply (Hset b0); auto; destruct b0; reflexivity.
  - destruct (lift b clearDeleted) as [b0|] eqn:E; [|discriminate].
    intros H. injection H as <-. apply (Hset b0); auto; destruct b0; reflexivity.
Qed.

Lemma navigate_keeps (t : TryTab) (b : Bench) :
  isProcessing (navigate t b) = isProcessing b /\
  calls (navigate t b) = calls b /\ requests (navigate t b) = requests b /\
  uploadedFile (files (navigate t b)) = uploadedFile (files b) /\
  analyzeResult (navigate t b) = analyzeResult b /\
  cleanResult (navigate t b) = cleanResult b /\
  piiDetectionResult (navigate t b) = piiDetectionResult b /\
  Intake.error (files (navigate t b)) = Intake.error (files b) /\
  progressLabel (files (navigate t b)) = progressLabel (files b) /\
  tab (navigate t b) = t.
Proof.
  destruct b as [s ip ar cr pr tb cs rs]. unfold navigate. cbn [tab].
  destruct (TryTab_eqb tb t) eqn:E.
  - apply TryTab_eqb_eq in E. subst. cbn. repeat split.
  - destruct s as [fm uf p lb tp lc er ts cc lg]. destruct t; cbn; repeat split.
Qed.

Lemma take_call_one (r c : Request) (rest : list Request) :
  take_call r [c] = Some rest -> r = c /\ rest = [].
Proof.
  cbn. destruct (Request_eqb r c) eqn:E; [|discriminate].
  intros H. injection H as <-. split; [exact (Request_eqb_eq _ _ E)|reflexivity].
Qed.

Lemma take_call_In (r : Request) (cs rest : list Request) :
  take_call r cs = Some rest -> In r cs.
Proof.
  revert rest. induction cs as [|c cs IH]; intros rest; cbn; [discriminate|].
  destruct (Request_eqb r c) eqn:E.
  - intros _. left. symmetry. exact (Request_eqb_eq _ _ E).
  - destruct (take_call r cs) as [rest'|]; [|discriminate].
    intros _. right. exact (IH rest' eq_refl).
Qed.

Lemma bench_run_preserves (P : Bench -> Prop) :
  (forall b ev b', P b -> step b ev = Some b' -> P b') ->
  forall evs b b', P b -> run b evs = Some b' -> P b'.
Proof.
  intros Hstep. induction evs as [|ev rest IH]; intros b b' Hb; simpl.
  - intros H. injection H as <-. exact Hb.
  - destruct (step b ev) as [b1|] eqn:E; [|discriminate].
    apply IH. eapply Hstep; eauto.
Qed.

Lemma handle_calls_ok (ep : Endpoint) (b : Bench) :
  ep <> clean -> isProcessing b = false -> calls_ok b -> calls_ok (handle ep b).
Proof.
  intros Hep Hip [Hc Hr]. rewrite Hip in Hc.
  destruct b as [s ip ar cr pr tb cs rs]. cbn in Hip, Hc, Hr. subst ip cs.
  unfold handle. cbn [files]. destruct (uploadedFile s) as [f|]; cbn.
  - split.
    + exists (mkRequest ep f). split; [reflexivity|]. apply in_or_app. right. left. reflexivity.
    + apply Forall_app. split; [exact Hr|]. constructor; [exact Hep|constructor].
  - split; [reflexivity|exact Hr].
Qed.

Lemma resume_keeps (ep : Endpoint) (r : Result Json) (b : Bench) :
  isProcessing (resume ep r b) = false /\
  calls (resume ep r b) = calls b /\ requests (resume ep r b) = requests b /\
  uploadedFile (files (resume ep r b)) = uploadedFile (files b).
Proof.
  unfold resume. destruct r as [j|e].
  - destruct ep; cbn.
    + destruct (navigate_keeps bias_analysis
                  (on_files (setProgressLabel "Analysis complete!")
                            (setAnalyzeResult (Some j) b)))
        as (H1 & H2 & H3 & H4 & _).
      destruct (navigate bias_analysis _) as [s ip ar cr pr tb cs rs] eqn:E.
      cbn in *. subst. destruct b as [s0 ip0 ar0 cr0 pr0 tb0 cs0 rs0].
      destruct s0. cbn. auto.
    + destruct b as [s0 ip0 ar0 cr0 pr0 tb0 cs0 rs0]. destruct s0. cbn. auto.
    + destruct b as [s0 ip0 ar0 cr0 pr0 tb0 cs0 rs0]. destruct s0. cbn. auto.
  - destruct b as [s0 ip0 ar0 cr0 pr0 tb0 cs0 rs0]. destruct s0. cbn. auto.
Qed.

Lemma calls_ok_step (b : Bench) (ev : Event) (b' : Bench) :
  calls_ok b -> step b ev = Some b' -> calls_ok b'.
Proof.
  intros Hok. destruct ev.
  - intros H. apply upload_step in H as (_ & H1 & H2 & H3 & _).
    unfold calls_ok. rewrite H1, H2, H3. exact Hok.
  - cbn [step]. destruct (button_enabled b) eqn:E; [|discriminate].
    intros H. injection H as <-. apply handle_calls_ok; [discriminate| |exact Hok].
    unfold button_enabled in E. apply andb_prop in E as [_ E].
    destruct (isProcessing b); [discriminate|reflexivity].
  - cbn [step]. destruct (button_enabled b) eqn:E; [|discriminate].
    intros H. injection H as <-. apply handle_calls_ok; [discriminate| |exact Hok].
    unfold button_enabled in E. apply andb_prop in E as [_ E].
    destruct (isProcessing b); [discriminate|reflexivity].
  - cbn [step]. destruct (take_call r (calls b)) as [rest|] eqn:Et; [|discriminate].
    destruct (post_file (endpoint r) net) as [res|]; [|discriminate].
    intros H. injection H as <-.
    destruct Hok as [Hc Hr].
    assert (Hrest : rest = []).
    { destruct (isProcessing b).
      - destruct Hc as (c & Hc & _). rewrite Hc in Et.
        apply take_call_one in Et. apply Et.
      - rewrite Hc in Et. discriminate. }
    subst rest.
    destruct (resume_keeps (endpoint r) res (setCalls [] b)) as (H1 & H2 & H3 & _).
    unfold calls_ok. rewrite H1, H2, H3.
    destruct b as [s ip ar cr pr tb cs rs]. cbn. split; [reflexivity|exact Hr].
  - cbn [step]. intros H. injection H as <-.
    destruct (navigate_keeps t b) as (H1 & H2 & H3 & _).
    unfold calls_ok. rewrite H1, H2, H3. exact Hok.
Qed.

Lemma calls_ok_initial : calls_ok initial.
Proof. split; [reflexivity|constructor]. Qed.

Lemma reachable_calls_ok (b : Bench) : reachable b -> calls_ok b.
Proof.
  intros [evs H].
  exact (bench_run_preserves calls_ok calls_ok_step evs initial b calls_ok_initial H).
Qed.

Lemma handle_files_from (known : list File) (ep : Endpoint) (b : Bench) :
  files_from known b -> files_from known (handle ep b).
Proof.
  intros [Hu Hr]. destruct b as [s ip ar cr pr tb cs rs].
  destruct s as [fm uf p lb tp lc er ts cc lg]. cbn [files requests uploadedFile] in *.
  unfold handle. cbn [files uploadedFile]. destruct uf as [f|]; cbn.
  - split; [exact Hu|].
    intros r Hin. apply in_app_or in Hin as [Hin|[<-|[]]]; [auto|].
    cbn. apply Hu. reflexivity.
  - split; [exact Hu|exact Hr].
Qed.

Lemma files_from_step (known : list File) (b : Bench) (ev : Event) (b' : Bench) :
  files_from known b -> step b ev = Some b' -> files_from (known ++ offered ev) b'.
Proof.
  intros [Hu Hr]. destruct ev.
  - intros H. apply upload_step in H as (Hs & _ & _ & H3 & _).
    split.
    + intros f Hf. apply in_or_app.
      destruct (step_uploadedFile _ _ _ Hs) as [Hsame|[Hnone|(g & Hg & Hin)]].
      * left. apply Hu. rewrite <- Hsame. exact Hf.
      * rewrite Hnone in Hf. discriminate.
      * rewrite Hg in Hf. injection Hf as <-. right. exact Hin.
    + rewrite H3. intros r Hin. apply in_or_app. left. auto.
  - cbn [step offered]. rewrite app_nil_r.
    destruct (button_enabled b); [|discriminate].
    intros H. injection H as <-. apply handle_files_from. split; assumption.
  - cbn [step offered]. rewrite app_nil_r.
    destruct (button_enabled b); [|discriminate].
    intros H. injection H as <-. apply handle_files_from. split; assumption.
  - cbn [step offered]. rewrite app_nil_r.
    destruct (take_call r (calls b)) as [rest|]; [|discriminate].
    destruct (post_file (endpoint r) net) as [res|]; [|discriminate].
    intros H. injection H as <-.
    destruct (resume_keeps (endpoint r) res (setCalls rest b)) as (_ & _ & H3 & H4).
    unfold files_from. rewrite H3, H4.
    destruct b as [s ip ar cr pr tb cs rs]. cbn in *. split; assumption.
  - cbn [step offered]. rewrite app_nil_r. intros H. injection H as <-.
    destruct (navigate_keeps t b) as (_ & _ & H3 & H4 & _).
    unfold files_from. rewrite H3, H4. split; assumption.
Qed.

Lemma files_from_run (evs : list Event) (known : list File) (b b' : Bench) :
  files_from known b -> run b evs = Some b' ->
  files_from (known ++ flat_map offered evs) b'.
Proof.
  revert known b. induction evs as [|ev rest IH]; intros known b Hb; simpl.
  - intros H. injection H as <-. rewrite app_nil_r. exact Hb.
  - destruct (step b ev) as [b1|] eqn:E; [|discriminate]. intros Hrun.
    rewrite app_assoc. apply (IH _ b1); [|exact Hrun].
    exact (files_from_step known b ev b1 Hb E).
Qed.

(** Every request the component has sent goes to the analyze or the
    detect-pii endpoint, never to the clean endpoint, and carries a file
    that the user selected or the cache gave back earlier in the same
    run. *)
Theorem requests_carry_offered_files (evs : list Event) (b : Bench) (r : Request) :
  run initial evs = Some b -> In r (requests b) ->
  endpoint r <> clean /\
  exists ev, In ev evs /\ In (upload r) (offered ev).
Proof.
  intros Hrun Hin. split.
  - destruct (reachable_calls_ok b (ex_intro _ evs Hrun)) as [_ Hr].
    rewrite Forall_forall in Hr. exact (Hr r Hin).
  - assert (H0 : files_from [] initial) by (split; [discriminate|intros r0 []]).
    destruct (files_from_run evs [] initial b H0 Hrun) as [_ Hr].
    specialize (Hr r Hin). cbn [app] in Hr.
    apply in_flat_map in Hr. exact Hr.
Qed.

Lemma requests_carry_offered_files_witness :
  exists b,
    run initial (notes_on_bench ++ [clickAnalyze]) = Some b /\
    In (mkRequest analyze notes) (requests b) /\
    exists ev, In ev (notes_on_bench ++ [clickAnalyze]) /\ In notes (offered ev).
Proof.
  eexists. split; [reflexivity|]. split; [left; reflexivity|].
  refine (proj2 (requests_carry_offered_files (notes_on_bench ++ [clickAnalyze]) _
                   (mkRequest analyze notes) eq_refl _)).
  left. reflexivity.
Defined.

(** In every state the component reaches: while [isProcessing] is true
    exactly one handler is suspended at its call, which is one of the
    requests sent, and neither action button can be clicked; while it is
    false no call is in flight. *)
Theorem processing_flag_tracks_the_call (b : Bench) :
  reachable b ->
  (isProcessing b = true -> exists r, calls b = [r] /\ In r (requests b)) /\
  (isProcessing b = false ->
   calls b = [] /\ forall r net, step b (callSettled r net) = None) /\
  (isProcessing b = true -> step b clickAnalyze = None /\ step b clickDetectPII = None).
Proof.
  intros Hr. destruct (reachable_calls_ok b Hr) as [Hc _].
  split; [|split].
  - intros E. rewrite E in Hc. exact Hc.
  - intros E. rewrite E in Hc. split; [exact Hc|].
    intros r net. cbn [step]. rewrite Hc. reflexivity.
  - intros E. cbn [step]. unfold button_enabled. rewrite E, andb_false_r. auto.
Qed.

Lemma processing_flag_tracks_the_call_witness :
  exists b,
    run initial (notes_on_bench ++ [clickAnalyze]) = Some b /\
    isProcessing b = true /\
    (exists r, calls b = [r] /\ In r (requests b)) /\
    step b clickAnalyze = None /\ step b clickDetectPII = None.
Proof.
  eexists. split; [reflexivity|]. split; [reflexivity|].
  pose proof (processing_flag_tracks_the_call _
                (ex_intro _ (notes_on_bench ++ [clickAnalyze]) eq_refl)) as (H1 & _ & H3).
  split; [exact (H1 eq_refl)|exact (H3 eq_refl)].
Defined.


Lemma button_enabled_spec (b : Bench) :
  button_enabled b = true ->
  tab b = processing /\ isProcessing b = false /\ exists m, fileMeta (files b) = Some m.
Proof.
  unfold button_enabled, card_shown. intros H.
  apply andb_prop in H as [H Hip]. apply andb_prop in H as [Ht Hm].
  apply TryTab_eqb_eq in Ht. split; [exact Ht|]. split.
  - destruct (isProcessing b); [discriminate|reflexivity].
  - destruct (fileMeta (files b)) as [m|]; [eauto|discriminate].
Qed.

Lemma step_click (ep : Endpoint) (s : State) (f : File)
      (ar cr pr : option Json) (rs : list Request) :
  uploadedFile s = Some f ->
  handle ep (mkBench s false ar cr pr processing [] rs)
  = mkBench (setProgressLabel (busy_label ep) (setError None s)) true ar cr pr processing
            [mkRequest ep f] (rs ++ [mkRequest ep f]).
Proof. intros H. unfold handle. cbn [files]. rewrite H. reflexivity. Qed.

Lemma step_settled (r : Request) (net : Network) (res : Result Json) (s : State)
      (ip : bool) (ar cr pr : option Json) (tb : TryTab) (rs : list Request) :
  post_file (endpoint r) net = Some res ->
  step (mkBench s ip ar cr pr tb [r] rs) (callSettled r net)
  = Some (resume (endpoint r) res (mkBench s ip ar cr pr tb [] rs)).
Proof.
  intros H. cbn [step calls take_call]. rewrite Request_eqb_refl, H. reflexivity.
Qed.

(** With a file present and the buttons enabled: a successful analysis
    stores its result, sets the label 'Analysis complete!', leaves no
    error, releases [isProcessing] and opens the bias-analysis tab; a
    successful PII detection stores its result with the label 'PII
    detection complete!' and stays on the processing tab.  Each sends
    one request. *)
Theorem successful_action (b : Bench) (f : File) (net : Network) (j : Json) :
  reachable b -> button_enabled b = true -> uploadedFile (files b) = Some f ->
  (analyzeDataset net = Some (resolves j) ->
   exists b', run b [clickAnalyze; callSettled (mkRequest analyze f) net] = Some b' /\
              analyzeResult b' = Some j /\ tab b' = bias_analysis /\
              piiDetectionResult b' = piiDetectionResult b /\
              progressLabel (files b') = "Analysis complete!" /\
              Intake.error (files b') = None /\ isProcessing b' = false /\
              requests b' = requests b ++ [mkRequest analyze f]) /\
  (detectPII net = Some (resolves j) ->
   exists b', run b [clickDetectPII; callSettled (mkRequest detect_pii f) net] = Some b' /\
              piiDetectionResult b' = Some j /\ tab b' = processing /\
              analyzeResult b' = analyzeResult b /\
              progressLabel (files b') = "PII detection complete!" /\
              Intake.error (files b') = None /\ isProcessing b' = false /\
              requests b' = requests b ++ [mkRequest detect_pii f]).
Proof.
  intros Hr Hen Hf.
  destruct (button_enabled_spec b Hen) as (Htab & Hip & _).
  destruct (reachable_calls_ok b Hr) as [Hc _]. rewrite Hip in Hc.
  destruct b as [s ip ar cr pr tb cs rs]. cbn [files isProcessing tab calls] in *.
  subst ip tb cs. split; intros Hnet.
  - eexists. split.
    + assert (H1 : step (mkBench s false ar cr pr processing [] rs) clickAnalyze
                   = Some (handle analyze (mkBench s false ar cr pr processing [] rs)))
        by (cbn [step]; rewrite Hen; reflexivity).
      rewrite (step_click analyze s f ar cr pr rs Hf) in H1.
      cbn [run]. rewrite H1.
      rewrite (step_settled (mkRequest analyze f) net (resolves j)) by exact Hnet.
      reflexivity.
    + destruct s. cbn. repeat split.
  - eexists. split.
    + assert (H1 : step (mkBench s false ar cr pr processing [] rs) clickDetectPII
                   = Some (handle detect_pii (mkBench s false ar cr pr processing [] rs)))
        by (cbn [step]; rewrite Hen; reflexivity).
      rewrite (step_click detect_pii s f ar cr pr rs Hf) in H1.
      cbn [run]. rewrite H1.
      rewrite (step_settled (mkRequest detect_pii f) net (resolves j)) by exact Hnet.
      reflexivity.
    + destruct s. cbn. repeat split.
Qed.

Lemma successful_action_witness :
  exists b,
    run initial notes_on_bench = Some b /\
    button_enabled b = true /\ uploadedFile (files b) = Some notes /\
    exists b', run b [clickAnalyze; callSettled (mkRequest analyze notes) report_arrives]
               = Some b' /\
               analyzeResult b' = Some report /\ tab b' = bias_analysis /\
               isProcessing b' = false.
Proof.
  eexists. split; [reflexivity|]. split; [reflexivity|]. split; [reflexivity|].
  destruct (proj1 (successful_action _ notes report_arrives report
                     (ex_intro _ notes_on_bench eq_refl) eq_refl eq_refl) eq_refl)
    as (b' & H1 & H2 & H3 & _ & _ & _ & H7 & _).
  exists b'. repeat split; assumption.
Defined.

(** With a file present and the buttons enabled: when the call of an
    action rejects, the error shown is the message of the rejection or,
    for an empty one, the action's failure text, so it is never empty;
    no result is stored, the tab stays, [isProcessing] is released and
    the progress label keeps the text set when the action started. *)
Theorem failed_action (b : Bench) (f : File) (net : Network) (e : JsError) :
  reachable b -> button_enabled b = true -> uploadedFile (files b) = Some f ->
  (analyzeDataset net = Some (rejects e) ->
   exists b' msg,
     run b [clickAnalyze; callSettled (mkRequest analyze f) net] = Some b' /\
     Intake.error (files b') = Some msg /\ msg <> EmptyString /\
     msg = or_else (err_message e) "Analysis failed" /\
     analyzeResult b' = analyzeResult b /\ tab b' = processing /\
     progressLabel (files b') = "Analyzing dataset..." /\ isProcessing b' = false) /\
  (detectPII net = Some (rejects e) ->
   exists b' msg,
     run b [clickDetectPII; callSettled (mkRequest detect_pii f) net] = Some b' /\
     Intake.error (files b') = Some msg /\ msg <> EmptyString /\
     msg = or_else (err_message e) "PII detection failed" /\
     piiDetectionResult b' = piiDetectionResult b /\ tab b' = processing /\
     progressLabel (files b') = "Detecting PII..." /\ isProcessing b' = false).
Proof.
  intros Hr Hen Hf.
  destruct (button_enabled_spec b Hen) as (Htab & Hip & _).
  destruct (reachable_calls_ok b Hr) as [Hc _]. rewrite Hip in Hc.
  destruct b as [s ip ar cr pr tb cs rs]. cbn [files isProcessing tab calls] in *.
  subst ip tb cs.
  assert (Hne : forall d, d <> EmptyString -> or_else (err_message e) d <> EmptyString).
  { intros d Hd. unfold or_else. destruct (truthy (err_message e)) eqn:E; [|exact Hd].
    intros H. rewrite H in E. discriminate. }
  split; intros Hnet.
  - eexists. eexists. split.
    + assert (H1 : step (mkBench s false ar cr pr processing [] rs) clickAnalyze
                   = Some (handle analyze (mkBench s false ar cr pr processing [] rs)))
        by (cbn [step]; rewrite Hen; reflexivity).
      rewrite (step_click analyze s f ar cr pr rs Hf) in H1.
      cbn [run]. rewrite H1.
      rewrite (step_settled (mkRequest analyze f) net (rejects e)) by exact Hnet.
      reflexivity.
    + destruct s. cbn. repeat split. apply Hne. discriminate.
  - eexists. eexists. split.
    + assert (H1 : step (mkBench s false ar cr pr processing [] rs) clickDetectPII
                   = Some (handle detect_pii (mkBench s false ar cr pr processing [] rs)))
        by (cbn [step]; rewrite Hen; reflexivity).
      rewrite (step_click detect_pii s f ar cr pr rs Hf) in H1.
      cbn [run]. rewrite H1.
      rewrite (step_settled (mkRequest detect_pii f) net (rejects e)) by exact Hnet.
      reflexivity.
    + destruct s. cbn. repeat split. apply Hne. discriminate.
Qed.

Lemma failed_action_witness :
  exists b,
    run initial notes_on_bench = Some b /\
    button_enabled b = true /\ uploadedFile (files b) = Some notes /\
    exists b',
      run b [clickDetectPII; callSettled (mkRequest detect_pii notes) Scenario.offline]
      = Some b' /\
      Intake.error (files b') = Some "Failed to fetch" /\
      piiDetectionResult b' = None /\ isProcessing b' = false.
Proof.
  eexists. split; [reflexivity|]. split; [reflexivity|]. split; [reflexivity|].
  destruct (proj2 (failed_action _ notes Scenario.offline
                     (mkError "TypeError" "Failed to fetch")
                     (ex_intro _ notes_on_bench eq_refl) eq_refl eq_refl) eq_refl)
    as (b' & msg & H1 & H2 & _ & H4 & H5 & _ & _ & H8).
  exists b'. split; [exact H1|]. split; [rewrite H2, H4; reflexivity|].
  split; [exact H5|exact H8].
Defined.

(** When the card is shown without a file object, as after a cache load
    that gave back metadata only, either action button sets the error
    'No file uploaded', sends no request and does not set
    [isProcessing]. *)
Theorem action_without_file (b : Bench) :
  button_enabled b = true -> uploadedFile (files b) = None ->
  forall ev, ev = clickAnalyze \/ ev = clickDetectPII ->
  exists b', step b ev = Some b' /\
             Intake.error (files b') = Some "No file uploaded" /\
             requests b' = requests b /\ calls b' = calls b /\
             isProcessing b' = false /\
             progressLabel (files b') = progressLabel (files b).
Proof.
  intros Hen Hf ev Hev.
  destruct (button_enabled_spec b Hen) as (_ & Hip & _).
  destruct b as [s ip ar cr pr tb cs rs]. cbn [files isProcessing] in *. subst ip.
  destruct Hev as [->| ->]; cbn [step]; rewrite Hen;
    unfold handleAnalyze, handleDetectPII, handle; cbn [files]; rewrite Hf;
    eexists; (split; [reflexivity|]); destruct s; cbn; repeat split.
Qed.

Lemma action_without_file_witness :
  exists b,
    run initial restored_without_file = Some b /\
    button_enabled b = true /\ uploadedFile (files b) = None /\
    exists b', step b clickAnalyze = Some b' /\
               Intake.error (files b') = Some "No file uploaded" /\
               requests b' = [].
Proof.
  eexists. split; [reflexivity|]. split; [reflexivity|]. split; [reflexivity|].
  match goal with
  | |- exists b', step ?b _ = _ /\ _ =>
      destruct (action_without_file b eq_refl eq_refl clickAnalyze (or_introl eq_refl))
        as (b' & H1 & H2 & H3 & _)
  end.
  exists b'. split; [exact H1|]. split; [exact H2|exact H3].
Defined.

End WorkbenchFacts.

(** ** The chat route *)

Section ChatRouteFacts.
Import Js ChatApi ChatRoute Examples.

(** [POST] answers 400 with the detail 'Missing prompt', without calling
    the upstream, when the body is not JSON, when its [prompt] is not a
    string, and when the prompt is empty or white space only. *)
Theorem route_rejects_missing_prompt (pf : Platform) (req : RequestBody) (up : Upstream) :
  req = request_invalid \/ req = request_json None \/
  (exists s, req = request_json (Some s) /\ all_ws s = true) ->
  reply (POST pf req up) = mkResponse 400 (detail_only "Missing prompt") /\
  called_upstream (POST pf req up) = false.
Proof.
  intros H. unfold POST.
  assert (E : is_empty (trim (prompt_of req)) = true).
  { destruct H as [->|[->|(s & -> & Hs)]]; cbn [prompt_of]; try reflexivity.
    rewrite trim_empty_iff. exact Hs. }
  rewrite E. split; reflexivity.
Qed.

Lemma route_rejects_missing_prompt_witness :
  reply (POST platform (request_json (Some "   ")) upstream_stalls)
  = mkResponse 400 (detail_only "Missing prompt") /\
  called_upstream (POST platform (request_json (Some "   ")) upstream_stalls) = false.
Proof.
  apply route_rejects_missing_prompt. right. right.
  exists "   ". split; reflexivity.
Defined.

(** When the upstream is still awaited as the 120 s timer fires, be it
    before the response or while its text is read, and whatever the
    status, [POST] answers 500 with the timed-out detail; the request
    was aborted and the timer cleared. *)
Theorem route_timeout_in_every_window (pf : Platform) (prompt : string) (up : Upstream) :
  all_ws prompt = false ->
  upstream_timed_out up = true ->
  reply (POST pf (request_json (Some prompt)) up)
  = mkResponse 500 (detail_only TIMED_OUT) /\
  called_upstream (POST pf (request_json (Some prompt)) up) = true /\
  abort_ran (POST pf (request_json (Some prompt)) up) = true /\
  cleared_timer (POST pf (request_json (Some prompt)) up) = true.
Proof.
  intros Hp Hup. unfold POST. cbn [prompt_of].
  rewrite trim_empty_iff, Hp. cbn [reply called_upstream abort_ran cleared_timer].
  rewrite Hup. split; [|auto].
  destruct up as [e| |st b]; try discriminate; [reflexivity|].
  destruct b; try discriminate. reflexivity.
Qed.

Lemma route_timeout_in_every_window_witness :
  all_ws "hi" = false /\
  upstream_timed_out (upstream_responds 500 text_stalls) = true /\
  reply (POST platform (request_json (Some "hi")) (upstream_responds 500 text_stalls))
  = mkResponse 500 (detail_only TIMED_OUT).
Proof.
  split; [reflexivity|]. split; [reflexivity|].
  exact (proj1 (route_timeout_in_every_window platform "hi"
                  (upstream_responds 500 text_stalls) eq_refl eq_refl)).
Defined.

(** [POST] answers 200 exactly when the prompt is not blank and the
    upstream replied with an ok status and a text; the body of such a
    reply is what the upstream sent, parsed, or [{ response: text }] when
    the text is not JSON; and every other reply has a status between 300
    and 599. *)
Theorem route_reply_status (pf : Platform) (req : RequestBody) (up : Upstream) :
  let r := reply (POST pf req up) in
  (status r = 200 <->
   all_ws (prompt_of req) = false /\
   exists st text parse,
     up = upstream_responds st (text_arrives text parse) /\ res_ok st = true) /\
  (forall st text parse,
      all_ws (prompt_of req) = false ->
      up = upstream_responds st (text_arrives text parse) -> res_ok st = true ->
      r = mkResponse 200 (match parse with
                          | Some v => v
                          | None => response_only text
                          end)) /\
  (status r = 200 \/ 300 <= status r <= 599).
Proof.
  cbn zeta. unfold POST. rewrite trim_empty_iff.
  destruct (all_ws (prompt_of req)) eqn:Hp; cbn [reply].
  - cbn. split; [|split].
    + split; [discriminate|]. intros [H _]. discriminate.
    + discriminate.
    + right. lia.
  - destruct up as [e| |st b]; cbn [relay].
    + cbn. split; [|split]; [split; [discriminate|]|discriminate|right; lia].
      intros (_ & st & text & parse & H & _). discriminate.
    + cbn. split; [|split]; [split; [discriminate|]|discriminate|right; lia].
      intros (_ & st & text & parse & H & _). discriminate.
    + destruct b as [text parse|e|].
      * destruct (res_ok st) eqn:Hok.
        -- cbn. split; [|split].
           ++ split; [|reflexivity]. intros _. split; [reflexivity|].
              exists st, text, parse. auto.
           ++ intros st' text' parse' _ H _. injection H as <- <- <-. reflexivity.
           ++ left. reflexivity.
        -- assert (Hno : forall st' text' parse',
                      upstream_responds st (text_arrives text parse)
                      = upstream_responds st' (text_arrives text' parse') ->
                      res_ok st' = true -> False).
           { intros st' text' parse' H Hok'. injection H as <- _ _. congruence. }
           unfold json_response.
           destruct ((st <? 200) || (599 <? st)) eqn:Hr;
             [|destruct ((st =? 204) || (st =? 205) || (st =? 304)) eqn:Hn]; cbn.
           ++ split; [|split]; [split; [discriminate|]| |right; lia].
              ** intros (_ & st' & text' & parse' & H & Hok'). exfalso. eauto.
              ** intros st' text' parse' _ H Hok'. exfalso. eauto.
           ++ split; [|split]; [split; [discriminate|]| |right; lia].
              ** intros (_ & st' & text' & parse' & H & Hok'). exfalso. eauto.
              ** intros st' text' parse' _ H Hok'. exfalso. eauto.
           ++ unfold res_ok in Hok.
              apply orb_false_iff in Hr as [Hr1 Hr2].
              apply Z.ltb_ge in Hr1, Hr2.
              assert (Hst : 300 <= st <= 599).
              { split; [|lia]. destruct (299 <? st) eqn:E; [apply Z.ltb_lt in E; lia|].
                apply Z.ltb_ge in E. exfalso.
                assert (H1 : (200 <=? st) = true) by (apply Z.leb_le; lia).
                assert (H2 : (st <=? 299) = true) by (apply Z.leb_le; lia).
                rewrite H1, H2 in Hok. discriminate. }
              split; [|split].
              ** split; [intros H; lia|].
                 intros (_ & st' & text' & parse' & H & Hok'). exfalso. eauto.
              ** intros st' text' parse' _ H Hok'. exfalso. eauto.
              ** right. exact Hst.
      * cbn. split; [|split]; [split; [discriminate|]|discriminate|right; lia].
        intros (_ & st' & text' & parse' & H & _). discriminate.
      * cbn. split; [|split]; [split; [discriminate|]|discriminate|right; lia].
        intros (_ & st' & text' & parse' & H & _). discriminate.
Qed.

(** So an ok upstream reply that is itself [{ detail: ... }] is answered
    with status 200 and that body. *)
Example relayed_detail_with_status_200 :
  reply (POST Examples.platform (request_json (Some "hi"))
           (upstream_responds 200
              (text_arrives "{}" (Some (detail_only "x")))))
  = mkResponse 200 (detail_only "x").
Proof. reflexivity. Qed.

End ChatRouteFacts.
